(** * GenAgent career assistant: retrieval-and-ranking engine

    A shallow embedding of the Python sources
      - [tools/faiss_utils.py]    (per-content-type vector store),
      - [tools/llm_api.py]        (LLM client: cache, retry, JSON extraction),
      - [tools/course_fetcher.py] (relevance analyzer and ranker),
      - [tools/pipeline.py], [crew/tools.py] (resume enhancement and its
        fallback wrapper, core information, resume matching),
      - [tools/add_sample_courses.py] (filling the course store),
      - [shared/config.py], [tools/resume_parser.py] (URL joining, the
        experience section),
    together with the properties stated about them.

    Conventions.  A Python [str] is modelled by a Rocq [string] holding the
    UTF-8 encoding of its code points; the operations used by the sources
    ([startswith], [find], [rfind], slicing at positions returned by
    [find], [strip], [replace], [in]) commute with that encoding.  Python
    integers are [Z]; a [float] is given by its exact binary64 value.  A
    [dict] used as a keyed store is a [gmap]; a [dict] that is data (a JSON
    object) is an insertion-ordered association list.  Exceptions are
    explicit: a function that can raise returns a [res].  The module-level
    cache of the client and everything the process does to the outside
    (requests, sleeps) are threaded through the functions as a [world]. *)

From Stdlib Require Import ZArith List Ascii String Lia Bool QArith.
From Stdlib Require Import DecimalString DecimalZ Sorted Lqa.
From stdpp Require Import base option list gmap strings.

Local Open Scope string_scope.
Local Open Scope Z_scope.

(** ** Python exceptions and results *)

Inductive exn_kind :=
| KeyError | IndexError | TypeError | AttributeError | ValueError
| JSONDecodeError | RequestException.

Record exn := Exn { exn_kind_of : exn_kind; exn_msg : string }.

Inductive res (A : Type) :=
| Ok (a : A)
| Raise (e : exn).
Arguments Ok {A} a.
Arguments Raise {A} e.

Definition res_bind {A B} (r : res A) (k : A -> res B) : res B :=
  match r with
  | Ok a => k a
  | Raise e => Raise e
  end.

Definition key_error {A} : res A := Raise (Exn KeyError EmptyString).
Definition index_error {A} : res A :=
  Raise (Exn IndexError "list index out of range").

(** [l[i]] for a Python integer [i]: negative positions count from
    the end, anything outside [-len, len) raises [IndexError]. *)
Definition py_getitem {A} (l : list A) (i : Z) : res A :=
  let n := Z.of_nat (List.length l) in
  let j := if i <? 0 then n + i else i in
  if (j <? 0) || (n <=? j) then index_error
  else match l !! Z.to_nat j with
       | Some a => Ok a
       | None => index_error
       end.

(** ** Python strings *)

Module PyStr.

(** The one-character string [chr(10)]. *)
Definition nl : string := String (ascii_of_N 10) EmptyString.

Definition bytes (s : string) : list N :=
  List.map N_of_ascii (list_ascii_of_string s).

Definition of_bytes (l : list N) : string :=
  string_of_list_ascii (List.map ascii_of_N l).

(** [ws_prefix l] drops one whitespace code point (in the sense of
    [str.isspace]) from the front of the UTF-8 byte sequence [l]. *)
Definition ws_prefix (l : list N) : option (list N) :=
  match l with
  | b :: r1 =>
      if ((9 <=? b) && (b <=? 13) || (28 <=? b) && (b <=? 32))%N then Some r1
      else match r1 with
      | c :: r2 =>
          if ((b =? 194) && ((c =? 133) || (c =? 160)))%N then Some r2
          else match r2 with
          | d :: r3 =>
              if ((b =? 225) && (c =? 154) && (d =? 128))%N then Some r3
              else if ((b =? 226) && (c =? 128) &&
                       ((128 <=? d) && (d <=? 138) || (d =? 168) || (d =? 169)
                        || (d =? 175)))%N then Some r3
              else if ((b =? 226) && (c =? 129) && (d =? 159))%N then Some r3
              else if ((b =? 227) && (c =? 128) && (d =? 128))%N then Some r3
              else None
          | [] => None
          end
      | [] => None
      end
  | [] => None
  end.

(** The same test on the reversed byte sequence (for the right end). *)
Definition ws_suffix_rev (l : list N) : option (list N) :=
  match l with
  | b :: r1 =>
      if ((9 <=? b) && (b <=? 13) || (28 <=? b) && (b <=? 32))%N then Some r1
      else match r1 with
      | c :: r2 =>
          if ((c =? 194) && ((b =? 133) || (b =? 160)))%N then Some r2
          else match r2 with
          | d :: r3 =>
              match ws_prefix [d; c; b] with
              | Some [] => Some r3
              | _ => None
              end
          | [] => None
          end
      | [] => None
      end
  | [] => None
  end.

Fixpoint drop_while_ws (step : list N -> option (list N)) (fuel : nat)
    (l : list N) : list N :=
  match fuel with
  | O => l
  | S fuel' =>
      match step l with
      | Some r => drop_while_ws step fuel' r
      | None => l
      end
  end.

Definition lstrip_bytes (l : list N) : list N :=
  drop_while_ws ws_prefix (List.length l) l.

Definition rstrip_bytes (l : list N) : list N :=
  List.rev (drop_while_ws ws_suffix_rev (List.length l) (List.rev l)).

(** [s.strip()] *)
Definition strip (s : string) : string :=
  of_bytes (rstrip_bytes (lstrip_bytes (bytes s))).

(** [s.startswith(p)] *)
Fixpoint startswith (p s : string) : bool :=
  match p, s with
  | EmptyString, _ => true
  | String a p', String b s' => Ascii.eqb a b && startswith p' s'
  | String _ _, EmptyString => false
  end.

(** [s[n:]] and [s[:n]] for [n >= 0]. *)
Fixpoint drop (n : nat) (s : string) : string :=
  match n, s with
  | O, _ => s
  | S n', String _ s' => drop n' s'
  | S _, EmptyString => EmptyString
  end.

Fixpoint take (n : nat) (s : string) : string :=
  match n, s with
  | O, _ => EmptyString
  | S n', String a s' => String a (take n' s')
  | S _, EmptyString => EmptyString
  end.

(** [s.find(p)]: the least position at which [p] occurs, [None] for -1. *)
Fixpoint find (p s : string) : option nat :=
  if startswith p s then Some O
  else match s with
       | EmptyString => None
       | String _ s' => option_map S (find p s')
       end.

(** [s.rfind(p)]: the greatest position at which [p] occurs. *)
Fixpoint rfind (p s : string) : option nat :=
  match s with
  | EmptyString => if startswith p s then Some O else None
  | String _ s' =>
      match rfind p s' with
      | Some i => Some (S i)
      | None => if startswith p s then Some O else None
      end
  end.

(** [p in s] *)
Definition contains (p s : string) : bool :=
  match find p s with Some _ => true | None => false end.

(** [s[i:j]] for [0 <= i] and [0 <= j]. *)
Definition slice (i j : nat) (s : string) : string :=
  take (j - i) (drop i s).

(** [s.replace(old, new)] for a non-empty [old]: non-overlapping
    occurrences, leftmost first. *)
Fixpoint replace_fuel (fuel : nat) (old new s : string) : string :=
  match fuel with
  | O => s
  | S fuel' =>
      if startswith old s then
        new ++ replace_fuel fuel' old new (drop (String.length old) s)
      else match s with
           | EmptyString => EmptyString
           | String a s' => String a (replace_fuel fuel' old new s')
           end
  end.

Definition replace (old new s : string) : string :=
  replace_fuel (S (String.length s)) old new s.

(** The text [s] with every apostrophe replaced by a double quote; used to
    write down texts that contain double quotes. *)
Definition dq (s : string) : string :=
  replace "'" (String "034" EmptyString) s.

(** [sep.join(parts)] for a list of strings. *)
Fixpoint join (sep : string) (parts : list string) : string :=
  match parts with
  | [] => EmptyString
  | [p] => p
  | p :: rest => p ++ sep ++ join sep rest
  end.

End PyStr.

(** ** The vector store: [tools/faiss_utils.py], class [FaissHandler] *)

Module Faiss.
Section Handler.

(** Embedding vectors, item metadata and distances are opaque here; the
    sentence-transformer [encode] and the nearest-neighbour routine of the
    index library are parameters.  [index_search idx q k] stands for
    [idx.search(q, k)] and yields the rows [D[0]] and [I[0]] zipped. *)
Context {vec meta dist : Type}.
Variable encode : string -> vec.
Variable index_search : list vec -> vec -> Z -> list (dist * Z).
Variable one_minus : dist -> dist.

Definition entry : Type := string * meta.

(** The handler's fields together with the files it reads and writes.
    An [IndexFlatL2] is the list of the vectors added to it; the two files
    of a data type are keyed by the data type, since their paths differ
    in the fixed prefixes [faiss_index_] and [faiss_corpus_]. *)
Record store := Store {
  indices : gmap string (list vec);
  corpora : gmap string (list entry);
  loaded_types : gset string;
  index_files : gmap string (list vec);
  corpus_files : gmap string (list entry)
}.

(** [FaissHandler(...)] over the files already present in [base_dir]. *)
Definition new_handler (ifs : gmap string (list vec))
    (cfs : gmap string (list entry)) : store :=
  Store ∅ ∅ ∅ ifs cfs.

Definition _ensure_loaded (data_type : string) (s : store) : store :=
  if decide (data_type ∈ loaded_types s) then s
  else
    let index := match index_files s !! data_type with
                 | Some i => i
                 | None => []
                 end in
    let corpus := match corpus_files s !! data_type with
                  | Some c => c
                  | None => []
                  end in
    Store (<[data_type := index]> (indices s))
          (<[data_type := corpus]> (corpora s))
          ({[data_type]} ∪ loaded_types s)
          (index_files s) (corpus_files s).

Definition lookup_key {A} (m : gmap string A) (k : string) : res A :=
  match m !! k with
  | Some a => Ok a
  | None => key_error
  end.

Definition save (data_type : string) (s : store) : res store :=
  let s := _ensure_loaded data_type s in
  res_bind (lookup_key (indices s) data_type) (fun index =>
  let s := Store (indices s) (corpora s) (loaded_types s)
                 (<[data_type := index]> (index_files s)) (corpus_files s) in
  res_bind (lookup_key (corpora s) data_type) (fun corpus =>
  Ok (Store (indices s) (corpora s) (loaded_types s)
            (index_files s) (<[data_type := corpus]> (corpus_files s))))).

Definition is_blank (text : string) : bool :=
  match PyStr.strip text with
  | EmptyString => true
  | _ => false
  end.

Definition add (text : string) (m : meta) (data_type : string) (s : store)
    : res (string * store) :=
  let s := _ensure_loaded data_type s in
  if is_blank text then Ok ("⚠️ Empty text, cannot embed.", s)
  else
    let embedding := encode text in
    res_bind (lookup_key (indices s) data_type) (fun index =>
    let s := Store (<[data_type := (index ++ [embedding])%list]> (indices s))
                   (corpora s) (loaded_types s)
                   (index_files s) (corpus_files s) in
    res_bind (lookup_key (corpora s) data_type) (fun corpus =>
    let s := Store (indices s)
                   (<[data_type := (corpus ++ [(text, m)])%list]> (corpora s))
                   (loaded_types s) (index_files s) (corpus_files s) in
    res_bind (save data_type s) (fun s =>
    Ok ("✅ Stored in FAISS.", s)))).

Record search_result := SearchResult {
  sr_text : string;
  sr_meta : meta;
  sr_similarity : dist
}.

Definition passes (filter_fn : option (meta -> bool)) (m : meta) : bool :=
  match filter_fn with
  | None => true
  | Some f => f m
  end.

(** The body of the [for idx, i in enumerate(I[0])] loop, with the
    accumulated [results]. *)
Fixpoint search_loop (corpus : list entry) (filter_fn : option (meta -> bool))
    (DI : list (dist * Z)) (results : list search_result)
    : res (list search_result) :=
  match DI with
  | [] => Ok results
  | (distance, i) :: DI' =>
      if i <? Z.of_nat (List.length corpus) then
        res_bind (py_getitem corpus i) (fun tm =>
        let similarity_score := one_minus distance in
        if passes filter_fn (snd tm) then
          search_loop corpus filter_fn DI'
            (results ++ [SearchResult (fst tm) (snd tm) similarity_score])%list
        else search_loop corpus filter_fn DI' results)
      else search_loop corpus filter_fn DI' results
  end.

Definition search (query_text data_type : string) (top_k : Z)
    (filter_fn : option (meta -> bool)) (s : store)
    : res (list search_result * store) :=
  let s := _ensure_loaded data_type s in
  res_bind (lookup_key (corpora s) data_type) (fun corpus =>
  match corpus with
  | [] => Ok ([], s)
  | _ :: _ =>
      let query_embedding := encode query_text in
      res_bind (lookup_key (indices s) data_type) (fun index =>
      let DI := index_search index query_embedding top_k in
      res_bind (search_loop corpus filter_fn DI []) (fun results =>
      Ok (results, s)))
  end).

Definition get_corpus (data_type : string) (s : store)
    : res (list entry * store) :=
  let s := _ensure_loaded data_type s in
  res_bind (lookup_key (corpora s) data_type) (fun corpus => Ok (corpus, s)).

Definition clear (data_type : string) (s : store) : res store :=
  let s := Store (<[data_type := []]> (indices s)) (corpora s)
                 (loaded_types s) (index_files s) (corpus_files s) in
  let s := Store (indices s) (<[data_type := []]> (corpora s))
                 (loaded_types s) (index_files s) (corpus_files s) in
  save data_type s.

(** *** The index/corpus invariant *)

(** Vector [i] of an index is the embedding of the text of corpus entry
    [i]; in particular the two sequences have the same length. *)
Definition aligned (index : list vec) (corpus : list entry) : Prop :=
  index = List.map (fun tm => encode (fst tm)) corpus.

Definition file_or_empty {A} (files : gmap string (list A)) (data_type : string)
    : list A :=
  match files !! data_type with
  | Some l => l
  | None => []
  end.

Definition files_aligned (ifs : gmap string (list vec))
    (cfs : gmap string (list entry)) : Prop :=
  forall data_type,
    aligned (file_or_empty ifs data_type) (file_or_empty cfs data_type).

Definition memory_aligned (s : store) : Prop :=
  forall data_type, data_type ∈ loaded_types s ->
    exists index corpus,
      indices s !! data_type = Some index /\
      corpora s !! data_type = Some corpus /\
      aligned index corpus.

Definition consistent (s : store) : Prop :=
  files_aligned (index_files s) (corpus_files s) /\ memory_aligned s.

(** States of a handler constructed over the files [ifs], [cfs] and then
    driven through its methods.  A [search] that raises leaves the state
    that [_ensure_loaded] produced. *)
Inductive reachable (ifs : gmap string (list vec))
    (cfs : gmap string (list entry)) : store -> Prop :=
| reach_init : reachable ifs cfs (new_handler ifs cfs)
| reach_load s data_type :
    reachable ifs cfs s -> reachable ifs cfs (_ensure_loaded data_type s)
| reach_save s data_type s' :
    reachable ifs cfs s -> save data_type s = Ok s' -> reachable ifs cfs s'
| reach_add s text m data_type r s' :
    reachable ifs cfs s -> add text m data_type s = Ok (r, s') ->
    reachable ifs cfs s'
| reach_search s q data_type k f r s' :
    reachable ifs cfs s -> search q data_type k f s = Ok (r, s') ->
    reachable ifs cfs s'
| reach_get_corpus s data_type c s' :
    reachable ifs cfs s -> get_corpus data_type s = Ok (c, s') ->
    reachable ifs cfs s'
| reach_clear s data_type s' :
    reachable ifs cfs s -> clear data_type s = Ok s' -> reachable ifs cfs s'.

(** What [self._indices[t]] and [self._corpora[t]] hold. *)
Definition in_memory (data_type : string) (s : store)
    : option (list vec * list entry) :=
  match indices s !! data_type, corpora s !! data_type with
  | Some i, Some c => Some (i, c)
  | _, _ => None
  end.

(** What the two files of a data type hold. *)
Definition on_disk (data_type : string) (s : store)
    : option (list vec * list entry) :=
  match index_files s !! data_type, corpus_files s !! data_type with
  | Some i, Some c => Some (i, c)
  | _, _ => None
  end.

(** The result that one neighbour [(distance, i)] with [0 <= i] contributes:
    the entry at position [i] when there is one and the filter accepts it. *)
Definition included (corpus : list entry) (filter_fn : option (meta -> bool))
    (di : dist * Z) : option search_result :=
  match corpus !! Z.to_nat (snd di) with
  | Some tm =>
      if passes filter_fn (snd tm)
      then Some (SearchResult (fst tm) (snd tm) (one_minus (fst di)))
      else None
  | None => None
  end.

End Handler.

(** A small exact nearest-neighbour routine over one-dimensional integer
    vectors, used to run the handler on concrete data; it is sample data
    like the vectors themselves, and no statement is about it.  Squared
    distances, the [k] smallest first and equal ones in index order, and,
    as the index library does when fewer than [k] vectors are stored, the
    remaining slots padded with the label [-1] and the largest distance
    [flt_max].  The arithmetic is that of the integers, where the library
    computes in 32-bit floats. *)
Definition flt_max : Z := 340282346638528859811704183484516925440.

Fixpoint insert_by_distance (x : Z * Z) (l : list (Z * Z)) : list (Z * Z) :=
  match l with
  | [] => [x]
  | y :: l' => if fst y <? fst x then y :: insert_by_distance x l' else x :: l
  end.

Definition flat_l2_search (index : list Z) (q : Z) (k : Z) : list (Z * Z) :=
  let scored := imap (fun i v => ((v - q) * (v - q), Z.of_nat i)) index in
  let nearest := take (Z.to_nat k) (foldr insert_by_distance [] scored) in
  (nearest ++ replicate (Z.to_nat k - List.length nearest)%nat (flt_max, -1))%list.

End Faiss.

(** ** Python values exchanged as JSON *)

(** A binary64 float by its exact value: [(-1)^neg * m * 2^e], an infinity,
    or NaN. *)
Inductive pyfloat :=
| FNaN
| FInf (neg : bool)
| FFin (neg : bool) (m : Z) (e : Z).

#[local] Set Warnings "-register-all".

Inductive json :=
| JNull
| JBool (b : bool)
| JInt (z : Z)
| JFloat (f : pyfloat)
| JStr (s : string)
| JArr (l : list json)
| JObj (kv : list (string * json)).

Module PyDict.

(** [d[k] = v] on an insertion-ordered dict: an existing key keeps its
    position, a new key goes last. *)
Fixpoint set (k : string) (v : json) (d : list (string * json))
    : list (string * json) :=
  match d with
  | [] => [(k, v)]
  | (k', v') :: d' =>
      if String.eqb k k' then (k, v) :: d' else (k', v') :: set k v d'
  end.

(** [d.get(k)], [None] when the key is absent. *)
Fixpoint get (k : string) (d : list (string * json)) : option json :=
  match d with
  | [] => None
  | (k', v) :: d' => if String.eqb k k' then Some v else get k d'
  end.

(** [k in d] *)
Definition mem (k : string) (d : list (string * json)) : bool :=
  match get k d with Some _ => true | None => false end.

(** [d.get(k, default)] *)
Definition get_default (k : string) (default : json) (d : list (string * json))
    : json :=
  match get k d with Some v => v | None => default end.

(** [dict(pairs)]: later pairs overwrite earlier ones. *)
Definition of_pairs (pairs : list (string * json)) : list (string * json) :=
  fold_left (fun d kv => set (fst kv) (snd kv) d) pairs [].

End PyDict.

Module PyFloat.

(** [float(lit)] for the decimal [(-1)^neg * m * 10^e10] with [0 <= m]:
    the nearest binary64 value, ties to even, with gradual underflow and
    overflow to infinity. *)
Definition round_half_even (n d : Z) : Z :=
  let q := n / d in
  let r := n mod d in
  if 2 * r <? d then q
  else if d <? 2 * r then q + 1
  else if Z.even q then q else q + 1.

Definition scaled (num den k : Z) : Z * Z :=
  if 0 <=? k then (num, den * 2 ^ k) else (num * 2 ^ (- k), den).

Definition of_decimal (neg : bool) (m e10 : Z) : pyfloat :=
  if m <=? 0 then FFin neg 0 0
  else if 400 <? e10 then FInf neg
  else if e10 + Z.log2 m <? -1200 then FFin neg 0 0
  else
    let num := if 0 <=? e10 then m * 10 ^ e10 else m in
    let den := if 0 <=? e10 then 1 else 10 ^ (- e10) in
    let k0 := Z.log2 num - Z.log2 den - 52 in
    let '(n0, d0) := scaled num den k0 in
    let k1 := if n0 <? d0 * 2 ^ 52 then k0 - 1 else k0 in
    let k := Z.max k1 (-1074) in
    let '(n, d) := scaled num den k in
    let mant := round_half_even n d in
    let '(mant, k) := if mant =? 2 ^ 53 then (2 ^ 52, k + 1) else (mant, k) in
    if mant =? 0 then FFin neg 0 0
    else if 971 <? k then FInf neg
    else FFin neg mant k.

(** [bool(x)] for a float: zero (of either sign) is false, NaN is true. *)
Definition truthy (f : pyfloat) : bool :=
  match f with
  | FFin _ m _ => negb (m =? 0)
  | _ => true
  end.

End PyFloat.

(** *** [json.loads] *)

Module Json.

Definition is_digit (a : ascii) : bool :=
  let n := N_of_ascii a in ((48 <=? n) && (n <=? 57))%N.

Definition digit_val (a : ascii) : Z := Z.of_N (N_of_ascii a) - 48.

Definition hex_val (a : ascii) : option Z :=
  let n := Z.of_N (N_of_ascii a) in
  if (48 <=? n) && (n <=? 57) then Some (n - 48)
  else if (65 <=? n) && (n <=? 70) then Some (n - 55)
  else if (97 <=? n) && (n <=? 102) then Some (n - 87)
  else None.

(** The whitespace of the JSON grammar. *)
Definition is_json_ws (a : ascii) : bool :=
  match a with
  | " "%char | "009"%char | "010"%char | "013"%char => true
  | _ => false
  end.

Fixpoint skip_ws (s : string) : string :=
  match s with
  | String a s' => if is_json_ws a then skip_ws s' else s
  | EmptyString => s
  end.

(** A maximal run of decimal digits: its digits and the rest. *)
Fixpoint span_digits (s : string) : string * string :=
  match s with
  | String a s' =>
      if is_digit a then let '(ds, r) := span_digits s' in (String a ds, r)
      else (EmptyString, s)
  | EmptyString => (EmptyString, s)
  end.

Fixpoint digits_val (acc : Z) (ds : string) : Z :=
  match ds with
  | String a ds' => digits_val (10 * acc + digit_val a) ds'
  | EmptyString => acc
  end.

(** UTF-8 encoding of a code point. *)
Definition chr (n : Z) : ascii := ascii_of_N (Z.to_N n).

Definition utf8 (cp : Z) : string :=
  if cp <? 128 then String (chr cp) EmptyString
  else if cp <? 2048 then
    String (chr (192 + cp / 64)) (String (chr (128 + cp mod 64)) EmptyString)
  else if cp <? 65536 then
    String (chr (224 + cp / 4096))
      (String (chr (128 + (cp / 64) mod 64))
        (String (chr (128 + cp mod 64)) EmptyString))
  else
    String (chr (240 + cp / 262144))
      (String (chr (128 + (cp / 4096) mod 64))
        (String (chr (128 + (cp / 64) mod 64))
          (String (chr (128 + cp mod 64)) EmptyString))).

(** Four hexadecimal digits. *)
Definition hex4 (s : string) : option (Z * string) :=
  match s with
  | String a (String b (String c (String d r))) =>
      match hex_val a, hex_val b, hex_val c, hex_val d with
      | Some x, Some y, Some z, Some w => Some (((x * 16 + y) * 16 + z) * 16 + w, r)
      | _, _, _, _ => None
      end
  | _ => None
  end.

(** The body of a string literal after the opening quote, up to and
    including the closing quote (strict mode: no raw control characters). *)
Fixpoint scan_string (fuel : nat) (s : string) : option (string * string) :=
  match fuel with
  | O => None
  | S fuel' =>
      match s with
      | EmptyString => None
      | String "034" r => Some (EmptyString, r)
      | String "\" r =>
          match r with
          | String e r' =>
              let simple c :=
                match scan_string fuel' r' with
                | Some (body, rest) => Some (String c body, rest)
                | None => None
                end in
              match e with
              | "034"%char => simple "034"%char
              | "\"%char => simple "\"%char
              | "/"%char => simple "/"%char
              | "b"%char => simple "008"%char
              | "f"%char => simple "012"%char
              | "n"%char => simple "010"%char
              | "r"%char => simple "013"%char
              | "t"%char => simple "009"%char
              | "u"%char =>
                  match hex4 r' with
                  | Some (u1, r1) =>
                      let pair :=
                        if (55296 <=? u1) && (u1 <=? 56319) then
                          match r1 with
                          | String "\" (String "u" r2) =>
                              match hex4 r2 with
                              | Some (u2, r3) =>
                                  if (56320 <=? u2) && (u2 <=? 57343)
                                  then Some (65536 + (u1 - 55296) * 1024
                                               + (u2 - 56320), r3)
                                  else None
                              | None => None
                              end
                          | _ => None
                          end
                        else None in
                      let '(cp, rest0) :=
                        match pair with
                        | Some p => p
                        | None => (u1, r1)
                        end in
                      match scan_string fuel' rest0 with
                      | Some (body, rest) => Some (utf8 cp ++ body, rest)%string
                      | None => None
                      end
                  | None => None
                  end
              | _ => None
              end
          | EmptyString => None
          end
      | String a r =>
          if (N_of_ascii a <? 32)%N then None
          else match scan_string fuel' r with
               | Some (body, rest) => Some (String a body, rest)
               | None => None
               end
      end
  end.

(** A number at the head of [s]: an optional minus sign, then either a
    single zero or a non-zero digit followed by digits, then optionally a
    dot with at least one digit, then optionally an exponent marker with an
    optional sign and at least one digit.  The value is an [int] when there
    is neither fraction nor exponent, a [float] otherwise. *)
Definition scan_number (s : string) : option (json * string) :=
  let '(neg, s1) := match s with
                    | String "-" r => (true, r)
                    | _ => (false, s)
                    end in
  let int_part :=
    match s1 with
    | String "0" r => Some (String "0" EmptyString, r)
    | String a _ =>
        if is_digit a then Some (span_digits s1) else None
    | EmptyString => None
    end in
  match int_part with
  | None => None
  | Some (ip, s2) =>
      let '(frac, s3) :=
        match s2 with
        | String "." r =>
            match span_digits r with
            | (EmptyString, _) => (EmptyString, s2)
            | (fd, r') => (fd, r')
            end
        | _ => (EmptyString, s2)
        end in
      let '(has_exp, ex, s4) :=
        match s3 with
        | String e r =>
            if Ascii.eqb e "e"%char || Ascii.eqb e "E"%char then
              let '(eneg, r1) := match r with
                                 | String "-" r' => (true, r')
                                 | String "+" r' => (false, r')
                                 | _ => (false, r)
                                 end in
              match span_digits r1 with
              | (EmptyString, _) => (false, 0, s3)
              | (ed, r2) =>
                  (true, if eneg then - digits_val 0 ed else digits_val 0 ed, r2)
              end
            else (false, 0, s3)
        | EmptyString => (false, 0, s3)
        end in
      match frac, has_exp with
      | EmptyString, false =>
          let v := digits_val 0 ip in
          Some (JInt (if neg then - v else v), s4)
      | _, _ =>
          let m := digits_val (digits_val 0 ip) frac in
          Some (JFloat (PyFloat.of_decimal neg m
                          (ex - Z.of_nat (String.length frac))), s4)
      end
  end.

Definition strip_prefix (p s : string) : option string :=
  if PyStr.startswith p s then Some (PyStr.drop (String.length p) s) else None.

(** One value at the head of [s] (no leading whitespace), as the scanner
    [scan_once] does; [scan_items] and [scan_members] are the loops for the
    elements of an array and the members of an object, entered after the
    first element resp. key has been located. *)
Fixpoint scan_value (fuel : nat) (s : string) : option (json * string) :=
  match fuel with
  | O => None
  | S fuel' =>
      match s with
      | String "034" r =>
          match scan_string (S (String.length r)) r with
          | Some (body, rest) => Some (JStr body, rest)
          | None => None
          end
      | String "{" r =>
          match skip_ws r with
          | String "}" rest => Some (JObj [], rest)
          | r1 =>
              match scan_members fuel' r1 [] with
              | Some (pairs, rest) => Some (JObj (PyDict.of_pairs pairs), rest)
              | None => None
              end
          end
      | String "[" r =>
          match skip_ws r with
          | String "]" rest => Some (JArr [], rest)
          | r1 =>
              match scan_items fuel' r1 [] with
              | Some (items, rest) => Some (JArr items, rest)
              | None => None
              end
          end
      | _ =>
          match strip_prefix "null" s, strip_prefix "true" s,
                strip_prefix "false" s with
          | Some rest, _, _ => Some (JNull, rest)
          | _, Some rest, _ => Some (JBool true, rest)
          | _, _, Some rest => Some (JBool false, rest)
          | _, _, _ =>
              match scan_number s with
              | Some r => Some r
              | None =>
                  match strip_prefix "NaN" s, strip_prefix "Infinity" s,
                        strip_prefix "-Infinity" s with
                  | Some rest, _, _ => Some (JFloat FNaN, rest)
                  | _, Some rest, _ => Some (JFloat (FInf false), rest)
                  | _, _, Some rest => Some (JFloat (FInf true), rest)
                  | _, _, _ => None
                  end
              end
          end
      end
  end

with scan_items (fuel : nat) (s : string) (acc : list json)
    : option (list json * string) :=
  match fuel with
  | O => None
  | S fuel' =>
      match scan_value fuel' s with
      | Some (v, r) =>
          match skip_ws r with
          | String "]" rest => Some ((acc ++ [v])%list, rest)
          | String "," r1 => scan_items fuel' (skip_ws r1) (acc ++ [v])%list
          | _ => None
          end
      | None => None
      end
  end

with scan_members (fuel : nat) (s : string) (acc : list (string * json))
    : option (list (string * json) * string) :=
  match fuel with
  | O => None
  | S fuel' =>
      match s with
      | String "034" r =>
          match scan_string (S (String.length r)) r with
          | Some (key, r1) =>
              match skip_ws r1 with
              | String ":" r2 =>
                  match scan_value fuel' (skip_ws r2) with
                  | Some (v, r3) =>
                      match skip_ws r3 with
                      | String "}" rest => Some ((acc ++ [(key, v)])%list, rest)
                      | String "," r4 =>
                          scan_members fuel' (skip_ws r4) (acc ++ [(key, v)])%list
                      | _ => None
                      end
                  | None => None
                  end
              | _ => None
              end
          | None => None
          end
      | _ => None
      end
  end.

(** [json.loads(s)]: one value surrounded by optional whitespace; [None]
    stands for [json.JSONDecodeError]. *)
Definition loads (s : string) : option json :=
  match scan_value (S (String.length s)) (skip_ws s) with
  | Some (v, rest) =>
      match skip_ws rest with
      | EmptyString => Some v
      | _ => None
      end
  | None => None
  end.

(** *** The limits of the interpreter on [json.loads] *)

(** Besides [JSONDecodeError], [json.loads] raises [RecursionError] when
    the containers of the document nest deeper than the recursion limit
    leaves room for at the call, and [ValueError] when an integer literal
    has more digits than the limit on the conversion of strings to [int]
    allows.  Both are raised at the point the scanner has reached, so that
    a limit met before a malformed part of the document wins over it. *)
Inductive limit_error :=
| TooDeep (in_object : bool)
| TooManyDigits (digits : Z).

Inductive decoded (A : Type) :=
| Decoded (a : A)
| Malformed
| Limited (e : limit_error).
Arguments Decoded {A} a.
Arguments Malformed {A}.
Arguments Limited {A} e.

(** The conversion of an integer literal counts its digits, not its sign;
    a limit of zero switches the check off. *)
Definition over_digits (max_digits digits : Z) : bool :=
  (0 <? max_digits) && (max_digits <? digits).

Definition literal_digits (s rest : string) : Z :=
  Z.of_nat (String.length s - String.length rest)
    - (if PyStr.startswith "-" s then 1 else 0).

Definition scan_number_within (max_digits : Z) (s : string)
    : decoded (json * string) :=
  match scan_number s with
  | Some (JInt z, rest) =>
      if over_digits max_digits (literal_digits s rest)
      then Limited (TooManyDigits (literal_digits s rest))
      else Decoded (JInt z, rest)
  | Some r => Decoded r
  | None => Malformed
  end.

(** The scanner with the two checks: [room] is the number of containers
    that can still be entered. *)
Fixpoint scan_value_within (max_digits : Z) (fuel room : nat) (s : string)
    : decoded (json * string) :=
  match fuel with
  | O => Malformed
  | S fuel' =>
      match s with
      | String "034" r =>
          match scan_string (S (String.length r)) r with
          | Some (body, rest) => Decoded (JStr body, rest)
          | None => Malformed
          end
      | String "{" r =>
          match room with
          | O => Limited (TooDeep true)
          | S room' =>
              match skip_ws r with
              | String "}" rest => Decoded (JObj [], rest)
              | r1 =>
                  match scan_members_within max_digits fuel' room' r1 [] with
                  | Decoded (pairs, rest) =>
                      Decoded (JObj (PyDict.of_pairs pairs), rest)
                  | Malformed => Malformed
                  | Limited e => Limited e
                  end
              end
          end
      | String "[" r =>
          match room with
          | O => Limited (TooDeep false)
          | S room' =>
              match skip_ws r with
              | String "]" rest => Decoded (JArr [], rest)
              | r1 =>
                  match scan_items_within max_digits fuel' room' r1 [] with
                  | Decoded (items, rest) => Decoded (JArr items, rest)
                  | Malformed => Malformed
                  | Limited e => Limited e
                  end
              end
          end
      | _ =>
          match strip_prefix "null" s, strip_prefix "true" s,
                strip_prefix "false" s with
          | Some rest, _, _ => Decoded (JNull, rest)
          | _, Some rest, _ => Decoded (JBool true, rest)
          | _, _, Some rest => Decoded (JBool false, rest)
          | _, _, _ =>
              match scan_number_within max_digits s with
              | Decoded r => Decoded r
              | Limited e => Limited e
              | Malformed =>
                  match strip_prefix "NaN" s, strip_prefix "Infinity" s,
                        strip_prefix "-Infinity" s with
                  | Some rest, _, _ => Decoded (JFloat FNaN, rest)
                  | _, Some rest, _ => Decoded (JFloat (FInf false), rest)
                  | _, _, Some rest => Decoded (JFloat (FInf true), rest)
                  | _, _, _ => Malformed
                  end
              end
          end
      end
  end

with scan_items_within (max_digits : Z) (fuel room : nat) (s : string)
    (acc : list json) : decoded (list json * string) :=
  match fuel with
  | O => Malformed
  | S fuel' =>
      match scan_value_within max_digits fuel' room s with
      | Decoded (v, r) =>
          match skip_ws r with
          | String "]" rest => Decoded ((acc ++ [v])%list, rest)
          | String "," r1 =>
              scan_items_within max_digits fuel' room (skip_ws r1)
                (acc ++ [v])%list
          | _ => Malformed
          end
      | Malformed => Malformed
      | Limited e => Limited e
      end
  end

with scan_members_within (max_digits : Z) (fuel room : nat) (s : string)
    (acc : list (string * json)) : decoded (list (string * json) * string) :=
  match fuel with
  | O => Malformed
  | S fuel' =>
      match s with
      | String "034" r =>
          match scan_string (S (String.length r)) r with
          | Some (key, r1) =>
              match skip_ws r1 with
              | String ":" r2 =>
                  match scan_value_within max_digits fuel' room (skip_ws r2) with
                  | Decoded (v, r3) =>
                      match skip_ws r3 with
                      | String "}" rest =>
                          Decoded ((acc ++ [(key, v)])%list, rest)
                      | String "," r4 =>
                          scan_members_within max_digits fuel' room (skip_ws r4)
                            (acc ++ [(key, v)])%list
                      | _ => Malformed
                      end
                  | Malformed => Malformed
                  | Limited e => Limited e
                  end
              | _ => Malformed
              end
          | None => Malformed
          end
      | _ => Malformed
      end
  end.

(** [json.loads(s)] under the limits: [Malformed] stands for
    [json.JSONDecodeError], [Limited] for the two other exceptions. *)
Definition loads_within (max_nesting : nat) (max_digits : Z) (s : string)
    : decoded json :=
  match scan_value_within max_digits (S (String.length s)) max_nesting
          (skip_ws s) with
  | Decoded (v, rest) =>
      match skip_ws rest with
      | EmptyString => Decoded v
      | _ => Malformed
      end
  | Malformed => Malformed
  | Limited e => Limited e
  end.

(** The outcome under the limits against the outcome without them: the
    same value, the same failure, or a stop at a limit. *)
Definition agrees {A} (d : decoded A) (o : option A) : Prop :=
  match d with
  | Decoded a => o = Some a
  | Malformed => o = None
  | Limited _ => True
  end.

End Json.

(** ** Operations of the Python runtime on values *)

Module PyVal.

(** Renderings that belong to the interpreter and its libraries and whose
    text the sources only pass along: [repr] of a float or a container, the
    message of a [JSONDecodeError] for a document, and the message of the
    exception raised when an operation is applied to an operand that does
    not support it.  With them the limits that the interpreter sets to
    [json.loads] where [call_llm_api_json] calls it: the number of
    containers that the recursion limit lets the scanner enter inside the
    outermost one (the call is made a few frames deep, so that one
    container can always be entered), the limit on the digits of an
    integer literal (4300 unless configured otherwise, 0 for none), and the
    message of the exception raised at a limit.  And
    the merge routine of [list.sort] for lists of 64 items and more, which
    is given the test [<] on the keys and the list. *)
Record runtime := Runtime {
  py_repr : json -> string;
  json_error_msg : string -> string;
  operand_error_msg : exn_kind -> json -> string;
  nesting_room : nat;
  int_max_str_digits : Z;
  limit_error_msg : Json.limit_error -> string;
  sort_long : (json -> json -> bool) -> list json -> list json
}.

Definition str_of_Z (z : Z) : string := NilZero.string_of_int (Z.to_int z).

(** [str(v)], which is also what an f-string substitutes for [{v}]. *)
Definition py_str (rt : runtime) (v : json) : string :=
  match v with
  | JStr s => s
  | JInt z => str_of_Z z
  | JBool true => "True"
  | JBool false => "False"
  | JNull => "None"
  | _ => py_repr rt v
  end.

(** [bool(v)] *)
Definition truthy (v : json) : bool :=
  match v with
  | JNull => false
  | JBool b => b
  | JInt z => negb (z =? 0)
  | JFloat f => PyFloat.truthy f
  | JStr s => negb (String.eqb s EmptyString)
  | JArr l => match l with [] => false | _ => true end
  | JObj d => match d with [] => false | _ => true end
  end.

Definition is_dict (v : json) : bool :=
  match v with JObj _ => true | _ => false end.

Definition is_list (v : json) : bool :=
  match v with JArr _ => true | _ => false end.

Definition is_str (v : json) : bool :=
  match v with JStr _ => true | _ => false end.

Definition raise_operand {A} (rt : runtime) (k : exn_kind) (v : json) : res A :=
  Raise (Exn k (operand_error_msg rt k v)).

(** The code points of a string, each as the string of its UTF-8 bytes. *)
Definition lead_len (a : ascii) : nat :=
  let n := N_of_ascii a in
  if (n <? 192)%N then 1%nat
  else if (n <? 224)%N then 2%nat
  else if (n <? 240)%N then 3%nat
  else 4%nat.

Fixpoint codepoints_fuel (fuel : nat) (s : string) : list string :=
  match fuel with
  | O => []
  | S fuel' =>
      match s with
      | EmptyString => []
      | String a _ =>
          PyStr.take (lead_len a) s
            :: codepoints_fuel fuel' (PyStr.drop (lead_len a) s)
      end
  end.

Definition codepoints (s : string) : list string :=
  codepoints_fuel (String.length s) s.

(** [key in v] for a string [key] *)
Definition py_contains (rt : runtime) (key : string) (v : json) : res bool :=
  match v with
  | JObj d => Ok (PyDict.mem key d)
  | JArr l =>
      Ok (existsb (fun x => match x with
                            | JStr s => String.eqb s key
                            | _ => false
                            end) l)
  | JStr s => Ok (PyStr.contains key s)
  | _ => raise_operand rt TypeError v
  end.

(** [v[k]] for a string or integer [k] *)
Definition py_subscript (rt : runtime) (v k : json) : res json :=
  match v, k with
  | JObj d, JStr key =>
      match PyDict.get key d with
      | Some x => Ok x
      | None => Raise (Exn KeyError (py_repr rt k))
      end
  | JObj _, _ => Raise (Exn KeyError (py_repr rt k))
  | JArr l, JInt i => py_getitem l i
  | JArr _, _ => raise_operand rt TypeError v
  | JStr s, JInt i => res_bind (py_getitem (codepoints s) i) (fun c => Ok (JStr c))
  | JStr _, _ => raise_operand rt TypeError v
  | _, _ => raise_operand rt TypeError v
  end.

(** [v.get(key, default)], defined on dicts only *)
Definition py_get (rt : runtime) (v : json) (key : string) (default : json)
    : res json :=
  match v with
  | JObj d => Ok (PyDict.get_default key default d)
  | _ => raise_operand rt AttributeError v
  end.

(** Lower case of the ASCII letters; bytes of other code points are kept. *)
Definition lower_ascii (a : ascii) : ascii :=
  let n := N_of_ascii a in
  if ((65 <=? n) && (n <=? 90))%N then ascii_of_N (n + 32) else a.

Definition upper_ascii (a : ascii) : ascii :=
  let n := N_of_ascii a in
  if ((97 <=? n) && (n <=? 122))%N then ascii_of_N (n - 32) else a.

Fixpoint lower (s : string) : string :=
  match s with
  | String a s' => String (lower_ascii a) (lower s')
  | EmptyString => EmptyString
  end.

(** [s.capitalize()] *)
Definition capitalize (s : string) : string :=
  match s with
  | String a s' => String (upper_ascii a) (lower s')
  | EmptyString => EmptyString
  end.

(** [v.lower()], defined on strings only *)
Definition py_lower (rt : runtime) (v : json) : res string :=
  match v with
  | JStr s => Ok (lower s)
  | _ => raise_operand rt AttributeError v
  end.

(** [sep.join(v)]: the items of a list must be strings; a string is
    iterated by code point and a dict by key. *)
Fixpoint all_strings (l : list json) : option (list string) :=
  match l with
  | [] => Some []
  | JStr s :: l' =>
      match all_strings l' with
      | Some r => Some (s :: r)
      | None => None
      end
  | _ :: _ => None
  end.

Definition py_join (rt : runtime) (sep : string) (v : json) : res string :=
  match v with
  | JArr l =>
      match all_strings l with
      | Some parts => Ok (PyStr.join sep parts)
      | None => raise_operand rt TypeError v
      end
  | JStr s => Ok (PyStr.join sep (codepoints s))
  | JObj d => Ok (PyStr.join sep (List.map fst d))
  | _ => raise_operand rt TypeError v
  end.

End PyVal.

(** ** The LLM client: [tools/llm_api.py] *)

Module LLM.
Import PyVal.

Definition cache_key : Type := string * string * string * Z.

Record response := Response { status_code : Z; text : string }.

(** What the process does to the outside: HTTP requests, sleeps, and calls
    of the local model. *)
Inductive event :=
| EvPost (role prompt : string) (max_tokens : Z)
| EvSleep (seconds : Q)
| EvLocal (role prompt : string) (max_tokens : Z).

(** The module-level [llm_cache] and the trace of events so far. *)
Record world := World {
  llm_cache : gmap cache_key json;
  log : list event
}.

(** The outside: the outcome of the [n]-th request ([Raise] for a transport
    exception), the value of the [n]-th [random.uniform(0, 1)], which the
    library draws from [0,1), and the outcome of the [n]-th call of the
    local model. *)
Record env := Env {
  server : nat -> string -> string -> Z -> res response;
  jitter : nat -> Q;
  local_llm : nat -> string -> string -> Z -> res json
}.

Definition is_post (e : event) : bool :=
  match e with EvPost _ _ _ => true | _ => false end.
Definition is_sleep (e : event) : bool :=
  match e with EvSleep _ => true | _ => false end.
Definition is_local (e : event) : bool :=
  match e with EvLocal _ _ _ => true | _ => false end.

Definition n_posts (l : list event) : nat := List.length (List.filter is_post l).
Definition n_sleeps (l : list event) : nat := List.length (List.filter is_sleep l).
Definition n_local (l : list event) : nat := List.length (List.filter is_local l).

Definition daily_limit_guidance : string :=
  "❌ **Daily API Limit Reached** ❌" ++ PyStr.nl ++ PyStr.nl ++
  "You are using the shared free-tier API key, which has a daily usage limit."
    ++ PyStr.nl ++ PyStr.nl ++
  "**To fix this, please:**" ++ PyStr.nl ++
  "1. Get your own free API key from [openrouter.ai](https://openrouter.ai/keys)"
    ++ PyStr.nl ++
  "2. Add it to the `.env` file in your project as `OPENROUTER_API_KEY=your_key_here`".

Section Client.

Variable rt : runtime.
Variable E : env.

(** [requests.post(api_url, headers=headers, json=payload)] *)
Definition post (role user_prompt : string) (max_tokens : Z) (w : world)
    : res response * world :=
  (server E (n_posts (log w)) role user_prompt max_tokens,
   World (llm_cache w) (log w ++ [EvPost role user_prompt max_tokens])).

(** [time.sleep((2 ** attempt) + random.uniform(0, 1))]; the sum is taken
    exactly, the rounding of the float addition is not modelled. *)
Definition backoff (attempt : Z) (w : world) : world :=
  let sleep_time := (inject_Z (2 ^ attempt) + jitter E (n_sleeps (log w)))%Q in
  World (llm_cache w) (log w ++ [EvSleep sleep_time]).

(** [response.json()] *)
Definition response_json (r : response) : res json :=
  match Json.loads (text r) with
  | Some v => Ok v
  | None => Raise (Exn JSONDecodeError (json_error_msg rt (text r)))
  end.

(** The [try] block of the 200 branch: [Some result] when the body has a
    non-empty ['choices'], [None] for the [else] branch. *)
Definition choose_content (r : response) : res (json * option json) :=
  res_bind (response_json r) (fun data =>
  res_bind (py_contains rt "choices" data) (fun has_choices =>
  if has_choices then
    res_bind (py_subscript rt data (JStr "choices")) (fun choices =>
    if truthy choices then
      res_bind (py_subscript rt choices (JInt 0)) (fun first =>
      res_bind (py_subscript rt first (JStr "message")) (fun message =>
      res_bind (py_subscript rt message (JStr "content")) (fun result =>
      Ok (data, Some result))))
    else Ok (data, None))
  else Ok (data, None))).

(** The [try] block of the 429 branch: whether the error message names a
    rate limit.  Both exceptions it can raise are caught by its handler. *)
Definition is_daily_limit (r : response) : res bool :=
  res_bind (response_json r) (fun error_data =>
  res_bind (py_get rt error_data "error" (JObj [])) (fun err =>
  res_bind (py_get rt err "message" (JStr EmptyString)) (fun error_message =>
  res_bind (py_lower rt error_message) (fun lowered =>
  Ok (PyStr.contains "rate limit" lowered))))).

Definition http_error (provider : string) (r : response) : string :=
  "❌ " ++ capitalize provider ++ " error: " ++ str_of_Z (status_code r)
    ++ " - " ++ text r.

Definition store_result (key : cache_key) (result : json) (w : world) : world :=
  World (<[key := result]> (llm_cache w)) (log w).

(** The loop [for attempt in range(max_retries)], with [n] iterations left. *)
Fixpoint attempts (role user_prompt provider : string) (max_tokens max_retries : Z)
    (n : nat) (attempt : Z) (w : world) : json * world :=
  let key := (role, user_prompt, provider, max_tokens) in
  match n with
  | O => (JStr ("❌ Max retries (" ++ str_of_Z max_retries ++ ") exceeded"), w)
  | S n' =>
      let '(outcome, w) := post role user_prompt max_tokens w in
      match outcome with
      | Ok response =>
          if status_code response =? 200 then
            match choose_content response with
            | Ok (_, Some result) => (result, store_result key result w)
            | Ok (data, None) =>
                let result :=
                  JStr ("❌ Unexpected response structure: " ++ py_str rt data) in
                (result, store_result key result w)
            | Raise e =>
                let result :=
                  JStr ("❌ Failed to parse JSON: " ++ exn_msg e ++ " | Raw: "
                        ++ text response) in
                (result, store_result key result w)
            end
          else if status_code response =? 429 then
            match is_daily_limit response with
            | Ok true => (JStr daily_limit_guidance, w)
            | _ =>
                if attempt <? max_retries - 1 then
                  attempts role user_prompt provider max_tokens max_retries
                    n' (attempt + 1) (backoff attempt w)
                else (JStr (http_error provider response), w)
            end
          else (JStr (http_error provider response), w)
      | Raise e =>
          if attempt <? max_retries - 1 then
            attempts role user_prompt provider max_tokens max_retries
              n' (attempt + 1) (backoff attempt w)
          else
            (JStr ("❌ Request failed after " ++ str_of_Z max_retries
                   ++ " attempts: " ++ exn_msg e), w)
      end
  end.

Definition call_llm_api (role user_prompt provider : string)
    (max_tokens max_retries : Z) (w : world) : json * world :=
  let key := (role, user_prompt, provider, max_tokens) in
  match llm_cache w !! key with
  | Some cached => (cached, w)
  | None =>
      if String.eqb provider "openrouter" then
        attempts role user_prompt provider max_tokens max_retries
          (Z.to_nat max_retries) 0 w
      else (JStr ("❌ Unsupported provider: " ++ provider), w)
  end.

(** *** [call_llm_api_json] *)

Definition json_instruction : string :=
  PyStr.nl ++ PyStr.nl ++ "IMPORTANT: Respond with valid JSON only. Do not include any text before or after the JSON object or array.".

(** The index at which the candidate starts: the first ['{'] when it comes
    before the first ['['] or there is no ['['], else the first ['[']. *)
Definition json_start (response_text : string) : option nat :=
  let first_brace := PyStr.find "{" response_text in
  let first_bracket := PyStr.find "[" response_text in
  match first_brace, first_bracket with
  | Some b, None => Some b
  | Some b, Some k => if (b <? k)%nat then Some b else Some k
  | None, Some k => Some k
  | None, None => None
  end.

Definition json_str (response_text : string) : string :=
  match json_start response_text with
  | Some start =>
      let start_char := PyStr.slice start (S start) response_text in
      let end_char := if String.eqb start_char "{" then "}" else "]" in
      let json_end := match PyStr.rfind end_char response_text with
                      | Some i => S i
                      | None => O
                      end in
      PyStr.slice start json_end response_text
  | None => response_text
  end.

Definition error_record (error raw_response : string)
    (extra : list (string * json)) : json :=
  JObj ([("error", JStr error); ("raw_response", JStr raw_response)] ++ extra).

Definition is_failure (response_text : string) : bool :=
  PyStr.startswith "❌" response_text || PyStr.startswith "⚠️" response_text.

(** What [call_llm_api_json] makes of the raw response string: the test
    for the failure markers, and the [try] block with its two handlers,
    the first for [json.JSONDecodeError], the second for every other
    exception, which [json.loads] raises at one of the interpreter's
    limits. *)
Definition parse_response (response_text : string) : json :=
  if is_failure response_text then
    error_record "LLM API call failed" response_text []
  else
    let response_text := PyStr.strip response_text in
    match Json.loads_within (S (nesting_room rt)) (int_max_str_digits rt)
            (json_str response_text) with
    | Json.Decoded parsed_json =>
        if is_dict parsed_json || is_list parsed_json then parsed_json
        else
          error_record "Invalid JSON type" (py_str rt parsed_json)
            [("parsing_error",
              JStr "LLM did not return a JSON object or array as requested.")]
    | Json.Malformed =>
        error_record "JSON parsing failed" response_text
          [("parsing_error", JStr (json_error_msg rt (json_str response_text)))]
    | Json.Limited e =>
        error_record "Unexpected parsing error" response_text
          [("error_details", JStr (limit_error_msg rt e))]
    end.

Definition call_llm_api_json (role user_prompt provider : string)
    (max_tokens max_retries : Z) (w : world) : res json * world :=
  let enhanced_prompt := user_prompt ++ json_instruction in
  let '(response_text, w) :=
    call_llm_api role enhanced_prompt provider max_tokens max_retries w in
  match response_text with
  | JStr s => (Ok (parse_response s), w)
  | v => (raise_operand rt AttributeError v, w)
  end.

(** *** Notions used to state the retry behaviour *)

(** Whether the 429 branch finds the daily limit named in the body. *)
Definition names_rate_limit (r : response) : bool :=
  match is_daily_limit r with
  | Ok true => true
  | _ => false
  end.

(** An outcome of a request after which the loop goes on when attempts are
    left: a transport exception, or a 429 that is not the daily limit. *)
Definition retryable (o : res response) : bool :=
  match o with
  | Raise _ => true
  | Ok r => (status_code r =? 429) && negb (names_rate_limit r)
  end.

(** The sentinel returned when the last attempt had outcome [o]. *)
Definition exhausted_message (provider : string) (max_retries : Z)
    (o : res response) : string :=
  match o with
  | Ok r => http_error provider r
  | Raise e =>
      "❌ Request failed after " ++ str_of_Z max_retries ++ " attempts: "
        ++ exn_msg e
  end.

(** The events of [k] attempts that were each followed by a retry: a
    request and then a sleep of [2 ** attempt] plus the drawn jitter,
    starting at [attempt], when [drawn] jitter values were drawn before. *)
Fixpoint retried_trace (role user_prompt : string) (max_tokens : Z)
    (attempt : Z) (drawn : nat) (k : nat) : list event :=
  match k with
  | O => []
  | S k' =>
      EvPost role user_prompt max_tokens ::
      EvSleep (inject_Z (2 ^ attempt) + jitter E drawn)%Q ::
      retried_trace role user_prompt max_tokens (attempt + 1) (S drawn) k'
  end.

(** The events of [m] attempts of which the last one ended the call. *)
Definition backoff_trace (role user_prompt : string) (max_tokens : Z)
    (attempt : Z) (drawn : nat) (m : nat) : list event :=
  match m with
  | O => []
  | S m' =>
      (retried_trace role user_prompt max_tokens attempt drawn m'
         ++ [EvPost role user_prompt max_tokens])%list
  end.

(** The sleeps among a list of events. *)
Definition sleeps_of (l : list event) : list Q :=
  omap (fun e => match e with EvSleep t => Some t | _ => None end) l.

End Client.

(** A later call of the client, with any arguments and any outside. *)
Record client_call := ClientCall {
  cc_env : env;
  cc_role : string;
  cc_prompt : string;
  cc_provider : string;
  cc_max_tokens : Z;
  cc_max_retries : Z
}.

Fixpoint run_calls (rt : runtime) (calls : list client_call) (w : world) : world :=
  match calls with
  | [] => w
  | c :: calls' =>
      run_calls rt calls'
        (snd (call_llm_api rt (cc_env c) (cc_role c) (cc_prompt c)
                (cc_provider c) (cc_max_tokens c) (cc_max_retries c) w))
  end.

(** The retry rule as the specification words it: when every request ends
    in a transport error or a response outside 2xx, the client makes
    [max_retries] requests before it gives up. *)
Definition retries_every_failure (rt : runtime) (E : env)
    (role user_prompt : string) (max_tokens max_retries : Z) (w : world) : Prop :=
  llm_cache w !! (role, user_prompt, "openrouter", max_tokens) = None ->
  (forall n, match server E n role user_prompt max_tokens with
             | Ok r => status_code r < 200 \/ 300 <= status_code r
             | Raise _ => True
             end) ->
  n_posts (log (snd (call_llm_api rt E role user_prompt "openrouter"
                       max_tokens max_retries w)))
    = (n_posts (log w) + Z.to_nat max_retries)%nat.

(** *** The extraction rule in the words of the specification *)

Module Spec.






(** The records that report a failure: [error] and [raw_response], and
    after them nothing, a [parsing_error] or the [error_details]. *)
Definition is_error_record (v : json) : Prop :=
  exists error raw_response rest,
    v = error_record error raw_response rest /\
    (rest = [] \/ (exists m, rest = [("parsing_error", JStr m)])
     \/ (exists m, rest = [("error_details", JStr m)])).

End Spec.

End LLM.
(** ** [sorted] and [list.sort] *)

(** [list.sort] decides by [<] on the keys alone.  With [reverse=True] it
    reverses the list, sorts it in ascending order and reverses the result.
    A list of fewer than 64 items is sorted in one piece: the run at its
    head is found by [count_run] (a strictly descending run is reversed in
    place) and the remaining items are put into it one by one at the slot
    that a binary search finds ([binarysort]).  This is the routine of
    CPython up to version 3.12; it fixes the result also where [<] does not
    order the keys, as with NaN.  Longer lists go through the merge
    routine, which is a parameter here. *)
Module PySort.
Section ListSort.

Context {A : Type}.
Variable lt : A -> A -> bool.









(** *** The stable order *)

(** [x] goes behind the items that are not greater than it. *)
Fixpoint insert_asc (x : A) (l : list A) : list A :=
  match l with
  | [] => [x]
  | y :: l' => if lt x y then x :: l else y :: insert_asc x l'
  end.

(** The ascending order of [l] in which items that [<] does not tell
    apart keep their order. *)
Definition stable_asc (l : list A) : list A :=
  List.fold_left (fun acc x => insert_asc x acc) l [].

(** [y] is not before [x] in ascending order. *)
Definition le (x y : A) : Prop := lt y x = false.

(** [<] orders the items of [dom] consistently. *)
Record consistent (dom : A -> Prop) : Prop := Consistent {
  lt_asym : forall x y, dom x -> dom y -> lt x y = true -> lt y x = false;
  lt_trans : forall x y z, dom x -> dom y -> dom z ->
    lt x y = true -> lt y z = true -> lt x z = true;
  le_trans : forall x y z, dom x -> dom y -> dom z ->
    lt y x = false -> lt z y = false -> lt z x = false;
  lt_le_trans : forall x y z, dom x -> dom y -> dom z ->
    lt x y = true -> lt z y = false -> lt x z = true
}.

End ListSort.
End PySort.


(** ** Relevance analysis and ranking: [tools/course_fetcher.py] *)

Module Courses.
Import PyVal LLM.

(** *** Numbers as sort keys *)






Section Analyzer.

Variable rt : runtime.
Variable E : env.

(** *** [analyze_course_relevance] *)

Definition invalid_course_record : json :=
  JObj [("relevance_score", JInt 0);
        ("skill_gaps_covered", JArr []);
        ("learning_level", JStr "Unknown");
        ("career_impact", JStr "Unknown");
        ("recommendation", JStr "Not Recommended");
        ("reasoning", JStr "Invalid course data format")].

(** The record returned on a failed analysis; only [reasoning] varies. *)
Definition default_analysis (reasoning : string) : json :=
  JObj [("relevance_score", JInt 1);
        ("skill_gaps_covered", JArr []);
        ("learning_level", JStr "Unknown");
        ("career_impact", JStr "Moderate");
        ("recommendation", JStr "Consider");
        ("reasoning", JStr reasoning)].

Definition analysis_role : string :=
  "You are an expert learning advisor and career coach. Analyze course relevance objectively and return only valid JSON.".

Definition analysis_prompt (skills_text target_role : string)
    (course_title course_institution course_rating course_description : json)
    : string :=
  PyStr.nl ++
  "        Analyze the relevance of this course for a user with the following profile:" ++
  PyStr.nl ++ "        " ++ PyStr.nl ++ "        **User Skills:** " ++
  skills_text ++ PyStr.nl ++ "        **Target Role:** " ++ target_role ++
  PyStr.nl ++ "        " ++ PyStr.nl ++
  "        **Course Information:**" ++ PyStr.nl ++ "        - Title: " ++
  py_str rt course_title ++ PyStr.nl ++ "        - Institution: " ++
  py_str rt course_institution ++ PyStr.nl ++ "        - Rating: " ++
  py_str rt course_rating ++ PyStr.nl ++ "        - Description: " ++
  py_str rt course_description ++ PyStr.nl ++ "        " ++ PyStr.nl ++
  "        Please provide:" ++ PyStr.nl ++
  "        1. Relevance Score (1-10): How well does this course align with the user's skills and target role?" ++
  PyStr.nl ++
  "        2. Skill Gap Coverage: Which missing skills does this course address?" ++
  PyStr.nl ++
  "        3. Learning Level: Is this course suitable for the user's current level (Beginner/Intermediate/Advanced)?" ++
  PyStr.nl ++
  "        4. Career Impact: How will this course help in achieving the target role?" ++
  PyStr.nl ++
  "        5. Recommendation: Strongly Recommend/Recommend/Consider/Not Recommended" ++
  PyStr.nl ++ "        " ++ PyStr.nl ++
  "        Format your response as JSON:" ++ PyStr.nl ++ "        {" ++
  PyStr.nl ++ (PyStr.dq "            'relevance_score': 8,") ++ PyStr.nl ++
  (PyStr.dq "            'skill_gaps_covered': ['skill1', 'skill2'],") ++
  PyStr.nl ++ (PyStr.dq "            'learning_level': 'Intermediate',") ++
  PyStr.nl ++
  (PyStr.dq "            'career_impact': 'High impact for target role',") ++
  PyStr.nl ++
  (PyStr.dq "            'recommendation': 'Strongly Recommend',") ++
  PyStr.nl ++ (PyStr.dq "            'reasoning': 'Brief explanation'") ++
  PyStr.nl ++ "        }" ++ PyStr.nl ++ "        ".

Definition analyze_course_relevance (course_data user_skills : json)
    (target_role : string) (w : world) : json * world :=
  match course_data with
  | JObj d =>
      let course_title := PyDict.get_default "title" (JStr EmptyString) d in
      let course_description :=
        PyDict.get_default "description" (JStr EmptyString) d in
      let course_institution :=
        PyDict.get_default "institution" (JStr EmptyString) d in
      let course_rating := PyDict.get_default "rating" (JStr EmptyString) d in
      match py_join rt ", " user_skills with
      | Raise e => (default_analysis ("Analysis error: " ++ exn_msg e), w)
      | Ok skills_text =>
          let prompt :=
            analysis_prompt skills_text target_role course_title
              course_institution course_rating course_description in
          let '(answer, w) :=
            call_llm_api_json rt E analysis_role prompt "openrouter" 500 3 w in
          match answer with
          | Raise e => (default_analysis ("Analysis error: " ++ exn_msg e), w)
          | Ok analysis =>
              if match analysis with
                 | JObj a => PyDict.mem "error" a
                 | _ => false
                 end
              then (default_analysis "Analysis failed or was unavailable.", w)
              else
                let analysis := match analysis with
                                | JArr (first :: _) => first
                                | _ => analysis
                                end in
                if negb (is_dict analysis)
                then (default_analysis "Analysis returned an invalid format.", w)
                else (analysis, w)
          end
      end
  | _ => (invalid_course_record, w)
  end.

(** The normalization in the words of the specification: an error record
    of the client gives the safe default, a non-empty array is replaced by
    its first element, what is then not an object gives the invalid-format
    default, and any other parsed object is returned verbatim.  An error
    record is a record with [error] and [raw_response]. *)
Definition is_error_record (v : json) : bool :=
  match v with
  | JObj a => PyDict.mem "error" a && PyDict.mem "raw_response" a
  | _ => false
  end.

Definition normalized (analysis : json) : json :=
  if is_error_record analysis
  then default_analysis "Analysis failed or was unavailable."
  else
    match match analysis with
          | JArr (first :: _) => first
          | _ => analysis
          end with
    | JObj a => JObj a
    | _ => default_analysis "Analysis returned an invalid format."
    end.

(** The prompt that [analyze_course_relevance] builds for the course [d]. *)
Definition prompt_for (skills_text target_role : string)
    (d : list (string * json)) : string :=
  analysis_prompt skills_text target_role
    (PyDict.get_default "title" (JStr EmptyString) d)
    (PyDict.get_default "institution" (JStr EmptyString) d)
    (PyDict.get_default "rating" (JStr EmptyString) d)
    (PyDict.get_default "description" (JStr EmptyString) d).

Definition normalizes_as_specified (d : list (string * json))
    (user_skills : json) (target_role : string) (w : world) : Prop :=
  forall skills_text analysis,
    py_join rt ", " user_skills = Ok skills_text ->
    fst (call_llm_api_json rt E analysis_role
           (prompt_for skills_text target_role d) "openrouter" 500 3 w)
      = Ok analysis ->
    fst (analyze_course_relevance (JObj d) user_skills target_role w)
      = normalized analysis.

(** *** [rank_and_filter_courses] *)


End Analyzer.






(** [l[:k]] for a Python integer [k] *)
Definition py_slice_to {A} (k : Z) (l : list A) : list A :=
  if 0 <=? k then take (Z.to_nat k) l
  else take (Z.to_nat (Z.of_nat (List.length l) + k)) l.



(** *** Notions used to state the order of the result *)









(** *** The ranking in the words of the specification *)








End Courses.

(** ** Resume enhancement: [tools/pipeline.py] and [crew/tools.py] *)

Module Pipeline.
Import PyVal LLM.

(** *** [clean_llm_output] *)

Definition backslash (c : string) : string := String "092" c.
Definition tab : string := String "009" EmptyString.
Definition cr : string := String "013" EmptyString.

(** [re.sub(r'\n{3,}', '\n\n', s)]: every maximal run of three or more
    newlines becomes two newlines.  [run] counts the newlines seen just
    before the current position. *)
Fixpoint collapse_newlines (run : nat) (s : string) : string :=
  let flush (rest : string) : string :=
    match run with
    | O => rest
    | 1%nat => PyStr.nl ++ rest
    | _ => PyStr.nl ++ PyStr.nl ++ rest
    end in
  match s with
  | EmptyString => flush EmptyString
  | String a s' =>
      if Ascii.eqb a "010" then collapse_newlines (S run) s'
      else flush (String a (collapse_newlines O s'))
  end.

(** [re.sub(r' +', ' ', s)]: every maximal run of spaces becomes one. *)
Fixpoint collapse_spaces (in_run : bool) (s : string) : string :=
  match s with
  | EmptyString => EmptyString
  | String a s' =>
      if Ascii.eqb a " " then
        if in_run then collapse_spaces true s'
        else String a (collapse_spaces true s')
      else String a (collapse_spaces false s')
  end.

Definition clean_text (text : string) : string :=
  let text := PyStr.replace (backslash "n") PyStr.nl text in
  let text := PyStr.replace (backslash "t") tab text in
  let text := PyStr.replace (backslash "r") cr text in
  let text := PyStr.replace (tab ++ "+") "- " text in
  let text := PyStr.replace (tab ++ "-") "- " text in
  let text := PyStr.replace (tab ++ "*") "- " text in
  let text := collapse_newlines O text in
  let text := PyStr.replace (backslash "n") " " text in
  let text := PyStr.replace (backslash "t") " " text in
  let text := collapse_spaces false text in
  PyStr.strip text.

Section Stages.

Variable rt : runtime.
Variable E : env.

(** A falsy value is returned as it is; [replace] exists on strings only. *)
Definition clean_llm_output (text : json) : res json :=
  if negb (truthy text) then Ok text
  else match text with
       | JStr s => Ok (JStr (clean_text s))
       | _ => raise_operand rt AttributeError text
       end.

(** *** [extract_json_from_llm_output] *)

Definition lstrip (s : string) : string :=
  PyStr.of_bytes (PyStr.lstrip_bytes (PyStr.bytes s)).

(** The optional [json] after the fence, letter case ignored; the long s
    (U+017F) matches [s] under [re.IGNORECASE]. *)
Definition skip_json_tag (s : string) : string :=
  match s with
  | String j r1 =>
      if Ascii.eqb (lower_ascii j) "j" then
        let after_s :=
          match r1 with
          | String c r2 =>
              if Ascii.eqb (lower_ascii c) "s" then Some r2
              else match r2 with
                   | String c' r3 =>
                       if Ascii.eqb c "197" && Ascii.eqb c' "191" then Some r3
                       else None
                   | EmptyString => None
                   end
          | EmptyString => None
          end in
        match after_s with
        | Some (String o (String n rest)) =>
            if Ascii.eqb (lower_ascii o) "o" && Ascii.eqb (lower_ascii n) "n"
            then rest else s
        | _ => s
        end
      else s
  | EmptyString => s
  end.

(** The lazy group: the number of characters after the opening brace up to
    and including the first closing brace that is followed by optional
    whitespace and a fence. *)
Fixpoint group_end (s : string) : option nat :=
  match s with
  | EmptyString => None
  | String a s' =>
      if Ascii.eqb a "}" && PyStr.startswith "```" (lstrip s') then Some 1%nat
      else option_map S (group_end s')
  end.

(** A match of the pattern: fence, optional tag, whitespace, braced group,
    whitespace, fence, starting at the head of [s]; the result is group 1. *)
Definition match_fenced (s : string) : option string :=
  match Json.strip_prefix "```" s with
  | Some r1 =>
      match lstrip (skip_json_tag r1) with
      | String "{" body =>
          match group_end body with
          | Some n => Some (String "{" (PyStr.take n body))
          | None => None
          end
      | _ => None
      end
  | None => None
  end.

(** [re.search]: the leftmost match. *)
Fixpoint search_fenced (s : string) : option string :=
  match match_fenced s with
  | Some g => Some g
  | None =>
      match s with
      | EmptyString => None
      | String _ s' => search_fenced s'
      end
  end.

Definition extract_json_from_llm_output (text : string) : string :=
  match search_fenced text with
  | Some g => g
  | None =>
      match PyStr.find "{" text, PyStr.rfind "}" text with
      | Some start, Some stop => PyStr.slice start (S stop) text
      | _, _ => PyStr.strip text
      end
  end.

(** *** [extract_resume_core_info] *)

Definition core_info_role : string :=
  "You are an expert resume parser and branding coach. Extract all requested fields and return only valid JSON.".

Definition core_info_prompt (resume_text : string) : string :=
  "You are an expert resume parser and branding coach. Given the following resume, extract:" ++
  PyStr.nl ++
  (PyStr.dq "1. Key technical skills (as a Python list of strings, e.g., ['Python', 'Machine Learning']). If no skills are found, return an empty list.") ++
  PyStr.nl ++
  (PyStr.dq "2. The most likely job title (as a short string, e.g., 'Data Scientist'). If not found, return 'Unknown'.") ++
  PyStr.nl ++ "3. A professional headline (max 12 words)." ++ PyStr.nl ++
  "4. A 2–3 line professional summary (max 60 words)." ++ PyStr.nl ++
  "Respond ONLY in valid JSON as:" ++ PyStr.nl ++ "{" ++ PyStr.nl ++
  (PyStr.dq "  'skills': [...],") ++ PyStr.nl ++
  (PyStr.dq "  'job_title': '...',") ++ PyStr.nl ++
  (PyStr.dq "  'headline': '...',") ++ PyStr.nl ++
  (PyStr.dq "  'summary': '...'") ++ PyStr.nl ++ "}" ++ PyStr.nl ++
  "Do not include any text before or after the JSON." ++ PyStr.nl ++
  "Resume:" ++ PyStr.nl ++ resume_text.

Definition empty_core_info : json :=
  JObj [("skills", JArr []); ("job_title", JStr EmptyString);
        ("headline", JStr EmptyString); ("summary", JStr EmptyString)].

(** [if key not in data: data[key] = ""]: item assignment exists on dicts
    (and, with an integer index, on lists) only. *)
Definition fill_key (key : string) (data : json) : res json :=
  res_bind (py_contains rt key data) (fun present =>
  if present then Ok data
  else match data with
       | JObj d => Ok (JObj (PyDict.set key (JStr EmptyString) d))
       | _ => raise_operand rt TypeError data
       end).

Definition extract_resume_core_info (resume_text : string) (w : world)
    : json * world :=
  let '(response, w) :=
    call_llm_api rt E core_info_role (core_info_prompt resume_text)
      "openrouter" 500 3 w in
  let attempt :=
    match response with
    | JStr text =>
        match Json.loads (extract_json_from_llm_output text) with
        | Some data =>
            res_bind (fill_key "skills" data) (fun data =>
            res_bind (fill_key "job_title" data) (fun data =>
            res_bind (fill_key "headline" data) (fun data =>
            fill_key "summary" data)))
        | None => Raise (Exn JSONDecodeError (json_error_msg rt text))
        end
    | v => raise_operand rt TypeError v
    end in
  match attempt with
  | Ok data => (data, w)
  | Raise _ => (empty_core_info, w)
  end.

(** *** [enhance_resume], called with [skills] and [core_info] left out *)

Definition enhancement_role : string := "You are a professional resume editor.".

Definition enhancement_prompt (target_job_role headline summary : json)
    (skills_text resume_text : string) : string :=
  "Act as a professional resume editor. Rewrite and enhance the following resume to target the job role of '" ++
  py_str rt target_job_role ++ "'." ++ PyStr.nl ++ PyStr.nl ++
  "**Instructions:**" ++ PyStr.nl ++
  "1. **Integrate Headline & Summary:** Start with this professional headline: " ++
  py_str rt headline ++ " and summary: " ++ py_str rt summary ++ "." ++
  PyStr.nl ++
  "2. **Inject Skills:** Seamlessly incorporate these key skills: " ++
  skills_text ++ "." ++ PyStr.nl ++
  "3. **Full Rewrite:** Rewrite the entire resume, not just parts of it. Ensure all original sections (Experience, Education, etc.) are present and improved." ++
  PyStr.nl ++
  "4. **Professional Tone:** Use action verbs and quantifiable achievements." ++
  PyStr.nl ++
  "5. **Formatting:** Use clean markdown with clear headers (e.g., `## Experience`) and bullet points (`-`). Do not use any escape characters like \n." ++
  PyStr.nl ++ PyStr.nl ++ "**Original Resume to Enhance:**" ++ PyStr.nl ++
  resume_text ++ PyStr.nl ++ PyStr.nl ++
  "**Return the complete, enhanced resume.**".

Definition enhance_resume (resume_text : string) (target_job_role : json)
    (w : world) : res json * world :=
  let '(core_info, w) := extract_resume_core_info resume_text w in
  match
    res_bind (py_get rt core_info "headline" (JStr EmptyString)) (fun headline =>
    res_bind (py_get rt core_info "summary" (JStr EmptyString)) (fun summary =>
    res_bind (py_get rt core_info "skills" JNull) (fun skills =>
    res_bind (py_get rt core_info "job_title" target_job_role)
      (fun target_job_role =>
    res_bind (py_join rt ", " skills) (fun skills_text =>
    Ok (enhancement_prompt target_job_role headline summary skills_text
          resume_text))))))
  with
  | Ok prompt =>
      let '(result, w) :=
        call_llm_api rt E enhancement_role prompt "openrouter" 1500 3 w in
      (Ok result, w)
  | Raise e => (Raise e, w)
  end.

(** *** [handle_llm_fallback] and [clean_enhance_resume] *)

Definition unavailable : string :=
  "⚠️ Service temporarily unavailable. Please try again later.".

(** [call_local_llm_api] is imported from [tools/local_llm.py], a module
    the repository does not contain; its outcome is the field [local_llm]
    of the outside. *)
Definition call_local_llm_api (role prompt : string) (max_tokens : Z) (w : world)
    : res json * world :=
  (local_llm E (n_local (log w)) role prompt max_tokens,
   World (llm_cache w) (log w ++ [EvLocal role prompt max_tokens])).

Definition handle_llm_fallback (role prompt : string) (max_tokens : Z)
    (w : world) : json * world :=
  let '(outcome, w) := call_local_llm_api role prompt max_tokens w in
  match outcome with
  | Ok (JStr local_response) =>
      if negb (PyStr.startswith "❌" local_response)
      then (JStr local_response, w)
      else (JStr (unavailable ++ " (Local fallback failed: " ++ local_response
                    ++ ")"), w)
  | _ => (JStr unavailable, w)
  end.

Definition fallback_prompt (target_job_role : json) (resume_text : string)
    : string :=
  "Enhance this resume for the role of " ++ py_str rt target_job_role ++
  ". Add a professional summary and improve formatting:" ++ PyStr.nl ++
  PyStr.nl ++ resume_text.

Definition clean_enhance_resume (resume_text : string) (target_job_role : json)
    (w : world) : json * world :=
  let '(result, w) := enhance_resume resume_text target_job_role w in
  match res_bind result clean_llm_output with
  | Ok cleaned => (cleaned, w)
  | Raise _ =>
      handle_llm_fallback enhancement_role
        (fallback_prompt target_job_role resume_text) 1200 w
  end.

End Stages.
End Pipeline.

(** ** Quantities of a trace *)

Module Trace.
Import PyVal LLM.

(** The time slept during a list of events. *)
Definition total_sleep (l : list event) : Q :=
  List.fold_right Qplus 0%Q (sleeps_of l).

End Trace.


(** ** The legacy entry points of [tools/faiss_utils.py] *)

Module Legacy.
Import Faiss.
Section Legacy.

(** The metadata of an item is a dict here. *)
Context {vec dist : Type}.
Variable encode : string -> vec.

Abbreviation store := (@store vec json).

(** The contents of [faiss_index.bin] and [faiss_corpus.pkl], [None] for a
    file that does not exist.  The legacy corpus is a list of
    [(text, filename)] pairs, as the legacy code pickled it. *)
Record legacy_files := LegacyFiles {
  legacy_index : option (list vec);
  legacy_corpus : option (list (string * string))
}.

Definition filename_meta (filename : string) : json :=
  JObj [("filename", JStr filename)].

(** The loop [for text, filename in legacy_corpus]; the flag tells whether
    it ran to its end, the state is the one reached. *)
Fixpoint migrate_corpus (target_data_type : string)
    (legacy_corpus : list (string * string)) (s : store) : bool * store :=
  match legacy_corpus with
  | [] => (true, s)
  | (text, filename) :: rest =>
      let meta := filename_meta filename in
      match corpora s !! target_data_type with
      | Some corpus =>
          migrate_corpus target_data_type rest
            (Store (indices s)
                   (<[target_data_type := (corpus ++ [(text, meta)])%list]>
                      (corpora s))
                   (loaded_types s) (index_files s) (corpus_files s))
      | None => (false, s)
      end
  end.

(** [migrate_legacy_data]: the result and the state of the handler.  Every
    exception inside the [try] block ends the call with [False], whatever
    was changed before stays changed. *)
Definition migrate_legacy_data (L : legacy_files) (target_data_type : string)
    (s : store) : bool * store :=
  match legacy_index L, legacy_corpus L with
  | Some legacy_index, Some legacy_corpus =>
      let s := _ensure_loaded target_data_type s in
      let vectors := legacy_index in
      match indices s !! target_data_type with
      | Some index =>
          let s := Store (<[target_data_type := (index ++ vectors)%list]>
                            (indices s))
                         (corpora s) (loaded_types s)
                         (index_files s) (corpus_files s) in
          match migrate_corpus target_data_type legacy_corpus s with
          | (true, s) =>
              match save target_data_type s with
              | Ok s' => (true, s')
              | Raise _ => (false, _ensure_loaded target_data_type s)
              end
          | (false, s) => (false, s)
          end
      | None => (false, s)
      end
  | _, _ => (false, s)
  end.

(** [embed_and_store]: a handler of its own over the files of the moment,
    the migration when the resume corpus is empty, then [add]. *)
Definition embed_and_store (L : legacy_files) (text filename : string)
    (ifs : gmap string (list vec)) (cfs : gmap string (list (string * json)))
    : res (string * store) :=
  let handler := new_handler ifs cfs in
  res_bind (get_corpus "resume" handler) (fun '(corpus, handler) =>
  let handler :=
    match corpus with
    | [] => snd (migrate_legacy_data L "resume" handler)
    | _ :: _ => handler
    end in
  let meta := filename_meta filename in
  add encode text meta "resume" handler).

(** The legacy corpus in the new format. *)
Definition converted (legacy_corpus : list (string * string))
    : list (string * json) :=
  List.map (fun tf => (fst tf, filename_meta (snd tf))) legacy_corpus.

(** What [embed_and_store] finds to migrate: the legacy data when the
    resume corpus is empty and both legacy files exist. *)
Definition to_migrate (L : legacy_files) (corpus : list (string * json))
    : list vec * list (string * json) :=
  match corpus, legacy_index L, legacy_corpus L with
  | [], Some li, Some lc => (li, converted lc)
  | _, _, _ => ([], [])
  end.

End Legacy.
End Legacy.


(** ** Notions used to state properties of texts *)

Module Notions.
Import PyStr.

(** A number that is a byte. *)
Definition is_byte (n : N) : Prop := (n < 256)%N.

(** The bytes that [strip] leaves have no whitespace at either end. *)
Definition trimmed (l : list N) : Prop :=
  ws_prefix l = None /\ ws_suffix_rev (List.rev l) = None.

(** No run of three newlines from here on, [k] newlines coming just
    before. *)
Fixpoint runs_ok (k : nat) (s : string) : bool :=
  match s with
  | EmptyString => true
  | String a s' =>
      if Ascii.eqb a "010" then (k <? 2)%nat && runs_ok (S k) s'
      else runs_ok O s'
  end.

(** The four fields of the core info. *)
Definition core_fields : list string :=
  ["skills"; "job_title"; "headline"; "summary"].

End Notions.

(** ** The URL of an endpoint: [shared/config.py] *)

Module Config.

(** [s.lstrip('/')] and [s.rstrip('/')], for a single character. *)
Fixpoint lstrip_char (c : ascii) (s : string) : string :=
  match s with
  | String a s' => if Ascii.eqb a c then lstrip_char c s' else s
  | EmptyString => EmptyString
  end.

Fixpoint rstrip_char (c : ascii) (s : string) : string :=
  match s with
  | String a s' =>
      match rstrip_char c s' with
      | EmptyString => if Ascii.eqb a c then EmptyString else String a EmptyString
      | r => String a r
      end
  | EmptyString => EmptyString
  end.

(** [get_api_url]; the module constant [API_BASE_URL] is read from the
    environment of the process and is a parameter here. *)
Definition get_api_url (API_BASE_URL endpoint : string) : string :=
  rstrip_char "/" API_BASE_URL ++ "/" ++ lstrip_char "/" endpoint.

(** [n] slashes. *)
Fixpoint slashes (n : nat) : string :=
  match n with
  | O => EmptyString
  | S n' => String "/" (slashes n')
  end.

End Config.

(** ** The experience section of a resume: [tools/resume_parser.py] *)

Module ResumeParser.
Import PyVal.

(** [s.split(sep)] for a separator of one character: always at least one
    piece. *)
Fixpoint split_on (sep : ascii) (s : string) : list string :=
  match s with
  | EmptyString => [EmptyString]
  | String a s' =>
      if Ascii.eqb a sep then EmptyString :: split_on sep s'
      else match split_on sep s' with
           | piece :: pieces => String a piece :: pieces
           | [] => [String a EmptyString]
           end
  end.

(** [s.lower()] as far as tests for ASCII keywords can tell: the ASCII
    letters, the Kelvin sign U+212A (lower case [k]) and the dotted capital
    I U+0130 (lower case [i] followed by U+0307) are mapped; the lower case
    of every other code point lies outside ASCII, as the code point itself
    does, and its bytes are left as they are. *)
Fixpoint lower (s : string) : string :=
  match s with
  | String "226" (String "132" (String "170" r)) => String "k" (lower r)
  | String "196" (String "176" r) =>
      String "i" (String "204" (String "135" (lower r)))
  | String a r => String (lower_ascii a) (lower r)
  | EmptyString => EmptyString
  end.

(** [any(keyword in line.lower() for keyword in keywords)] *)
Definition mentions (keywords : list string) (line : string) : bool :=
  existsb (fun keyword => PyStr.contains keyword (lower line)) keywords.

Definition opening : list string := ["experience"; "employment"; "work history"].
Definition closing : list string := ["education"; "skills"; "projects"].

(** The loop over the lines, with the two variables it updates. *)
Fixpoint scan (lines : list string) (in_experience_section : bool)
    (experience_section : list string) : list string :=
  match lines with
  | [] => experience_section
  | line :: rest =>
      if mentions opening line then scan rest true experience_section
      else if mentions closing line then scan rest false experience_section
      else if in_experience_section
              && negb (String.eqb (PyStr.strip line) EmptyString)
      then scan rest in_experience_section
             (experience_section ++ [PyStr.strip line])%list
      else scan rest in_experience_section experience_section
  end.

Definition extract_experience (text : string) : list string :=
  scan (split_on "010" text) false [].

End ResumeParser.


(** ** Matching resumes: [tools/pipeline.py] *)

Module Matching.
Import PyVal LLM Pipeline Faiss.

(** [urllib.parse.quote(s)] for a string, with the default [safe='/']:
    letters, digits and [_.-~/] are kept, every other byte of the UTF-8
    encoding becomes a percent sign and two upper-case hexadecimal
    digits. *)
Definition is_unreserved (a : ascii) : bool :=
  let n := N_of_ascii a in
  ((65 <=? n) && (n <=? 90) || (97 <=? n) && (n <=? 122)
   || (48 <=? n) && (n <=? 57)
   || (n =? 95) || (n =? 46) || (n =? 45) || (n =? 126) || (n =? 47))%N.

Definition hex_digit (n : N) : ascii :=
  if (n <? 10)%N then ascii_of_N (48 + n) else ascii_of_N (55 + n).

Fixpoint quote (s : string) : string :=
  match s with
  | EmptyString => EmptyString
  | String a s' =>
      if is_unreserved a then String a (quote s')
      else
        let n := N_of_ascii a in
        String "%" (String (hex_digit (n / 16)) (String (hex_digit (n mod 16))
          (quote s')))
  end.

(** [s.split("_", 1)[-1]]: what follows the first underscore, the whole
    string when there is none. *)
Fixpoint after_underscore (s : string) : option string :=
  match s with
  | EmptyString => None
  | String a s' =>
      if Ascii.eqb a "_" then Some s' else after_underscore s'
  end.

Definition last_of_split (s : string) : string :=
  match after_underscore s with
  | Some rest => rest
  | None => s
  end.

Definition backend_url : string := "http://192.168.1.10:8000".

Definition match_role : string :=
  "You are an expert recruiter and resume matcher. Output only markdown as described.".

Definition match_prompt (top_k : Z) (query_text matched_resume_texts : string)
    : string :=
  "You are an expert recruiter. Given the following user resume and " ++
  str_of_Z top_k ++
  " matched resumes, analyze and score each match (1-10) for similarity and relevance." ++
  PyStr.nl ++ "For each match, provide:" ++ PyStr.nl ++
  "- A clickable markdown link to the matched resume (use the provided URL in the format [Resume Name](" ++
  backend_url ++ "/static/resumes/filename.pdf))" ++ PyStr.nl ++
  "- The similarity score (1-10)" ++ PyStr.nl ++
  "- A brief explanation of why it is a good match" ++ PyStr.nl ++
  "Format your output as a markdown list. Example:" ++ PyStr.nl ++
  "1. [JohnDoe.pdf](" ++ backend_url ++
  "/static/resumes/JohnDoe.pdf) - **Score: 9/10**" ++ PyStr.nl ++
  "   - Reason: Strong match in data science experience." ++ PyStr.nl ++
  "---" ++ PyStr.nl ++ "**User Resume:**" ++ PyStr.nl ++ query_text ++
  PyStr.nl ++ "**Matched Resumes:**" ++ PyStr.nl ++ matched_resume_texts ++
  PyStr.nl ++ "Respond ONLY in markdown as shown in the example.".

Definition no_matches : string :=
  "📝 No similar resumes found in the database.".

Definition links_header : string :=
  "🔗 **Top Resume Matches:**" ++ PyStr.nl ++ PyStr.nl.

Section Matching.

(** The metadata of a stored resume is a value of the data model; the
    embedding model and the index library are parameters as before. *)
Context {vec dist : Type}.
Variable encode : string -> vec.
Variable index_search : list vec -> vec -> Z -> list (dist * Z).
Variable one_minus : dist -> dist.
Variable rt : runtime.
Variable E : env.

Abbreviation result := (@search_result json dist).

(** [v != filename] for a string [filename] *)
Definition differs (v : json) (filename : string) : bool :=
  match v with
  | JStr s => negb (String.eqb s filename)
  | _ => true
  end.

(** [[m for m in matches if m["meta"].get("filename") != filename]] *)
Fixpoint keep_others (filename : string) (matches : list result)
    : res (list result) :=
  match matches with
  | [] => Ok []
  | m :: rest =>
      res_bind (py_get rt (sr_meta m) "filename" JNull) (fun v =>
      res_bind (keep_others filename rest) (fun kept =>
      Ok (if differs v filename then m :: kept else kept)))
  end.

(** The first three statements of [match_similar_resumes]: a handler of
    its own over the files [ifs], [cfs], the search for one result more
    than asked for, the filter and the slice. *)
Definition select_matches (ifs : gmap string (list vec))
    (cfs : gmap string (list (string * json)))
    (query_text filename : string) (top_k : Z) : res (list result) :=
  let handler := new_handler ifs cfs in
  res_bind (search encode index_search one_minus query_text "resume"
              (top_k + 1) None handler) (fun '(matches, _) =>
  res_bind (keep_others filename matches) (fun filtered =>
  Ok (Courses.py_slice_to top_k filtered))).

(** [quote(v)]: anything but a string (or bytes) raises [TypeError]. *)
Definition quote_value (v : json) : res string :=
  match v with
  | JStr s => Ok (quote s)
  | _ => raise_operand rt TypeError v
  end.

(** One item of the comprehension that builds [matched_resume_texts], for
    the position [i] that [enumerate] counts from zero. *)
Definition resume_entry (i : Z) (m : result) : res string :=
  let default := JStr ("resume_" ++ str_of_Z (i + 1) ++ ".pdf") in
  res_bind (py_get rt (sr_meta m) "filename" default) (fun name =>
  res_bind (quote_value name) (fun quoted =>
  Ok ("Resume " ++ str_of_Z (i + 1) ++ ": [" ++ py_str rt name ++ "](" ++
      backend_url ++ "/static/resumes/" ++ quoted ++ ")" ++ PyStr.nl ++
      sr_text m))).

Fixpoint resume_entries (i : Z) (filtered : list result) : res (list string) :=
  match filtered with
  | [] => Ok []
  | m :: rest =>
      res_bind (resume_entry i m) (fun entry =>
      res_bind (resume_entries (i + 1) rest) (fun entries =>
      Ok (entry :: entries)))
  end.

(** The loop of the handler: one numbered link per match, appended to
    [out]; [i] counts from one. *)
Fixpoint link_lines (i : Z) (filtered : list result) (out : string)
    : res string :=
  match filtered with
  | [] => Ok out
  | m :: rest =>
      res_bind (py_get rt (sr_meta m) "filename" (JStr "unknown.pdf"))
        (fun filename =>
      res_bind (quote_value filename) (fun filename_encoded =>
      match filename with
      | JStr name =>
          let clean_name := last_of_split name in
          let link := "[📄 " ++ clean_name ++ "](" ++ backend_url ++
                      "/static/resumes/" ++ filename_encoded ++ ")" in
          link_lines (i + 1) rest (out ++ str_of_Z i ++ ". " ++ link ++ PyStr.nl)
      | v => raise_operand rt AttributeError v
      end))
  end.

Definition basic_links (filtered : list result) : res json :=
  res_bind (link_lines 1 filtered links_header) (fun out =>
  Ok (JStr (PyStr.strip out))).

(** [analyze_resume_matches]: the same list with the file name as it is in
    the URL. *)
Fixpoint analysis_lines (i : Z) (matches : list result) (out : string)
    : res string :=
  match matches with
  | [] => Ok out
  | m :: rest =>
      res_bind (py_get rt (sr_meta m) "filename" (JStr "unknown.pdf"))
        (fun filename =>
      match filename with
      | JStr name =>
          let clean_name := last_of_split name in
          let link := "[📄 " ++ clean_name ++
                      "](http://192.168.1.10:8000/static/resumes/" ++ name ++ ")" in
          analysis_lines (i + 1) rest
            (out ++ str_of_Z i ++ ". " ++ link ++ PyStr.nl)
      | v => raise_operand rt AttributeError v
      end)
  end.

Definition analyze_resume_matches (matches : list result) : res json :=
  match matches with
  | [] => Ok (JStr no_matches)
  | _ :: _ =>
      res_bind (analysis_lines 1 matches links_header) (fun out =>
      Ok (JStr (PyStr.strip out)))
  end.

(** Whether the response is accepted: a non-empty string that, stripped,
    does not begin with the failure marker.  A falsy or marked response
    makes the code raise, a truthy value without [strip] raises by itself;
    the handler catches all of these. *)
Definition accepted (response : json) : bool :=
  match response with
  | JStr s => truthy response && negb (PyStr.startswith "❌" (PyStr.strip s))
  | _ => false
  end.

Definition match_similar_resumes (ifs : gmap string (list vec))
    (cfs : gmap string (list (string * json)))
    (query_text filename : string) (top_k : Z) (w : world)
    : res json * world :=
  match select_matches ifs cfs query_text filename top_k with
  | Raise e => (Raise e, w)
  | Ok [] => (analyze_resume_matches [], w)
  | Ok filtered =>
      match resume_entries 0 filtered with
      | Raise e => (Raise e, w)
      | Ok entries =>
          let matched_resume_texts := PyStr.join PyStr.nl entries in
          let prompt := match_prompt top_k query_text matched_resume_texts in
          let '(response, w) :=
            call_llm_api rt E match_role prompt "openrouter" 3000 3 w in
          if accepted response then (clean_llm_output rt response, w)
          else (basic_links filtered, w)
      end
  end.

End Matching.
End Matching.

(** ** Filling the course store: [tools/course_fetcher.py] and
    [tools/add_sample_courses.py] *)

Module Coursera.
Import PyVal Faiss.

Section Coursera.

Context {vec : Type}.
Variable encode : string -> vec.
Variable rt : runtime.

(** What goes wrong in call [i] of [add_coursera_course_to_faiss] before
    anything is written: the import, the construction of the handler with
    its embedding model, the loading of the files or the embedding raises
    the exception [store_fault i]; [None] when nothing does.  A failure
    while the files are written is not modelled. *)
Variable store_fault : nat -> option exn.

(** The files of the store, index files and corpus files. *)
Definition disk : Type :=
  gmap string (list vec) * gmap string (list (string * json)).

Definition course_text (title institution description : string) : string :=
  PyStr.strip (title ++ " " ++ institution ++ " " ++ description).

Definition course_meta (title url institution rating : string) : json :=
  JObj [("title", JStr title); ("url", JStr url);
        ("institution", JStr institution); ("rating", JStr rating);
        ("type", JStr "coursera")].

(** [add_coursera_course_to_faiss], [call] being the number of calls made
    before: a handler of its own over the files, [add], and the files as
    the call leaves them.  An exception is reported in the result. *)
Definition add_coursera_course_to_faiss
    (title url institution rating description : string) (call : nat)
    (d : disk) : string * disk :=
  match store_fault call with
  | Some e => ("❌ Failed to add course: " ++ exn_msg e, d)
  | None =>
      let handler := new_handler (fst d) (snd d) in
      let course_text := course_text title institution description in
      let meta := course_meta title url institution rating in
      match add encode course_text meta "coursera" handler with
      | Ok (result, handler) =>
          (result, (index_files handler, corpus_files handler))
      | Raise e => ("❌ Failed to add course: " ++ exn_msg e, d)
      end
  end.

(** [v.strip()], defined on strings only *)
Definition py_strip (v : json) : res string :=
  match v with
  | JStr s => Ok (PyStr.strip s)
  | _ => raise_operand rt AttributeError v
  end.

(** The fields that the loop of [add_all_coursera_courses_from_json] reads
    from one entry: [None] for an entry that is skipped. *)
Record course_fields := CourseFields {
  cf_title : string;
  cf_url : string;
  cf_institution : string;
  cf_rating : string;
  cf_description : string
}.

Definition read_course (course : json) : res (option course_fields) :=
  if negb (is_dict course) then Ok None
  else
    res_bind (py_get rt course "title" (JStr EmptyString)) (fun v =>
    res_bind (py_strip v) (fun title =>
    res_bind (py_get rt course "url" (JStr EmptyString)) (fun v =>
    res_bind (py_strip v) (fun url =>
    res_bind (py_get rt course "instructor" (JStr EmptyString)) (fun v =>
    res_bind (py_strip v) (fun instructor =>
    res_bind (if negb (String.eqb instructor EmptyString) then Ok instructor
              else res_bind (py_get rt course "platform" (JStr EmptyString))
                     py_strip) (fun institution =>
    res_bind (py_get rt course "rating" (JStr EmptyString)) (fun v =>
    let rating := py_str rt v in
    res_bind (py_get rt course "description" (JStr EmptyString)) (fun v =>
    res_bind (py_strip v) (fun description =>
    if String.eqb title EmptyString || String.eqb url EmptyString then Ok None
    else Ok (Some (CourseFields title url institution rating description))
    )))))))))).

(** The loop: the counter [added], which is also the number of calls of
    [add_coursera_course_to_faiss] made so far, and the files; an exception
    ends the run with the files as they are at that point. *)
Fixpoint add_courses (courses : list json) (added : nat) (d : disk)
    : res nat * disk :=
  match courses with
  | [] => (Ok added, d)
  | course :: rest =>
      match read_course course with
      | Raise e => (Raise e, d)
      | Ok None => add_courses rest added d
      | Ok (Some f) =>
          let '(_, d) :=
            add_coursera_course_to_faiss (cf_title f) (cf_url f)
              (cf_institution f) (cf_rating f) (cf_description f) added d in
          add_courses rest (S added) d
      end
  end.

(** What a [for] loop iterates over: the items of a list, the keys of a
    dict, the code points of a string. *)
Definition py_iter (v : json) : res (list json) :=
  match v with
  | JArr l => Ok l
  | JObj d => Ok (List.map (fun kv => JStr (fst kv)) d)
  | JStr s => Ok (List.map JStr (codepoints s))
  | _ => raise_operand rt TypeError v
  end.

(** [add_all_coursera_courses_from_json], from the decoded content of the
    file on. *)
Definition add_all_coursera_courses_from_json (courses : json) (d : disk)
    : res nat * disk :=
  match py_iter courses with
  | Ok items => add_courses items O d
  | Raise e => (Raise e, d)
  end.

(** The entries that the loop hands to [add_coursera_course_to_faiss]. *)
Definition accepted_courses (items : list json) : list course_fields :=
  omap (fun course => match read_course course with
                      | Ok (Some f) => Some f
                      | _ => None
                      end) items.

(** Of the accepted entries [fs], handed over in the calls [i], [i + 1],
    ..., those whose call does not fail. *)
Fixpoint stored_from (i : nat) (fs : list course_fields) : list course_fields :=
  match fs with
  | [] => []
  | f :: fs' =>
      match store_fault i with
      | None => f :: stored_from (S i) fs'
      | Some _ => stored_from (S i) fs'
      end
  end.

(** The calls among [i], ..., [i + n - 1] that fail. *)
Fixpoint failed_from (i n : nat) : nat :=
  match n with
  | O => O
  | S n' =>
      match store_fault i with
      | None => failed_from (S i) n'
      | Some _ => S (failed_from (S i) n')
      end
  end.

(** The corpus entry of a course. *)
Definition course_entry (f : course_fields) : string * json :=
  (course_text (cf_title f) (cf_institution f) (cf_description f),
   course_meta (cf_title f) (cf_url f) (cf_institution f) (cf_rating f)).

(** The index and the corpus that the files hold for the courses. *)
Definition courses_on (d : disk) : list vec * list (string * json) :=
  (file_or_empty (fst d) "coursera", file_or_empty (snd d) "coursera").

(** The files [d'] are the files [d] with the entries of [fs] appended to
    the index and the corpus of the courses, and nothing else changed. *)
Definition appended (d : disk) (fs : list course_fields) (d' : disk) : Prop :=
  courses_on d'
    = ((fst (courses_on d)
         ++ List.map (fun f => encode (fst (course_entry f))) fs)%list,
       (snd (courses_on d) ++ List.map course_entry fs)%list) /\
  forall data_type, data_type <> "coursera" ->
    fst d' !! data_type = fst d !! data_type /\
    snd d' !! data_type = snd d !! data_type.

End Coursera.
End Coursera.


(** ** Concrete data for running the models *)

Module Demo.
Import PyVal LLM.

(** A vector store with two stored courses, over one-dimensional integer
    embeddings. *)
Definition demo_encode (text : string) : Z := Z.of_nat (String.length text).

Definition demo_store : @Faiss.store Z string :=
  Faiss.new_handler {["course" := [3; 5]]}
    {["course" := [("abc", "intro"); ("hello", "advanced")]]}.

(** Interpreter renderings that only mark where they were used, the
    limits of an interpreter with its default settings, and a stable sort
    for the long lists. *)
Definition demo_runtime : runtime :=
  Runtime (fun _ => "<repr>") (fun _ => "<decode error>") (fun _ _ => "<operand>")
    989 4300 (fun _ => "<limit>") (fun lt l => PySort.stable_asc lt l).

(** An interpreter that lets the decoder enter two containers. *)
Definition tight_runtime : runtime :=
  Runtime (fun _ => "<repr>") (fun _ => "<decode error>") (fun _ _ => "<operand>")
    1 4300 (fun _ => "<limit>") (fun lt l => PySort.stable_asc lt l).

(** An outside whose server gives the same answer to every request, whose
    jitter is always one half, and whose local model always answers. *)
Definition env_answering (answer : res response) : env :=
  Env (fun _ _ _ _ => answer) (fun _ => 1 # 2)%Q
      (fun _ _ _ _ => Ok (JStr "Enhanced resume of John Doe")).

Definition fresh_world : world := World ∅ [].


(** A completion whose content is the given text. *)
Definition completion (content : json) : response :=
  Response 200
    (PyStr.dq "{'choices': [{'message': {'content': "
       ++ match content with
          | JStr s =>
              PyStr.dq "'" ++ PyStr.replace (PyStr.dq "'") (PyStr.dq "\'") s
                ++ PyStr.dq "'"
          | _ => "null"
          end
       ++ "}}]}").




Definition demo_skills : json := JArr [JStr "python"; JStr "statistics"].

(** Legacy files with one resume, and a handler over an empty directory. *)
Definition demo_legacy : Legacy.legacy_files (vec:=Z) :=
  Legacy.LegacyFiles (Some [3]) (Some [("old", "1_old.pdf")]).

Definition demo_resumes : @Faiss.store Z json := Faiss.new_handler ∅ ∅.

(** A resume store with the uploaded resume and another one. *)
Definition two_resumes : gmap string (list (string * json)) :=
  {["resume" := [("python sql", JObj [("filename", JStr "7f_Jane Doe.pdf")]);
                 ("python", JObj [("filename", JStr "9a_me.pdf")])]]}.

Definition two_vectors : gmap string (list Z) := {["resume" := [10; 6]]}.

(** The content of a course file: two courses, a stray string and an
    entry without a title; and an entry whose title is [null]. *)
Definition course_file : list json :=
  [JObj [("title", JStr " Machine Learning "); ("url", JStr "https://c.org/ml");
         ("instructor", JStr ""); ("platform", JStr "Coursera");
         ("rating", JStr "4.9"); ("description", JStr "Supervised learning")];
   JStr "note";
   JObj [("title", JStr "  "); ("url", JStr "https://c.org/none")];
   JObj [("title", JStr "SQL"); ("url", JStr "https://c.org/sql");
         ("instructor", JStr "UC Davis")]].

Definition course_untitled : json :=
  JObj [("title", JNull); ("url", JStr "https://c.org/x")].

(** A store whose second call fails, and one that never fails. *)
Definition second_call_fails (i : nat) : option exn :=
  if (i =? 1)%nat then Some (Exn RequestException "model unavailable") else None.

Definition no_fault (i : nat) : option exn := None.

Definition no_files : gmap string (list Z) * gmap string (list (string * json)) :=
  (∅, ∅).

End Demo.

(** * Properties of the vector store *)

Module FaissFacts.
Import Faiss Demo.
Section Facts.

Context {vec meta dist : Type}.
Variable encode : string -> vec.
Variable index_search : list vec -> vec -> Z -> list (dist * Z).
Variable one_minus : dist -> dist.

Abbreviation store := (@store vec meta).
Abbreviation consistent := (consistent encode).
Abbreviation aligned := (aligned (meta:=meta) encode).

Lemma aligned_length index (corpus : list (entry (meta:=meta))) :
  aligned index corpus -> List.length index = List.length corpus.
Proof. intros ->. by rewrite List.length_map. Qed.

Lemma aligned_nil : aligned [] [].
Proof. reflexivity. Qed.

Lemma aligned_snoc index corpus text (m : meta) :
  aligned index corpus ->
  aligned (index ++ [encode text])%list (corpus ++ [(text, m)])%list.
Proof. intros ->. unfold Faiss.aligned. by rewrite List.map_app. Qed.

Lemma aligned_lookup index corpus i text (m : meta) :
  aligned index corpus -> corpus !! i = Some (text, m) ->
  index !! i = Some (encode text).
Proof.
  intros -> H. change (List.map ?f ?l) with (f <$> l).
  rewrite list_lookup_fmap. unfold entry in *. by rewrite H.
Qed.

Lemma ensure_loaded_loaded t (s : store) :
  t ∈ loaded_types (_ensure_loaded t s).
Proof.
  unfold _ensure_loaded. case_decide; [done | simpl; set_solver].
Qed.

Lemma ensure_loaded_consistent t (s : store) :
  consistent s -> consistent (_ensure_loaded t s).
Proof.
  intros [Hf Hm]. unfold _ensure_loaded. case_decide; [by split |].
  split; [exact Hf |]. intros u Hu. simpl in *.
  destruct (decide (u = t)) as [-> | Hne].
  - do 2 eexists. rewrite !lookup_insert_eq. split; [done | split; [done |]].
    apply (Hf t).
  - assert (u ∈ loaded_types s) as Hin.
    { apply elem_of_union in Hu as [Hu | Hu]; [| done].
      apply elem_of_singleton in Hu. done. }
    destruct (Hm u Hin) as (i & c & Hi & Hc & Ha).
    exists i, c. by rewrite !lookup_insert_ne.
Qed.

Lemma ensure_loaded_files t (s : store) :
  index_files (_ensure_loaded t s) = index_files s /\
  corpus_files (_ensure_loaded t s) = corpus_files s.
Proof. unfold _ensure_loaded. by case_decide. Qed.

Lemma ensure_loaded_idem t (s : store) :
  t ∈ loaded_types s -> _ensure_loaded t s = s.
Proof. intros H. unfold _ensure_loaded. by rewrite decide_True. Qed.

(** On a consistent state in which [t] is loaded, [save t] succeeds,
    changes nothing in memory and writes the in-memory pair to disk. *)
Lemma save_loaded t (s : store) index corpus :
  consistent s -> t ∈ loaded_types s ->
  indices s !! t = Some index -> corpora s !! t = Some corpus ->
  aligned index corpus ->
  exists s', save t s = Ok s' /\ consistent s' /\
    indices s' = indices s /\ corpora s' = corpora s /\
    loaded_types s' = loaded_types s /\
    index_files s' = <[t := index]> (index_files s) /\
    corpus_files s' = <[t := corpus]> (corpus_files s).
Proof.
  intros [Hf Hm] Hl Hi Hc Ha. unfold save.
  rewrite (ensure_loaded_idem _ _ Hl). unfold lookup_key. rewrite Hi. simpl.
  rewrite Hc. simpl. eexists. split; [reflexivity |].
  split; [| by repeat split]. split; simpl; [| exact Hm].
  intros u. unfold file_or_empty.
  destruct (decide (u = t)) as [-> | Hne].
  - by rewrite !lookup_insert_eq.
  - rewrite !lookup_insert_ne by done. apply (Hf u).
Qed.

Lemma consistent_loaded t (s : store) :
  consistent s -> t ∈ loaded_types s ->
  exists index corpus, indices s !! t = Some index /\
    corpora s !! t = Some corpus /\ aligned index corpus.
Proof. intros [_ Hm]. apply Hm. Qed.

Lemma save_ensure_loaded t (s : store) :
  save t s = save t (_ensure_loaded t s).
Proof.
  unfold save.
  by rewrite (ensure_loaded_idem t (_ensure_loaded t s) (ensure_loaded_loaded t s)).
Qed.

Lemma save_consistent t (s : store) :
  consistent s ->
  exists s' index corpus,
    save t s = Ok s' /\ consistent s' /\
    in_memory t (_ensure_loaded t s) = Some (index, corpus) /\
    in_memory t s' = Some (index, corpus) /\
    on_disk t s' = Some (index, corpus) /\
    aligned index corpus.
Proof.
  intros Hc. rewrite save_ensure_loaded.
  pose proof (ensure_loaded_consistent t s Hc) as Hc1.
  pose proof (ensure_loaded_loaded t s) as Hl.
  destruct (consistent_loaded t _ Hc1 Hl) as (i & c & Hi & Hco & Ha).
  destruct (save_loaded t _ i c Hc1 Hl Hi Hco Ha)
    as (s' & Hs & Hc' & Ei & Ec & _ & Efi & Efc).
  exists s', i, c. split; [done |]. split; [done |].
  unfold in_memory, on_disk. rewrite Ei, Ec, Efi, Efc, Hi, Hco.
  by rewrite !lookup_insert_eq.
Qed.

(** The state in the middle of [add], after both appends. *)
Lemma appended_consistent t (s : store) index corpus text (m : meta) :
  consistent s -> indices s !! t = Some index -> corpora s !! t = Some corpus ->
  aligned index corpus ->
  consistent
    (Store (<[t := (index ++ [encode text])%list]> (indices s))
           (<[t := (corpus ++ [(text, m)])%list]> (corpora s))
           (loaded_types s) (index_files s) (corpus_files s)).
Proof.
  intros [Hf Hm] Hi Hc Ha. split; [exact Hf |]. intros u Hu. simpl in *.
  destruct (decide (u = t)) as [-> | Hne].
  - do 2 eexists. rewrite !lookup_insert_eq.
    split; [done | split; [done |]]. by apply aligned_snoc.
  - destruct (Hm u Hu) as (i & c & ? & ? & ?). exists i, c.
    by rewrite !lookup_insert_ne.
Qed.

Lemma add_blank text (m : meta) t (s : store) :
  is_blank text = true ->
  add encode text m t s = Ok ("⚠️ Empty text, cannot embed.", _ensure_loaded t s).
Proof. intros H. unfold add. by rewrite H. Qed.

Lemma add_stored text (m : meta) t (s : store) :
  consistent s -> is_blank text = false ->
  exists s' index0 corpus0,
    in_memory t (_ensure_loaded t s) = Some (index0, corpus0) /\
    add encode text m t s = Ok ("✅ Stored in FAISS.", s') /\
    consistent s' /\
    in_memory t s' =
      Some ((index0 ++ [encode text])%list, (corpus0 ++ [(text, m)])%list) /\
    on_disk t s' =
      Some ((index0 ++ [encode text])%list, (corpus0 ++ [(text, m)])%list).
Proof.
  intros Hc Hb.
  pose proof (ensure_loaded_consistent t s Hc) as Hc1.
  pose proof (ensure_loaded_loaded t s) as Hl.
  destruct (consistent_loaded t _ Hc1 Hl) as (i & c & Hi & Hco & Ha).
  pose proof (appended_consistent t _ i c text m Hc1 Hi Hco Ha) as Hc2.
  set (s2 := Store _ _ _ _ _) in Hc2.
  assert (t ∈ loaded_types s2) as Hl2 by exact Hl.
  assert (indices s2 !! t = Some (i ++ [encode text])%list) as Hi2
    by apply lookup_insert_eq.
  assert (corpora s2 !! t = Some (c ++ [(text, m)])%list) as Hco2
    by apply lookup_insert_eq.
  destruct (save_loaded t s2 _ _ Hc2 Hl2 Hi2 Hco2 (aligned_snoc _ _ text m Ha))
    as (s' & Hs & Hc' & Ei & Ec & _ & Efi & Efc).
  exists s', i, c. split.
  { unfold in_memory. by rewrite Hi, Hco. }
  split.
  { unfold add. rewrite Hb. unfold lookup_key at 1. rewrite Hi. simpl.
    unfold lookup_key at 1. simpl. rewrite Hco. simpl.
    fold s2. by rewrite Hs. }
  split; [done |].
  unfold in_memory, on_disk. rewrite Ei, Ec, Efi, Efc, Hi2, Hco2.
  by rewrite !lookup_insert_eq.
Qed.

Lemma add_consistent text (m : meta) t (s : store) r s' :
  consistent s -> add encode text m t s = Ok (r, s') -> consistent s'.
Proof.
  intros Hc H. destruct (is_blank text) eqn:Hb.
  - rewrite add_blank in H by done. inversion H; subst.
    by apply ensure_loaded_consistent.
  - destruct (add_stored text m t s Hc Hb) as (s1 & ? & ? & _ & E & Hc1 & _).
    rewrite E in H. by inversion H; subst.
Qed.

Lemma clear_consistent t (s : store) :
  consistent s ->
  exists s' index corpus,
    clear t s = Ok s' /\ consistent s' /\
    in_memory t s' = Some (index, corpus) /\
    on_disk t s' = Some (index, corpus) /\
    aligned index corpus.
Proof.
  intros [Hf Hm]. unfold clear. simpl.
  set (s2 := Store _ _ _ _ _).
  assert (consistent s2) as Hc2.
  { split; [exact Hf |]. intros u Hu. subst s2. simpl in *.
    destruct (decide (u = t)) as [-> | Hne].
    - exists [], []. by rewrite !lookup_insert_eq.
    - destruct (Hm u Hu) as (i & c & ? & ? & ?). exists i, c.
      by rewrite !lookup_insert_ne. }
  destruct (save_consistent t s2 Hc2) as (s' & i & c & Hs & Hc' & _ & Hm' & Hd & Ha).
  by exists s', i, c.
Qed.

Lemma search_state q t k f (s : store) r s' :
  search encode index_search one_minus q t k f s = Ok (r, s') ->
  s' = _ensure_loaded t s.
Proof.
  unfold search. destruct (lookup_key _ _) as [c |]; simpl; [| done].
  destruct c; [by inversion 1 |].
  destruct (lookup_key _ _); simpl; [| done].
  destruct (search_loop _ _ _ _ _); simpl; [| done]. by inversion 1.
Qed.

Lemma get_corpus_state t (s : store) c s' :
  get_corpus t s = Ok (c, s') -> s' = _ensure_loaded t s.
Proof.
  unfold get_corpus. destruct (lookup_key _ _); simpl; [| done]. by inversion 1.
Qed.

Lemma reachable_consistent ifs cfs (s : store) :
  files_aligned encode ifs cfs -> reachable encode index_search one_minus ifs cfs s ->
  consistent s.
Proof.
  intros Hf. induction 1 as
    [ | s t _ IH | s t s' _ IH Hs | s text m t r s' _ IH Ha
    | s q t k f r s' _ IH Hs | s t c s' _ IH Hg | s t s' _ IH Hcl ].
  - split; [exact Hf |]. intros u Hu. simpl in Hu. by apply not_elem_of_empty in Hu.
  - by apply ensure_loaded_consistent.
  - destruct (save_consistent t s IH) as (s1 & ? & ? & E & ? & _).
    rewrite E in Hs. by inversion Hs; subst.
  - by eapply add_consistent.
  - apply search_state in Hs as ->. by apply ensure_loaded_consistent.
  - apply get_corpus_state in Hg as ->. by apply ensure_loaded_consistent.
  - destruct (clear_consistent t s IH) as (s1 & ? & ? & E & ? & _).
    rewrite E in Hcl. by inversion Hcl; subst.
Qed.

(** C1.  In every state that a handler reaches from aligned persisted
    files, and for every data type [t]: a call of [add] returns normally;
    a rejected (blank) text leaves the index and the corpus of [t] as they
    were, a stored text appends its embedding to the index and its
    [(text, meta)] pair to the corpus, in memory and on disk; a call of
    [clear] returns normally.  After either call the index and the corpus
    of [t] have the same length and vector [i] is the embedding of entry
    [i], and the same holds for every other loaded data type and every
    pair of files. *)
Theorem index_corpus_invariant ifs cfs (s : store) t :
  files_aligned encode ifs cfs ->
  reachable encode index_search one_minus ifs cfs s ->
  (forall text m, exists r s' index0 corpus0 index corpus,
      in_memory t (_ensure_loaded t s) = Some (index0, corpus0) /\
      add encode text m t s = Ok (r, s') /\
      in_memory t s' = Some (index, corpus) /\
      List.length index = List.length corpus /\
      aligned index corpus /\
      consistent s' /\
      (if is_blank text
       then index = index0 /\ corpus = corpus0
       else index = (index0 ++ [encode text])%list /\
            corpus = (corpus0 ++ [(text, m)])%list /\
            on_disk t s' = Some (index, corpus))) /\
  (exists s' index corpus,
      clear t s = Ok s' /\
      in_memory t s' = Some (index, corpus) /\
      on_disk t s' = Some (index, corpus) /\
      List.length index = List.length corpus /\
      aligned index corpus /\
      consistent s').
Proof.
  intros Hf Hr. pose proof (reachable_consistent _ _ _ Hf Hr) as Hc. split.
  - intros text m. destruct (is_blank text) eqn:Hb.
    + pose proof (ensure_loaded_consistent t s Hc) as Hc1.
      destruct (consistent_loaded t _ Hc1 (ensure_loaded_loaded t s))
        as (i & c & Hi & Hco & Ha).
      exists "⚠️ Empty text, cannot embed.", (_ensure_loaded t s), i, c, i, c.
      assert (in_memory t (_ensure_loaded t s) = Some (i, c)) as Hm.
      { unfold in_memory. by rewrite Hi, Hco. }
      split; [done |]. split; [by apply add_blank |]. split; [done |].
      split; [by apply aligned_length |]. simpl.
      split; [done |]. split; [done |]. by repeat split.
    + destruct (add_stored text m t s Hc Hb) as (s' & i & c & Hm & Ha & Hc' & Hm' & Hd).
      exists "✅ Stored in FAISS.", s', i, c,
        (i ++ [encode text])%list, (c ++ [(text, m)])%list.
      assert (aligned (i ++ [encode text])%list (c ++ [(text, m)])%list) as Hal.
      { pose proof (ensure_loaded_consistent t s Hc) as Hc1.
        destruct (consistent_loaded t _ Hc1 (ensure_loaded_loaded t s))
          as (i1 & c1 & Hi & Hco & Hal).
        unfold in_memory in Hm. rewrite Hi, Hco in Hm. inversion Hm; subst.
        by apply aligned_snoc. }
      split; [done |]. split; [done |]. split; [done |].
      split; [by apply aligned_length |]. simpl.
      split; [done |]. split; [done |]. by repeat split.
  - destruct (clear_consistent t s Hc) as (s' & i & c & E & Hc' & Hm & Hd & Ha).
    exists s', i, c. split; [done |]. split; [done |]. split; [done |].
    split; [by apply aligned_length |]. split; done.
Qed.

Lemma save_loaded_eq t (s : store) index corpus :
  t ∈ loaded_types s ->
  indices s !! t = Some index -> corpora s !! t = Some corpus ->
  save t s = Ok (Store (indices s) (corpora s) (loaded_types s)
                       (<[t := index]> (index_files s))
                       (<[t := corpus]> (corpus_files s))).
Proof.
  intros Hl Hi Hc. unfold save. rewrite (ensure_loaded_idem _ _ Hl).
  unfold lookup_key. rewrite Hi. simpl. by rewrite Hc.
Qed.

Lemma get_corpus_loaded t (s : store) corpus :
  t ∈ loaded_types s -> corpora s !! t = Some corpus ->
  get_corpus t s = Ok (corpus, s).
Proof.
  intros Hl Hc. unfold get_corpus. rewrite (ensure_loaded_idem _ _ Hl).
  unfold lookup_key. by rewrite Hc.
Qed.

(** C4.  A handler constructed over persisted files of data type [t] has
    not loaded [t]; [clear t] then resets the in-memory pair, but the
    [_ensure_loaded] inside [save] finds [t] not loaded and reads the files
    back over it.  The first [get_corpus] still returns the persisted
    corpus and the files are unchanged; only the second [clear] empties
    the corpus. *)
Theorem clear_on_fresh_handler_reloads (ifs : gmap string (list vec))
    (cfs : gmap string (list (@entry meta))) t index corpus :
  let h := new_handler (<[t := index]> ifs) (<[t := corpus]> cfs) in
  exists s1 s2,
    clear t h = Ok s1 /\
    get_corpus t s1 = Ok (corpus, s1) /\
    on_disk t s1 = Some (index, corpus) /\
    clear t s1 = Ok s2 /\
    get_corpus t s2 = Ok ([], s2) /\
    on_disk t s2 = Some ([], []).
Proof.
  intros h. subst h.
  assert (forall (X : gset string), t ∈ {[t]} ∪ X) as Hin.
  { intros X. apply elem_of_union_l. by apply elem_of_singleton. }
  eexists. eexists. split.
  { unfold clear, new_handler. simpl. rewrite save_ensure_loaded.
    unfold _ensure_loaded. simpl.
    rewrite decide_False by apply not_elem_of_empty.
    rewrite !lookup_insert_eq.
    apply save_loaded_eq; simpl; [apply Hin | apply lookup_insert_eq ..]. }
  simpl. split.
  { apply get_corpus_loaded; simpl; [apply Hin | apply lookup_insert_eq]. }
  split.
  { unfold on_disk. simpl. by rewrite !lookup_insert_eq. }
  split.
  { unfold clear. simpl.
    apply save_loaded_eq; simpl; [apply Hin | apply lookup_insert_eq ..]. }
  simpl. split.
  { apply get_corpus_loaded; simpl; [apply Hin | apply lookup_insert_eq]. }
  unfold on_disk. simpl. by rewrite !lookup_insert_eq.
Qed.

(** *** The guard of [search] *)

Abbreviation search_loop := (search_loop (meta:=meta) one_minus).
Abbreviation included := (included (meta:=meta) one_minus).

Lemma py_getitem_nonneg {A} (l : list A) i :
  0 <= i -> i < Z.of_nat (List.length l) ->
  exists a, l !! Z.to_nat i = Some a /\ py_getitem l i = Ok a.
Proof.
  intros H0 Hlt. unfold py_getitem.
  destruct (i <? 0) eqn:E; [lia |].
  destruct (i <? 0) eqn:E1; [lia |]. simpl.
  destruct (Z.of_nat (List.length l) <=? i) eqn:E2; [lia |].
  destruct (l !! Z.to_nat i) as [a |] eqn:El; [by exists a |].
  apply lookup_ge_None in El. lia.
Qed.

Lemma py_getitem_minus_one {A} (l : list A) a :
  last l = Some a -> py_getitem l (-1) = Ok a.
Proof.
  intros Hl. rewrite last_lookup in Hl.
  assert (0 < List.length l)%nat as Hpos.
  { destruct l; [done | simpl; lia]. }
  unfold py_getitem. simpl.
  destruct (Z.of_nat (List.length l) + -1 <? 0) eqn:E1; [lia |].
  destruct (Z.of_nat (List.length l) <=? Z.of_nat (List.length l) + -1) eqn:E2; [lia |].
  simpl. replace (Z.to_nat (Z.of_nat (List.length l) + -1)) with (pred (List.length l)) by lia.
  by rewrite Hl.
Qed.

Lemma py_getitem_in_range {A} (l : list A) i :
  - Z.of_nat (List.length l) <= i -> i < Z.of_nat (List.length l) ->
  exists a, py_getitem l i = Ok a.
Proof.
  intros Hlo Hhi. unfold py_getitem.
  set (j := if i <? 0 then _ else _).
  assert (0 <= j /\ j < Z.of_nat (List.length l)) as [Hj0 Hj1].
  { subst j. destruct (i <? 0) eqn:E; lia. }
  destruct (j <? 0) eqn:E1; [lia |].
  destruct (Z.of_nat (List.length l) <=? j) eqn:E2; [lia |]. simpl.
  destruct (l !! Z.to_nat j) as [a |] eqn:El; [by exists a |].
  apply lookup_ge_None in El. lia.
Qed.

(** Labels that are not negative never raise: a label inside the corpus
    contributes its entry, a label at or beyond the end is skipped. *)
Lemma search_loop_nonneg corpus f DI acc :
  Forall (fun di : dist * Z => 0 <= snd di) DI ->
  search_loop corpus f DI acc = Ok (acc ++ omap (included corpus f) DI)%list.
Proof.
  intros H. revert acc. induction H as [| [d i] DI Hi _ IH]; intros acc.
  - simpl. by rewrite List.app_nil_r.
  - cbn [Faiss.search_loop omap list_omap]. simpl in Hi.
    destruct (i <? Z.of_nat (List.length corpus)) eqn:E.
    + destruct (py_getitem_nonneg corpus i Hi ltac:(lia)) as (a & Ha & Hg).
      rewrite Hg. unfold Faiss.included at 1. cbn [fst snd res_bind].
      unfold entry in *. rewrite Ha. destruct (passes f (snd a)).
      * rewrite IH. by rewrite <- List.app_assoc.
      * apply IH.
    + unfold Faiss.included at 1. cbn [fst snd].
      assert (corpus !! Z.to_nat i = None) as Hn.
      { apply lookup_ge_None. lia. }
      unfold entry in *. rewrite Hn. apply IH.
Qed.

(** Whatever the labels are, a result that the loop adds comes from a
    label below the length of the corpus. *)
Lemma search_loop_sound corpus f DI acc results :
  search_loop corpus f DI acc = Ok results ->
  forall r, r ∈ results ->
    r ∈ acc \/
    exists d i, (d, i) ∈ DI /\ i < Z.of_nat (List.length corpus) /\
      py_getitem corpus i = Ok (sr_text r, sr_meta r) /\
      passes f (sr_meta r) = true /\ sr_similarity r = one_minus d.
Proof.
  revert acc. induction DI as [| [d i] DI IH]; intros acc H r Hr.
  - simpl in H. inversion H; subst. by left.
  - simpl in H. destruct (i <? Z.of_nat (List.length corpus)) eqn:E.
    + destruct (py_getitem corpus i) as [[tx m] |] eqn:Hg; simpl in H; [| done].
      destruct (passes f m) eqn:Hp.
      * destruct (IH _ H r Hr) as [Hin | (d' & i' & Hin & ?)].
        -- apply elem_of_app in Hin as [Hin | Hin]; [by left |].
           apply list_elem_of_singleton in Hin. subst r. right.
           exists d, i. simpl. repeat split; try done; [left | lia].
        -- right. exists d', i'. split; [by right | done].
      * destruct (IH _ H r Hr) as [Hin | (d' & i' & Hin & ?)]; [by left |].
        right. exists d', i'. split; [by right | done].
    + destruct (IH _ H r Hr) as [Hin | (d' & i' & Hin & ?)]; [by left |].
      right. exists d', i'. split; [by right | done].
Qed.

(** The padding label [-1] passes the guard and selects the last entry. *)
Lemma search_loop_padding corpus f DI acc :
  Forall (fun di : dist * Z => - Z.of_nat (List.length corpus) <= snd di) DI ->
  exists results,
    search_loop corpus f DI acc = Ok results /\
    (forall r, r ∈ acc -> r ∈ results) /\
    forall d tx m, (d, -1) ∈ DI -> last corpus = Some (tx, m) ->
      passes f m = true -> SearchResult tx m (one_minus d) ∈ results.
Proof.
  intros H. revert acc. induction H as [| [d i] DI Hi _ IH]; intros acc.
  - exists acc. split; [done |]. split; [done |]. intros ? ? ? Hin.
    by apply elem_of_nil in Hin.
  - simpl in *. destruct (i <? Z.of_nat (List.length corpus)) eqn:E.
    + destruct (py_getitem_in_range corpus i Hi ltac:(lia)) as ([tx m] & Hg).
      rewrite Hg. simpl. destruct (passes f m) eqn:Hp.
      * destruct (IH (acc ++ [SearchResult tx m (one_minus d)])%list)
          as (res & Hres & Hacc & Hpad).
        exists res. split; [done |]. split.
        { intros r Hr. apply Hacc, elem_of_app. by left. }
        intros d' tx' m' Hin Hl Hp'.
        apply elem_of_cons in Hin as [Heq | Hin]; [| by eapply Hpad].
        inversion Heq; subst. rewrite (py_getitem_minus_one _ _ Hl) in Hg.
        inversion Hg; subst. apply Hacc, elem_of_app. right. by left.
      * destruct (IH acc) as (res & Hres & Hacc & Hpad).
        exists res. split; [done |]. split; [done |].
        intros d' tx' m' Hin Hl Hp'.
        apply elem_of_cons in Hin as [Heq | Hin]; [| by eapply Hpad].
        inversion Heq; subst. rewrite (py_getitem_minus_one _ _ Hl) in Hg.
        inversion Hg; subst. congruence.
    + destruct (IH acc) as (res & Hres & Hacc & Hpad).
      exists res. split; [done |]. split; [done |].
      intros d' tx' m' Hin Hl Hp'.
      apply elem_of_cons in Hin as [Heq | Hin]; [| by eapply Hpad].
      inversion Heq; subst. apply Z.ltb_ge in E. lia.
Qed.

(** C9.  In [search] over a non-empty corpus: every result comes from a
    neighbour label below [len(corpus)]; labels that are not negative never
    raise, those inside the corpus contribute their entry and those at or
    beyond its end are skipped; the padding label [-1] passes the guard as
    well and contributes the last entry of the corpus with the similarity
    computed from the padding distance. *)
Theorem search_index_guard (s : store) q t k f index e corpus' :
  in_memory t (_ensure_loaded t s) = Some (index, e :: corpus') ->
  let corpus := e :: corpus' in
  let DI := index_search index (encode q) k in
  let out := search encode index_search one_minus q t k f s in
  (forall results s', out = Ok (results, s') ->
     forall r, r ∈ results ->
       exists d i, (d, i) ∈ DI /\ i < Z.of_nat (List.length corpus) /\
         py_getitem corpus i = Ok (sr_text r, sr_meta r) /\
         passes f (sr_meta r) = true /\ sr_similarity r = one_minus d) /\
  (Forall (fun di : dist * Z => 0 <= snd di) DI ->
     out = Ok (omap (included corpus f) DI, _ensure_loaded t s)) /\
  (Forall (fun di : dist * Z => -1 <= snd di) DI ->
     exists results, out = Ok (results, _ensure_loaded t s) /\
       forall d tx m, (d, -1) ∈ DI -> last corpus = Some (tx, m) ->
         passes f m = true -> SearchResult tx m (one_minus d) ∈ results).
Proof.
  intros Hm corpus DI out. subst out. unfold search.
  unfold in_memory in Hm.
  destruct (indices (_ensure_loaded t s) !! t) as [i0 |] eqn:Hi; [| done].
  destruct (corpora (_ensure_loaded t s) !! t) as [c0 |] eqn:Hc; [| done].
  inversion Hm; subst i0 c0. unfold lookup_key. rewrite Hc, Hi.
  cbn [res_bind]. fold corpus. fold DI. split; [| split].
  - intros results s' H r Hr.
    destruct (search_loop corpus f DI []) as [res |] eqn:Hl; [| done].
    simpl in H. inversion H; subst.
    destruct (search_loop_sound _ _ _ _ _ Hl r Hr) as [Hin | Hex]; [| done].
    by apply elem_of_nil in Hin.
  - intros Hnn. by rewrite (search_loop_nonneg corpus f DI [] Hnn).
  - intros Hpad.
    destruct (search_loop_padding corpus f DI []) as (res & Hl & _ & Hlast).
    { eapply Forall_impl; [exact Hpad |]. intros [d i]. subst corpus. simpl. lia. }
    exists res. rewrite Hl. split; [done |]. exact Hlast.
Qed.

End Facts.

Lemma search_index_guard_witness :
  in_memory "course" (_ensure_loaded "course" demo_store)
    = Some ([3; 5], [("abc", "intro"); ("hello", "advanced")]) /\
  exists results,
    search demo_encode flat_l2_search (fun d => 1 - d) "abcd" "course" 3 None
      demo_store = Ok (results, _ensure_loaded "course" demo_store) /\
    SearchResult "hello" "advanced" (1 - flt_max) ∈ results.
Proof.
  assert (in_memory "course" (_ensure_loaded "course" demo_store)
    = Some ([3; 5], [("abc", "intro"); ("hello", "advanced")])) as Hm
    by (vm_compute; reflexivity).
  split; [exact Hm |].
  destruct (search_index_guard demo_encode flat_l2_search (fun d => 1 - d)
              demo_store "abcd" "course" 3 None _ _ _ Hm) as (_ & _ & Hpad).
  destruct Hpad as (results & Hs & Hlast).
  { vm_compute. repeat constructor; discriminate. }
  exists results. split; [exact Hs |].
  apply (Hlast flt_max "hello" "advanced").
  - vm_compute. do 2 right. left.
  - reflexivity.
  - reflexivity.
Defined.

Lemma index_corpus_invariant_witness :
  files_aligned demo_encode {["course" := [3; 5]]}
    {["course" := [("abc", "intro"); ("hello", "advanced")]]} /\
  exists s' index corpus,
    clear "course" demo_store = Ok s' /\
    in_memory "course" s' = Some (index, corpus) /\
    List.length index = List.length corpus.
Proof.
  assert (files_aligned demo_encode {["course" := [3; 5]]}
    {["course" := [("abc", "intro"); ("hello", "advanced")]]}) as Hf.
  { intros t. unfold file_or_empty.
    destruct (decide (t = "course")) as [-> | Hne].
    - by rewrite !lookup_singleton_eq.
    - by rewrite !lookup_singleton_ne. }
  split; [exact Hf |].
  destruct (index_corpus_invariant demo_encode flat_l2_search (fun d => 1 - d)
              _ _ demo_store "course" Hf (reach_init _ _ _ _ _))
    as (_ & s' & index & corpus & Hc & Hm & _ & Hlen & _).
  by exists s', index, corpus.
Defined.

End FaissFacts.

(** * Properties of the LLM client *)

Module LLMFacts.
Import PyVal LLM.

(** In an iteration of the loop that may go on: either it does, and the
    induction hypothesis [IH] applies, or it returns. *)
Ltac retry_or_stop IH :=
  match goal with
  | |- context [if ?a <? ?b - 1 then _ else _] =>
      destruct (a <? b - 1); [by rewrite IH | done]
  end.

Section Facts.

Variable rt : runtime.

Lemma n_posts_app l1 l2 : n_posts (l1 ++ l2) = (n_posts l1 + n_posts l2)%nat.
Proof. unfold n_posts. by rewrite List.filter_app, List.length_app. Qed.

Lemma n_sleeps_app l1 l2 : n_sleeps (l1 ++ l2) = (n_sleeps l1 + n_sleeps l2)%nat.
Proof. unfold n_sleeps. by rewrite List.filter_app, List.length_app. Qed.

Lemma post_world E role prompt mt w :
  snd (post E role prompt mt w)
    = World (llm_cache w) (log w ++ [EvPost role prompt mt]).
Proof. reflexivity. Qed.

Lemma post_outcome E role prompt mt w :
  fst (post E role prompt mt w) = server E (n_posts (log w)) role prompt mt.
Proof. reflexivity. Qed.

(** The loop writes the cache at its own key only. *)
Lemma attempts_cache_other E role prompt provider mt mr n attempt w k :
  k <> (role, prompt, provider, mt) ->
  llm_cache (snd (attempts rt E role prompt provider mt mr n attempt w)) !! k
    = llm_cache w !! k.
Proof.
  intros Hk. revert attempt w. induction n as [| n IH]; intros attempt w; [done |].
  cbn [attempts]. unfold post.
  destruct (server E _ role prompt mt) as [r | e].
  - destruct (status_code r =? 200).
    + destruct (choose_content rt r) as [[data [res |]] | e]; simpl;
        by rewrite lookup_insert_ne.
    + destruct (status_code r =? 429); [| done].
      destruct (is_daily_limit rt r) as [[|] | e]; [done | |]; retry_or_stop IH.
  - retry_or_stop IH.
Qed.

(** An entry of the cache is never removed or replaced. *)
Lemma call_llm_api_cache_mono E role prompt provider mt mr w k v :
  llm_cache w !! k = Some v ->
  llm_cache (snd (call_llm_api rt E role prompt provider mt mr w)) !! k = Some v.
Proof.
  intros Hk. unfold call_llm_api.
  destruct (llm_cache w !! (role, prompt, provider, mt)) as [c |] eqn:Hc; [done |].
  destruct (String.eqb provider "openrouter"); [| done].
  rewrite attempts_cache_other; [done |]. intros ->.
  unfold cache_key in *. rewrite Hc in Hk. done.
Qed.

Lemma run_calls_cache_mono calls w k v :
  llm_cache w !! k = Some v -> llm_cache (run_calls rt calls w) !! k = Some v.
Proof.
  revert w. induction calls as [| c calls IH]; intros w Hk; [done |].
  simpl. by apply IH, call_llm_api_cache_mono.
Qed.

(** A cached key is answered from the cache: same value, same world. *)
Lemma call_llm_api_hit E role prompt provider mt mr w v :
  llm_cache w !! (role, prompt, provider, mt) = Some v ->
  call_llm_api rt E role prompt provider mt mr w = (v, w).
Proof. intros H. unfold call_llm_api. by rewrite H. Qed.

Lemma status_429_not_200 r : (status_code r =? 429) = true -> (status_code r =? 200) = false.
Proof. intros H. apply Z.eqb_eq in H. rewrite H. reflexivity. Qed.

(** One iteration of the loop on a retryable outcome. *)
Lemma attempts_step_retryable E role prompt provider mt mr n attempt w :
  retryable rt (server E (n_posts (log w)) role prompt mt) = true ->
  attempts rt E role prompt provider mt mr (S n) attempt w =
    let w1 := World (llm_cache w) (log w ++ [EvPost role prompt mt]) in
    if attempt <? mr - 1 then
      attempts rt E role prompt provider mt mr n (attempt + 1) (backoff E attempt w1)
    else
      (JStr (exhausted_message provider mr
               (server E (n_posts (log w)) role prompt mt)), w1).
Proof.
  intros Hr. cbn [attempts]. unfold post.
  destruct (server E _ role prompt mt) as [r | e]; [| done].
  simpl in Hr. apply andb_prop in Hr as [H429 Hq].
  rewrite (status_429_not_200 _ H429), H429.
  unfold names_rate_limit in Hq.
  destruct (is_daily_limit rt r) as [[|] | e]; done.
Qed.

Lemma n_posts_retried_trace E role prompt mt attempt drawn k :
  n_posts (retried_trace E role prompt mt attempt drawn k) = k.
Proof.
  revert attempt drawn. induction k as [| k IH]; intros attempt drawn; [done |].
  change (n_posts (retried_trace E role prompt mt attempt drawn (S k)))
    with (S (n_posts (retried_trace E role prompt mt (attempt + 1) (S drawn) k))).
  by rewrite IH.
Qed.

Lemma n_sleeps_retried_trace E role prompt mt attempt drawn k :
  n_sleeps (retried_trace E role prompt mt attempt drawn k) = k.
Proof.
  revert attempt drawn. induction k as [| k IH]; intros attempt drawn; [done |].
  change (n_sleeps (retried_trace E role prompt mt attempt drawn (S k)))
    with (S (n_sleeps (retried_trace E role prompt mt (attempt + 1) (S drawn) k))).
  by rewrite IH.
Qed.

Lemma n_sleeps_retried l role prompt mt t :
  n_sleeps ((l ++ [EvPost role prompt mt]) ++ [EvSleep t]) = S (n_sleeps l).
Proof.
  rewrite !n_sleeps_app.
  change (n_sleeps [EvPost role prompt mt]) with O.
  change (n_sleeps [EvSleep t]) with 1%nat. lia.
Qed.

Lemma n_sleeps_posted l role prompt mt :
  n_sleeps (l ++ [EvPost role prompt mt]) = n_sleeps l.
Proof.
  rewrite n_sleeps_app. change (n_sleeps [EvPost role prompt mt]) with O. lia.
Qed.

Lemma n_posts_retried l role prompt mt t :
  n_posts ((l ++ [EvPost role prompt mt]) ++ [EvSleep t]) = S (n_posts l).
Proof.
  rewrite !n_posts_app.
  change (n_posts [EvPost role prompt mt]) with 1%nat.
  change (n_posts [EvSleep t]) with O. lia.
Qed.

(** [k] retryable outcomes in a row, with attempts left after them, bring
    the loop to attempt number [attempt + k]; the world has their requests
    and sleeps appended and the cache is as before. *)
Lemma attempts_after_retries E role prompt provider mt mr k n attempt w :
  attempt + Z.of_nat k < mr ->
  (forall i, (i < k)%nat ->
     retryable rt (server E (n_posts (log w) + i) role prompt mt) = true) ->
  attempts rt E role prompt provider mt mr (k + S n) attempt w =
    attempts rt E role prompt provider mt mr (S n) (attempt + Z.of_nat k)
      (World (llm_cache w)
         (log w ++ retried_trace E role prompt mt attempt (n_sleeps (log w)) k)).
Proof.
  revert attempt w. induction k as [| k IH]; intros attempt w Ha Hr.
  - simpl. rewrite Z.add_0_r, List.app_nil_r. by destruct w.
  - change (S k + S n)%nat with (S (k + S n)).
    rewrite attempts_step_retryable.
    2:{ specialize (Hr O). rewrite Nat.add_0_r in Hr. apply Hr. lia. }
    cbn zeta. destruct (attempt <? mr - 1) eqn:E1; [| lia].
    rewrite IH.
    + unfold backoff. cbn [log llm_cache].
      rewrite n_sleeps_retried, n_sleeps_posted.
      replace (attempt + 1 + Z.of_nat k) with (attempt + Z.of_nat (S k)) by lia.
      rewrite <- !List.app_assoc. reflexivity.
    + lia.
    + intros i Hi. unfold backoff. cbn [log]. rewrite n_posts_retried.
      replace (S (n_posts (log w)) + i)%nat with (n_posts (log w) + S i)%nat by lia.
      apply Hr. lia.
Qed.

Lemma n_posts_after_retries E role prompt mt attempt w k :
  n_posts (log w ++ retried_trace E role prompt mt attempt (n_sleeps (log w)) k)
    = (n_posts (log w) + k)%nat.
Proof. by rewrite n_posts_app, n_posts_retried_trace. Qed.

(** When every outcome is retryable the loop makes all its attempts, sleeps
    between them, and returns the sentinel of the last outcome. *)
Lemma attempts_retryable_run E role prompt provider mt mr n attempt w :
  attempt + Z.of_nat (S n) = mr ->
  (forall k, (k <= n)%nat ->
     retryable rt (server E (n_posts (log w) + k) role prompt mt) = true) ->
  attempts rt E role prompt provider mt mr (S n) attempt w =
    (JStr (exhausted_message provider mr
             (server E (n_posts (log w) + n) role prompt mt)),
     World (llm_cache w)
       (log w ++ backoff_trace E role prompt mt attempt (n_sleeps (log w)) (S n))).
Proof.
  intros Ha Hr.
  replace (S n) with (n + 1)%nat at 1 by lia.
  rewrite attempts_after_retries; [| lia | intros i Hi; apply Hr; lia].
  rewrite attempts_step_retryable.
  2:{ cbn [log]. rewrite n_posts_after_retries. apply Hr. lia. }
  cbn zeta. destruct (attempt + Z.of_nat n <? mr - 1) eqn:E1; [lia |].
  cbn [log llm_cache]. rewrite n_posts_after_retries.
  unfold backoff_trace. by rewrite <- List.app_assoc.
Qed.

(** A response that is neither 200 nor 429 ends the call on the spot. *)
Lemma attempts_other_status E role prompt provider mt mr n attempt w r :
  server E (n_posts (log w)) role prompt mt = Ok r ->
  status_code r <> 200 -> status_code r <> 429 ->
  attempts rt E role prompt provider mt mr (S n) attempt w =
    (JStr (http_error provider r),
     World (llm_cache w) (log w ++ [EvPost role prompt mt])).
Proof.
  intros Hs H200 H429. cbn [attempts]. unfold post. rewrite Hs.
  apply Z.eqb_neq in H200, H429. by rewrite H200, H429.
Qed.




Lemma sleeps_of_app l1 l2 : sleeps_of (l1 ++ l2) = (sleeps_of l1 ++ sleeps_of l2)%list.
Proof. unfold sleeps_of. apply omap_app. Qed.

Lemma sleeps_of_retried_trace E role prompt mt attempt drawn k i t :
  (forall n, (0 <= jitter E n)%Q /\ (jitter E n < 1)%Q) ->
  sleeps_of (retried_trace E role prompt mt attempt drawn k) !! i = Some t ->
  (inject_Z (2 ^ (attempt + Z.of_nat i)) <= t)%Q /\
  (t < inject_Z (2 ^ (attempt + Z.of_nat i)) + 1)%Q.
Proof.
  intros Hj. revert attempt drawn i.
  induction k as [| k IH]; intros attempt drawn i H; [done |].
  change (sleeps_of (retried_trace E role prompt mt attempt drawn (S k)))
    with ((inject_Z (2 ^ attempt) + jitter E drawn)%Q
          :: sleeps_of (retried_trace E role prompt mt (attempt + 1) (S drawn) k))
    in H.
  destruct i as [| i].
  - simpl in H. inversion H; subst t. rewrite Z.add_0_r.
    destruct (Hj drawn) as [H0 H1]. split.
    + rewrite <- (Qplus_0_r (inject_Z (2 ^ attempt))) at 1.
      by apply Qplus_le_r.
    + by apply Qplus_lt_r.
  - simpl in H. apply IH in H.
    by replace (attempt + Z.of_nat (S i)) with (attempt + 1 + Z.of_nat i) by lia.
Qed.

Lemma length_sleeps_of_retried_trace E role prompt mt attempt drawn k :
  List.length (sleeps_of (retried_trace E role prompt mt attempt drawn k)) = k.
Proof.
  revert attempt drawn. induction k as [| k IH]; intros attempt drawn; [done |].
  change (sleeps_of (retried_trace E role prompt mt attempt drawn (S k)))
    with ((inject_Z (2 ^ attempt) + jitter E drawn)%Q
          :: sleeps_of (retried_trace E role prompt mt (attempt + 1) (S drawn) k)).
  cbn [List.length]. by rewrite IH.
Qed.

Lemma sleeps_of_backoff_trace E role prompt mt attempt drawn m :
  sleeps_of (backoff_trace E role prompt mt attempt drawn m)
    = sleeps_of (retried_trace E role prompt mt attempt drawn (pred m)).
Proof.
  destruct m as [| m]; [done |]. unfold backoff_trace.
  rewrite sleeps_of_app. simpl. by rewrite List.app_nil_r.
Qed.

Lemma n_posts_backoff_trace E role prompt mt attempt drawn m :
  n_posts (backoff_trace E role prompt mt attempt drawn m) = m.
Proof.
  destruct m as [| m]; [done |]. unfold backoff_trace.
  rewrite n_posts_app, n_posts_retried_trace. unfold n_posts. simpl. lia.
Qed.

Lemma exhausted_message_marked provider mr o :
  PyStr.startswith "❌" (exhausted_message provider mr o) = true.
Proof. by destruct o. Qed.

(** A whole call on a cache miss whose first [k] outcomes are retryable and
    leave attempts: the call continues at attempt number [k]. *)
Lemma call_after_retries E role prompt mt mr w k :
  llm_cache w !! (role, prompt, "openrouter", mt) = None ->
  (k < Z.to_nat mr)%nat ->
  (forall i, (i < k)%nat ->
     retryable rt (server E (n_posts (log w) + i) role prompt mt) = true) ->
  exists n,
    call_llm_api rt E role prompt "openrouter" mt mr w =
      attempts rt E role prompt "openrouter" mt mr (S n) (Z.of_nat k)
        (World (llm_cache w)
           (log w ++ retried_trace E role prompt mt 0 (n_sleeps (log w)) k)).
Proof.
  intros Hmiss Hk Hr.
  unfold call_llm_api. unfold cache_key in *. rewrite Hmiss.
  change (String.eqb "openrouter" "openrouter") with true. cbv iota.
  exists (Z.to_nat mr - S k)%nat.
  replace (Z.to_nat mr) with (k + S (Z.to_nat mr - S k))%nat at 1 by lia.
  rewrite attempts_after_retries; [by rewrite Z.add_0_l | lia | done].
Qed.

(** The same when every outcome is retryable. *)
Lemma call_retryable_run E role prompt mt mr w :
  llm_cache w !! (role, prompt, "openrouter", mt) = None ->
  1 <= mr ->
  (forall k, (k < Z.to_nat mr)%nat ->
     retryable rt (server E (n_posts (log w) + k) role prompt mt) = true) ->
  call_llm_api rt E role prompt "openrouter" mt mr w =
    (JStr (exhausted_message "openrouter" mr
             (server E (n_posts (log w) + (Z.to_nat mr - 1)) role prompt mt)),
     World (llm_cache w)
       (log w ++ backoff_trace E role prompt mt 0 (n_sleeps (log w))
                   (Z.to_nat mr))).
Proof.
  intros Hmiss Hmr Hr.
  unfold call_llm_api. unfold cache_key in *. rewrite Hmiss.
  change (String.eqb "openrouter" "openrouter") with true. cbv iota.
  destruct (Z.to_nat mr) as [| n] eqn:En; [lia |].
  replace (S n - 1)%nat with n by lia.
  apply attempts_retryable_run; [lia |].
  intros k Hk. apply Hr. lia.
Qed.

(** C2 (as amended).  On a cache miss with [max_retries >= 1]: when every
    request ends in a transport exception or in a 429 that does not name the
    rate limit, the client makes exactly [max_retries] requests, sleeps
    between consecutive ones for [2 ** attempt] plus the drawn jitter
    (hence at least [2 ** attempt] and less than one more when the jitter
    lies in [0,1)), and returns a sentinel that starts with the failure
    marker; a response with any status other than 200 and 429, at the first
    attempt or after [k] retried ones, is answered with the sentinel after
    that request, without a further sleep or request. *)
Theorem retry_policy E role prompt mt mr w :
  llm_cache w !! (role, prompt, "openrouter", mt) = None ->
  1 <= mr ->
  let call := call_llm_api rt E role prompt "openrouter" mt mr w in
  let outcome k := server E (n_posts (log w) + k) role prompt mt in
  let trace :=
    backoff_trace E role prompt mt 0 (n_sleeps (log w)) (Z.to_nat mr) in
  ((forall k, (k < Z.to_nat mr)%nat -> retryable rt (outcome k) = true) ->
     call = (JStr (exhausted_message "openrouter" mr
                     (outcome (Z.to_nat mr - 1)%nat)),
             World (llm_cache w) (log w ++ trace)) /\
     n_posts trace = Z.to_nat mr /\
     List.length (sleeps_of trace) = (Z.to_nat mr - 1)%nat /\
     ((forall n, (0 <= jitter E n)%Q /\ (jitter E n < 1)%Q) ->
      forall i t, sleeps_of trace !! i = Some t ->
        (inject_Z (2 ^ Z.of_nat i) <= t)%Q /\
        (t < inject_Z (2 ^ Z.of_nat i) + 1)%Q)) /\
  (forall k r,
     (k < Z.to_nat mr)%nat ->
     (forall i, (i < k)%nat -> retryable rt (outcome i) = true) ->
     outcome k = Ok r -> status_code r <> 200 -> status_code r <> 429 ->
     call = (JStr (http_error "openrouter" r),
             World (llm_cache w)
               (log w ++ backoff_trace E role prompt mt 0 (n_sleeps (log w))
                           (S k)))) /\
  (forall o, PyStr.startswith "❌" (exhausted_message "openrouter" mr o) = true).
Proof.
  intros Hmiss Hmr call outcome trace. subst call outcome trace. cbv beta.
  split; [| split].
  - intros Hr. split; [| split; [| split]].
    + by apply call_retryable_run.
    + apply n_posts_backoff_trace.
    + rewrite sleeps_of_backoff_trace, length_sleeps_of_retried_trace. lia.
    + intros Hj i t Hi. rewrite sleeps_of_backoff_trace in Hi.
      apply (sleeps_of_retried_trace _ _ _ _ 0 _ _ i t Hj) in Hi.
      by rewrite Z.add_0_l in Hi.
  - intros k r Hk Hr Ho H200 H429.
    destruct (call_after_retries E role prompt mt mr w k Hmiss Hk Hr) as (n & ->).
    rewrite (attempts_other_status _ _ _ _ _ _ _ _ _ r); cbn [log llm_cache].
    + unfold backoff_trace. by rewrite <- List.app_assoc.
    + by rewrite n_posts_after_retries.
    + done.
    + done.
  - intros o. apply exhausted_message_marked.
Qed.


(** C10.  On a cache miss, when a request, the first one or one after [k]
    retried attempts, is answered with status 200 and the body either lacks
    a non-empty ['choices'] or cannot be decoded or indexed, the client
    returns a string that starts with the failure marker after that request
    and stores it in the cache under [(role, prompt, provider,
    max_tokens)].  After any further calls of the client, with any
    arguments, a call with the same key returns that same string and leaves
    the world as it is: no request, no sleep, no change of the cache;
    this holds for any retry bound and any behaviour of the server. *)
Theorem failure_string_cached E role prompt mt mr w k r :
  llm_cache w !! (role, prompt, "openrouter", mt) = None ->
  (k < Z.to_nat mr)%nat ->
  (forall i, (i < k)%nat ->
     retryable rt (server E (n_posts (log w) + i) role prompt mt) = true) ->
  server E (n_posts (log w) + k) role prompt mt = Ok r ->
  status_code r = 200 ->
  (forall data result, choose_content rt r <> Ok (data, Some result)) ->
  let call := call_llm_api rt E role prompt "openrouter" mt mr w in
  exists msg,
    fst call = JStr msg /\
    PyStr.startswith "❌" msg = true /\
    ((exists data, choose_content rt r = Ok (data, None) /\
        msg = "❌ Unexpected response structure: " ++ py_str rt data) \/
     (exists e, choose_content rt r = Raise e /\
        msg = "❌ Failed to parse JSON: " ++ exn_msg e ++ " | Raw: " ++ text r)) /\
    log (snd call) =
      (log w ++ backoff_trace E role prompt mt 0 (n_sleeps (log w)) (S k))%list /\
    llm_cache (snd call) !! (role, prompt, "openrouter", mt) = Some (JStr msg) /\
    forall calls E' mr',
      let later := run_calls rt calls (snd call) in
      call_llm_api rt E' role prompt "openrouter" mt mr' later = (JStr msg, later).
Proof.
  intros Hmiss Hk Hr Hs H200 Hfail call. subst call.
  destruct (call_after_retries E role prompt mt mr w k Hmiss Hk Hr) as (n & ->).
  cbn [attempts]. unfold post. cbn [log llm_cache].
  rewrite n_posts_after_retries, Hs, H200.
  change (200 =? 200) with true. cbv iota.
  assert ((log w ++ retried_trace E role prompt mt 0 (n_sleeps (log w)) k)
            ++ [EvPost role prompt mt]
          = log w ++ backoff_trace E role prompt mt 0 (n_sleeps (log w)) (S k))%list
    as Hlog.
  { unfold backoff_trace. by rewrite <- List.app_assoc. }
  destruct (choose_content rt r) as [[data [res |]] | e] eqn:Hc.
  - by destruct (Hfail data res).
  - eexists. split; [reflexivity |]. split; [reflexivity |].
    split; [left; by exists data |]. split; [exact Hlog |].
    cbn [snd store_result llm_cache].
    split; [apply lookup_insert_eq |].
    intros calls E' mr'. apply call_llm_api_hit.
    apply run_calls_cache_mono. simpl. apply lookup_insert_eq.
  - eexists. split; [reflexivity |]. split; [reflexivity |].
    split; [right; by exists e |]. split; [exact Hlog |].
    cbn [snd store_result llm_cache].
    split; [apply lookup_insert_eq |].
    intros calls E' mr'. apply call_llm_api_hit.
    apply run_calls_cache_mono. simpl. apply lookup_insert_eq.
Qed.

End Facts.

Import Demo.

(** A 500 on the first request ends the call after one request although
    three attempts were allowed. *)
Lemma retry_policy_counterexample :
  ~ retries_every_failure demo_runtime
      (env_answering (Ok (Response 500 "Internal Server Error")))
      "You are a career strategist." "Suggest 3 job roles" 300 3 fresh_world.
Proof.
  intros H. unfold retries_every_failure in H.
  specialize (H (lookup_empty _)).
  assert (forall n : nat,
    match server (env_answering (Ok (Response 500 "Internal Server Error"))) n
            "You are a career strategist." "Suggest 3 job roles" 300 with
    | Ok r => status_code r < 200 \/ 300 <= status_code r
    | Raise _ => True
    end) as Hall by (intros n; simpl; lia).
  specialize (H Hall). vm_compute in H. discriminate H.
Qed.

Lemma retry_policy_witness :
  llm_cache fresh_world !! ("r", "p", "openrouter", 700) = None /\
  1 <= 3 /\
  call_llm_api demo_runtime
    (env_answering (Raise (Exn RequestException "connection refused")))
    "r" "p" "openrouter" 700 3 fresh_world
  = (JStr "❌ Request failed after 3 attempts: connection refused",
     World ∅ [EvPost "r" "p" 700; EvSleep (inject_Z (2 ^ 0) + (1 # 2))%Q;
              EvPost "r" "p" 700; EvSleep (inject_Z (2 ^ (0 + 1)) + (1 # 2))%Q;
              EvPost "r" "p" 700]).
Proof.
  split; [apply lookup_empty |]. split; [lia |].
  destruct (retry_policy demo_runtime
              (env_answering (Raise (Exn RequestException "connection refused")))
              "r" "p" 700 3 fresh_world (lookup_empty _) ltac:(lia))
    as (Hrun & _).
  destruct Hrun as (Hcall & _); [by intros k _ |].
  exact Hcall.
Defined.


Lemma failure_string_cached_witness :
  llm_cache fresh_world !! ("r", "p", "openrouter", 700) = None /\
  (0 < Z.to_nat 3)%nat /\
  exists msg,
    fst (call_llm_api demo_runtime
           (env_answering (Ok (Response 200 (PyStr.dq "{'choices': []}"))))
           "r" "p" "openrouter" 700 3 fresh_world) = JStr msg /\
    PyStr.startswith "❌" msg = true.
Proof.
  split; [apply lookup_empty |]. split; [simpl; lia |].
  destruct (failure_string_cached demo_runtime
              (env_answering (Ok (Response 200 (PyStr.dq "{'choices': []}"))))
              "r" "p" 700 3 fresh_world O (Response 200 (PyStr.dq "{'choices': []}"))
              (lookup_empty _) ltac:(simpl; lia)
              ltac:(intros i Hi; lia) eq_refl eq_refl)
    as (msg & Hfst & Hmark & _).
  { intros data result. vm_compute. discriminate. }
  by exists msg.
Defined.

End LLMFacts.

(** * JSON extraction in [call_llm_api_json] *)

(** The decoder under the limits agrees with the decoder without them
    wherever it does not stop at a limit. *)
Module DecoderFacts.
Import Json.

Lemma scan_number_agrees md s : agrees (scan_number_within md s) (scan_number s).
Proof.
  unfold scan_number_within. destruct (scan_number s) as [[v rest] |]; [| done].
  destruct v; try done. simpl. by destruct (over_digits _ _).
Qed.

Ltac agree_step :=
  match goal with
  | |- agrees (Decoded _) _ => reflexivity
  | |- agrees Malformed _ => reflexivity
  | |- agrees (Limited _) _ => exact I
  | H : agrees ?d ?o |- context [?d] =>
      destruct d as [[? ?] | |]; simpl in H; rewrite ?H; clear H
  | |- context [match strip_prefix ?p ?s with _ => _ end] =>
      destruct (strip_prefix p s)
  | |- context [match scan_string ?f ?s with _ => _ end] =>
      destruct (scan_string f s) as [[? ?] |]
  | |- context [match skip_ws ?s with _ => _ end] =>
      let a := fresh "a" in
      destruct (skip_ws s) as [| a ?]; [| destruct a as [[] [] [] [] [] [] [] []]]
  end.

Lemma scan_within_agrees md fuel :
  forall room,
    (forall s, agrees (scan_value_within md fuel room s) (scan_value fuel s)) /\
    (forall s acc,
       agrees (scan_items_within md fuel room s acc) (scan_items fuel s acc)) /\
    (forall s acc,
       agrees (scan_members_within md fuel room s acc) (scan_members fuel s acc)).
Proof.
  induction fuel as [| fuel IH]; intros room; [done |].
  split; [| split].
  - intros s. destruct s as [| a r].
    + cbn. reflexivity.
    + destruct a as [[] [] [] [] [] [] [] []];
        cbn [scan_value_within scan_value];
        try (match goal with
             | |- context [scan_number_within md ?s] =>
                 pose proof (scan_number_agrees md s) as Hn
             end; repeat agree_step; fail).
      all: try (repeat agree_step; fail).
      all: destruct room as [| room']; [exact I |].
      all: destruct (skip_ws r) as [| a r1] eqn:Er;
        [| destruct a as [[] [] [] [] [] [] [] []]; try reflexivity].
      all: match goal with
           | IH : forall room, _ |- context [scan_items_within _ _ ?rm ?s []] =>
               pose proof (proj1 (proj2 (IH rm)) s []) as Hi
           | IH : forall room, _ |- context [scan_members_within _ _ ?rm ?s []] =>
               pose proof (proj2 (proj2 (IH rm)) s []) as Hi
           end; repeat agree_step.
  - intros s acc. cbn [scan_items_within scan_items].
    pose proof (proj1 (IH room) s) as Hv.
    destruct (scan_value_within md fuel room s) as [[v r] | |]; simpl in Hv;
      rewrite ?Hv; try done.
    destruct (skip_ws r) as [| a r1]; [done |].
    destruct a as [[] [] [] [] [] [] [] []]; try done.
    apply (proj1 (proj2 (IH room))).
  - intros s acc. cbn [scan_members_within scan_members].
    destruct s as [| a r]; [done |].
    destruct a as [[] [] [] [] [] [] [] []]; try done.
    destruct (scan_string _ r) as [[key r1] |]; [| done].
    destruct (skip_ws r1) as [| a r2]; [done |].
    destruct a as [[] [] [] [] [] [] [] []]; try done.
    pose proof (proj1 (IH room) (skip_ws r2)) as Hv.
    destruct (scan_value_within md fuel room (skip_ws r2)) as [[v r3] | |];
      simpl in Hv; rewrite ?Hv; try done.
    destruct (skip_ws r3) as [| a r4]; [done |].
    destruct a as [[] [] [] [] [] [] [] []]; try done.
    apply (proj2 (proj2 (IH room))).
Qed.

Lemma loads_within_agrees n md s : agrees (loads_within n md s) (loads s).
Proof.
  unfold loads_within, loads.
  pose proof (proj1 (scan_within_agrees md (S (String.length s)) n) (skip_ws s)) as H.
  destruct (scan_value_within _ _ _ _) as [[v rest] | |]; unfold agrees in H;
    rewrite ?H; try done.
  by destruct (skip_ws rest).
Qed.

End DecoderFacts.

Module ExtractionFacts.
Import PyVal LLM.

#[local] Arguments Ascii.eqb : simpl never.



Lemma find_single_nil c : PyStr.find (String c EmptyString) EmptyString = None.
Proof. reflexivity. Qed.






Section Facts.

Variable rt : runtime.







End Facts.

Import Demo.

(** Where the interpreter lets the decoder enter two containers, a
    document of three nested arrays is reported as an unexpected parsing
    error, and so is one that is malformed behind the third bracket: the
    limit is met first. *)
Lemma nesting_limit_reported :
  parse_response tight_runtime "[[[1]]]"
    = error_record "Unexpected parsing error" "[[[1]]]"
        [("error_details", JStr "<limit>")] /\
  parse_response tight_runtime "answer: [[[1, oops]"
    = error_record "Unexpected parsing error" "answer: [[[1, oops]"
        [("error_details", JStr "<limit>")] /\
  parse_response tight_runtime "[[1, oops]"
    = error_record "JSON parsing failed" "[[1, oops]"
        [("parsing_error", JStr "<decode error>")].
Proof. repeat split; vm_compute; reflexivity. Qed.


End ExtractionFacts.

(** * The sort of short lists *)

Module PySortFacts.
Import PySort.

Section Facts.

Local Open Scope list_scope.

Context {A : Type}.
Variable lt : A -> A -> bool.

Abbreviation ins := (fun acc x => insert_asc lt x acc).
Abbreviation sorted := (StronglySorted (le lt)).

(** ** Permutation: the routine loses and invents nothing *)





(** ** The binary search *)




Lemma insert_asc_perm x acc : Permutation (insert_asc lt x acc) (x :: acc).
Proof.
  induction acc as [| y acc IH]; [done |]. simpl.
  destruct (lt x y); [done |]. rewrite IH. apply perm_swap.
Qed.


(** ** Under a consistent order *)

Variable dom : A -> Prop.
Hypothesis Hc : consistent lt dom.



Lemma sorted_forall_dom_insert x acc :
  Forall dom acc -> dom x -> Forall dom (insert_asc lt x acc).
Proof.
  intros Hd Hx. rewrite (insert_asc_perm x acc). by constructor.
Qed.

Lemma insert_asc_sorted x acc :
  sorted acc -> Forall dom acc -> dom x -> sorted (insert_asc lt x acc).
Proof.
  intros Hs Hd Hx. induction Hs as [| y acc Hs IH Hy]; [repeat constructor |].
  apply Forall_cons in Hd as [Hdy Hd]. simpl.
  destruct (lt x y) eqn:Hlt.
  - constructor; [by constructor |]. constructor.
    + by apply (lt_asym lt dom Hc x y).
    + rewrite List.Forall_forall in Hy, Hd. apply List.Forall_forall.
      intros z Hz. unfold le. apply (lt_asym lt dom Hc x z); auto.
      apply (lt_le_trans lt dom Hc x y z); auto. by apply Hy.
  - constructor; [by apply IH |].
    rewrite (insert_asc_perm x acc). by constructor.
Qed.


Lemma fold_ins_sorted rest : forall acc,
  sorted acc -> Forall dom acc -> Forall dom rest ->
  sorted (List.fold_left ins rest acc).
Proof.
  induction rest as [| x rest IH]; intros acc Hs Hd Hr; [done |].
  apply Forall_cons in Hr as [Hx Hr]. simpl.
  apply IH; [by apply insert_asc_sorted | by apply sorted_forall_dom_insert | done].
Qed.

Lemma stable_asc_sorted l : Forall dom l -> sorted (stable_asc lt l).
Proof. intros H. apply fold_ins_sorted; [constructor | constructor | done]. Qed.





End Facts.
End PySortFacts.


(** * Properties of the analyzer and the ranker *)

Module CoursesFacts.
Import PyVal LLM Courses.

(** ** The order on scores *)









(** ** Insertion and sorting *)











Lemma py_slice_to_prefix {A} k (l : list A) :
  exists n, py_slice_to k l = take n l.
Proof. unfold py_slice_to. destruct (0 <=? k); eauto. Qed.

Lemma py_slice_to_length {A} k (l : list A) :
  0 <= k -> (List.length (py_slice_to k l) <= Z.to_nat k)%nat.
Proof.
  intros Hk. unfold py_slice_to. destruct (0 <=? k) eqn:E; [| lia].
  rewrite length_take. lia.
Qed.


(** ** [<] on scores that are numbers other than NaN *)




(** ** The stable descending order and the ascending order reversed *)







(** ** [sorted] on the scores *)




(** ** The analyzer *)

Lemma get_set_eq k v d : PyDict.get k (PyDict.set k v d) = Some v.
Proof.
  induction d as [| [k' v'] d IH]; simpl.
  - by rewrite String.eqb_refl.
  - destruct (String.eqb k k') eqn:E; simpl; rewrite ?String.eqb_refl, ?E; done.
Qed.

Section Facts.

Variable rt : runtime.
Variable E : env.




(** ** The ranker *)











End Facts.

Import Demo.

(** The model answers with an object that carries a score and a key
    [error] whose value is [null].  The client decodes it and returns it;
    it is no error record, so the rule of the specification returns it
    verbatim, with its score 9.  The code tests for the key [error] alone
    and answers with the default record of a failed analysis. *)
Lemma analyzer_normalization_counterexample :
  ~ normalizes_as_specified demo_runtime
      (env_answering
         (Ok (completion (JStr (PyStr.dq "{'relevance_score': 9, 'error': null}")))))
      [("title", JStr "Machine Learning"); ("institution", JStr "Stanford");
       ("rating", JStr "4.9");
       ("description", JStr "Coursera course: Machine Learning")]
      demo_skills "Data Scientist" fresh_world.
Proof.
  intros H.
  specialize (H "python, statistics"
                (JObj [("relevance_score", JInt 9); ("error", JNull)])).
  assert (py_join demo_runtime ", " demo_skills = Ok "python, statistics") as Hj
    by (vm_compute; reflexivity).
  specialize (H Hj). clear Hj.
  match type of H with ?P -> _ => assert P as Hc by (vm_compute; reflexivity) end.
  specialize (H Hc). vm_compute in H. discriminate H.
Qed.




End CoursesFacts.

(** * Resume enhancement and its fallback *)

Module PipelineFacts.
Import PyVal LLM Pipeline Demo.

Lemma n_local_app l1 l2 : n_local (l1 ++ l2) = (n_local l1 + n_local l2)%nat.
Proof. unfold n_local. by rewrite List.filter_app, List.length_app. Qed.

Section Facts.

Variable rt : runtime.
Variable E : env.

(** The client never calls the local model. *)
Lemma attempts_n_local role prompt provider mt mr n attempt w :
  n_local (log (snd (attempts rt E role prompt provider mt mr n attempt w)))
    = n_local (log w).
Proof.
  revert attempt w. induction n as [| n IH]; intros attempt w; [done |].
  cbn [attempts]. unfold post.
  assert (n_local (log w ++ [EvPost role prompt mt]) = n_local (log w)) as Hp.
  { rewrite n_local_app. unfold n_local at 2. simpl. lia. }
  assert (forall a, n_local (log (backoff E a
            (World (llm_cache w) (log w ++ [EvPost role prompt mt]))))
          = n_local (log w)) as Hb.
  { intros a. unfold backoff. cbn [log]. rewrite !n_local_app.
    unfold n_local at 2 3. simpl. lia. }
  destruct (server E _ role prompt mt) as [r | e].
  - destruct (status_code r =? 200).
    + by destruct (choose_content rt r) as [[data [res |]] | e].
    + destruct (status_code r =? 429); [| done].
      destruct (is_daily_limit rt r) as [[|] | e]; [done | |];
        LLMFacts.retry_or_stop IH.
  - LLMFacts.retry_or_stop IH.
Qed.

Lemma call_llm_api_n_local role prompt provider mt mr w :
  n_local (log (snd (call_llm_api rt E role prompt provider mt mr w)))
    = n_local (log w).
Proof.
  unfold call_llm_api. destruct (llm_cache w !! _); [done |].
  destruct (String.eqb provider "openrouter"); [| done].
  apply attempts_n_local.
Qed.

Lemma extract_resume_core_info_n_local resume w :
  n_local (log (snd (extract_resume_core_info rt E resume w))) = n_local (log w).
Proof.
  unfold extract_resume_core_info.
  pose proof (call_llm_api_n_local core_info_role (core_info_prompt resume)
                "openrouter" 500 3 w) as H.
  destruct (call_llm_api _ _ _ _ _ _ _ _) as [response w1]. simpl in H.
  by match goal with |- context [match ?a with Ok _ => _ | Raise _ => _ end] =>
       destruct a end.
Qed.

(** What [enhance_resume] returns normally is what the client returned, and
    no call of the local model has been made on the way. *)
Lemma enhance_resume_ok resume role w v w1 :
  enhance_resume rt E resume role w = (Ok v, w1) ->
  n_local (log w1) = n_local (log w) /\
  exists prompt w0,
    call_llm_api rt E enhancement_role prompt "openrouter" 1500 3 w0 = (v, w1).
Proof.
  unfold enhance_resume.
  pose proof (extract_resume_core_info_n_local resume w) as H0.
  destruct (extract_resume_core_info rt E resume w) as [core w0]. simpl in H0.
  match goal with |- context [match ?a with Ok _ => _ | Raise _ => _ end] =>
    destruct a as [prompt | e] end; [| done].
  pose proof (call_llm_api_n_local enhancement_role prompt "openrouter" 1500 3 w0) as H1.
  destruct (call_llm_api _ _ _ _ _ _ _ _) as [result w2] eqn:Hc. simpl in H1.
  intros H. inversion H; subst. split; [lia |]. by exists prompt, w0.
Qed.

(** C3 (what the code does).  When [enhance_resume] returns a string, be it
    a sentinel failure string of the client, [clean_enhance_resume] returns
    that string cleaned and the local model is not called: the handler
    with the fallback is entered on an exception only.  With a server
    that answers every request with status 500 and a local model that
    would answer, the wrapper returns the sentinel of the client after the
    two requests of the primary path and no call of the local model. *)
Theorem sentinel_skips_fallback resume role w :
  (forall s w1,
     enhance_resume rt E resume role w = (Ok (JStr s), w1) ->
     clean_enhance_resume rt E resume role w
       = (JStr (if String.eqb s EmptyString then s else clean_text s), w1) /\
     n_local (log w1) = n_local (log w) /\
     exists prompt w0,
       call_llm_api rt E enhancement_role prompt "openrouter" 1500 3 w0
         = (JStr s, w1)) /\
  (forall draws local,
     let failing :=
       Env (fun _ _ _ _ => Ok (Response 500 "Internal Server Error")) draws local in
     exists w',
       clean_enhance_resume rt failing "John Doe resume text"
         (JStr "Data Scientist") fresh_world
         = (JStr "❌ Openrouter error: 500 - Internal Server Error", w') /\
       n_posts (log w') = 2%nat /\ n_local (log w') = 0%nat).
Proof.
  split.
  - intros s w1 H. destruct (enhance_resume_ok _ _ _ _ _ H) as (Hn & Hcall).
    split; [| by split].
    unfold clean_enhance_resume. rewrite H. cbn [res_bind].
    unfold clean_llm_output. cbn [truthy].
    destruct (String.eqb s EmptyString); reflexivity.
  - intros draws local failing. subst failing. eexists.
    split; [vm_compute; reflexivity |]. by vm_compute.
Qed.

End Facts.
End PipelineFacts.

(** * Further properties of the LLM client *)

Module ClientFacts.
Import PyVal LLM Trace LLMFacts PipelineFacts.

Section Facts.

Variable rt : runtime.

(** The events of the loop: nothing when no iteration is left, else
    requests with a sleep between consecutive ones. *)
Lemma attempts_events E role prompt provider mt mr n attempt w :
  mr <= attempt + Z.of_nat n ->
  exists evs,
    log (snd (attempts rt E role prompt provider mt mr n attempt w))
      = (log w ++ evs)%list /\
    (n_posts evs <= n)%nat /\
    (n = O -> evs = []) /\
    ((0 < n)%nat -> n_posts evs = S (n_sleeps evs)) /\
    n_local evs = O /\
    Forall (fun e => e = EvPost role prompt mt \/ is_sleep e = true) evs.
Proof.
  pose (P := fun (n : nat) (w : world) (out : json * world) =>
    exists evs,
      log (snd out) = (log w ++ evs)%list /\
      (n_posts evs <= n)%nat /\
      (n = O -> evs = []) /\
      ((0 < n)%nat -> n_posts evs = S (n_sleeps evs)) /\
      n_local evs = O /\
      Forall (fun e => e = EvPost role prompt mt \/ is_sleep e = true) evs).
  intros Hinv.
  change (P n w (attempts rt E role prompt provider mt mr n attempt w)).
  revert attempt w Hinv. induction n as [| n IH]; intros attempt w Hinv.
  - exists []. simpl. rewrite List.app_nil_r. repeat split; try done; lia.
  - assert (forall (v : json) c,
      P (S n) w (v, World c (log w ++ [EvPost role prompt mt]))) as Hstop.
    { intros v c. exists [EvPost role prompt mt]. simpl.
      split; [done |]. split; [unfold n_posts; simpl; lia |].
      split; [done |]. split; [done |]. split; [done |].
      constructor; [by left | constructor]. }
    assert ((attempt <? mr - 1) = true ->
      P (S n) w
        (attempts rt E role prompt provider mt mr n (attempt + 1)
           (backoff E attempt
              (World (llm_cache w) (log w ++ [EvPost role prompt mt])))))
      as Hretry.
    { intros Hlt. apply Z.ltb_lt in Hlt.
      destruct (IH (attempt + 1)
                  (backoff E attempt
                     (World (llm_cache w) (log w ++ [EvPost role prompt mt]))))
        as (evs & Hlog & Hp & _ & Hs & Hl & Hall); [lia |].
      assert (0 < n)%nat as Hn by lia. specialize (Hs Hn).
      exists (EvPost role prompt mt
                :: EvSleep (inject_Z (2 ^ attempt)
                            + jitter E (n_sleeps (log w ++ [EvPost role prompt mt])))%Q
                :: evs).
      split.
      { rewrite Hlog. unfold backoff. cbn [log llm_cache].
        by rewrite <- !List.app_assoc. }
      change (n_posts (?a :: ?b :: evs)) with (S (n_posts evs)).
      change (n_sleeps (?a :: ?b :: evs)) with (S (n_sleeps evs)).
      change (n_local (?a :: ?b :: evs)) with (n_local evs).
      split; [lia |]. split; [done |]. split; [intros _; lia |].
      split; [done |].
      constructor; [by left |]. constructor; [by right | done]. }
    cbn [attempts]. unfold post.
    destruct (server E _ role prompt mt) as [r | e].
    + destruct (status_code r =? 200).
      * destruct (choose_content rt r) as [[data [res |]] | e]; apply Hstop.
      * destruct (status_code r =? 429); [| apply Hstop].
        destruct (is_daily_limit rt r) as [[|] | e]; [apply Hstop | |];
          (destruct (attempt <? mr - 1) eqn:Hlt; [by apply Hretry | apply Hstop]).
    + destruct (attempt <? mr - 1) eqn:Hlt; [by apply Hretry | apply Hstop].
Qed.

(** The events of one call. *)
Lemma call_events E role prompt provider mt mr w :
  exists evs,
    log (snd (call_llm_api rt E role prompt provider mt mr w))
      = (log w ++ evs)%list /\
    (n_posts evs <= Z.to_nat mr)%nat /\
    (evs = [] \/ n_posts evs = S (n_sleeps evs)) /\
    n_local evs = O /\
    Forall (fun e => e = EvPost role prompt mt \/ is_sleep e = true) evs.
Proof.
  unfold call_llm_api.
  destruct (llm_cache w !! (role, prompt, provider, mt)).
  { exists []. simpl. rewrite List.app_nil_r.
    split; [done |]. split; [unfold n_posts; simpl; lia |].
    split; [by left |]. by split. }
  destruct (String.eqb provider "openrouter").
  - destruct (attempts_events E role prompt provider mt mr (Z.to_nat mr) 0 w)
      as (evs & Hlog & Hp & Hz & Hs & Hl & Hall); [lia |].
    exists evs. split; [done |]. split; [done |]. split; [| done].
    destruct (Z.to_nat mr) as [| n]; [left; by apply Hz | right; apply Hs; lia].
  - exists []. simpl. rewrite List.app_nil_r.
    split; [done |]. split; [unfold n_posts; simpl; lia |].
    split; [by left |]. by split.
Qed.

(** X1.  Whatever the server does, one call of the client appends to the
    trace at most [max_retries] requests, one sleep fewer than requests,
    and no call of the local model; every request carries the role, the
    prompt and the token limit of the call. *)
Theorem call_effects_bounded E role prompt provider mt mr w :
  exists evs,
    log (snd (call_llm_api rt E role prompt provider mt mr w))
      = (log w ++ evs)%list /\
    (n_posts evs <= Z.to_nat mr)%nat /\
    (evs = [] \/ n_posts evs = S (n_sleeps evs)) /\
    n_local evs = O /\
    Forall (fun e => e = EvPost role prompt mt \/ is_sleep e = true) evs.
Proof. apply call_events. Qed.

Lemma total_sleep_retried role prompt mt t evs :
  total_sleep (EvPost role prompt mt :: EvSleep t :: evs)
    = (t + total_sleep evs)%Q.
Proof. reflexivity. Qed.

Lemma attempts_sleep_bound E role prompt provider mt mr n attempt w :
  (forall i, 0 <= jitter E i /\ jitter E i < 1)%Q ->
  0 <= attempt -> attempt + Z.of_nat n = mr -> (0 < n)%nat ->
  exists evs,
    log (snd (attempts rt E role prompt provider mt mr n attempt w))
      = (log w ++ evs)%list /\
    (0 <= total_sleep evs)%Q /\
    (total_sleep evs
       <= inject_Z (2 ^ (mr - 1) - 2 ^ attempt + (mr - 1 - attempt)))%Q.
Proof.
  intros Hj.
  pose (P := fun (attempt : Z) (w : world) (out : json * world) =>
    exists evs,
      log (snd out) = (log w ++ evs)%list /\
      (0 <= total_sleep evs)%Q /\
      (total_sleep evs
         <= inject_Z (2 ^ (mr - 1) - 2 ^ attempt + (mr - 1 - attempt)))%Q).
  intros H0 Hinv Hn.
  change (P attempt w (attempts rt E role prompt provider mt mr n attempt w)).
  revert attempt w H0 Hinv Hn.
  induction n as [| n IH]; intros attempt w H0 Hinv Hn; [lia |].
  assert (0 <= 2 ^ (mr - 1) - 2 ^ attempt + (mr - 1 - attempt)) as Hb.
  { assert (2 ^ attempt <= 2 ^ (mr - 1)) by (apply Z.pow_le_mono_r; lia). lia. }
  assert (forall (v : json) c,
    P attempt w (v, World c (log w ++ [EvPost role prompt mt]))) as Hstop.
  { intros v c. exists [EvPost role prompt mt]. split; [done |].
    change (total_sleep [EvPost role prompt mt]) with 0%Q.
    split; [lra |]. change 0%Q with (inject_Z 0). by rewrite <- Zle_Qle. }
  assert ((attempt <? mr - 1) = true ->
    P attempt w
      (attempts rt E role prompt provider mt mr n (attempt + 1)
         (backoff E attempt
            (World (llm_cache w) (log w ++ [EvPost role prompt mt])))))
    as Hretry.
  { intros Hlt. apply Z.ltb_lt in Hlt.
    destruct (IH (attempt + 1)
                (backoff E attempt
                   (World (llm_cache w) (log w ++ [EvPost role prompt mt]))))
      as (evs & Hlog & Hpos & Hle); [lia | lia | lia |].
    eexists (EvPost role prompt mt :: EvSleep _ :: evs).
    split.
    { rewrite Hlog. unfold backoff. cbn [log llm_cache].
      by rewrite <- !List.app_assoc. }
    rewrite total_sleep_retried.
    destruct (Hj (n_sleeps (log w ++ [EvPost role prompt mt]))) as [Hj0 Hj1].
    assert (0 <= inject_Z (2 ^ attempt))%Q as Hp.
    { change 0%Q with (inject_Z 0). rewrite <- Zle_Qle. lia. }
    split; [lra |].
    assert (inject_Z (2 ^ (mr - 1) - 2 ^ attempt + (mr - 1 - attempt))
            == inject_Z (2 ^ attempt) + 1
               + inject_Z (2 ^ (mr - 1) - 2 ^ (attempt + 1)
                           + (mr - 1 - (attempt + 1))))%Q as Heq.
    { change 1%Q with (inject_Z 1). rewrite <- !inject_Z_plus.
      apply inject_Z_injective. rewrite Z.pow_add_r by lia. lia. }
    rewrite Heq. lra. }
  cbn [attempts]. unfold post.
  destruct (server E _ role prompt mt) as [r | e].
  + destruct (status_code r =? 200).
    * destruct (choose_content rt r) as [[data [res |]] | e]; apply Hstop.
    * destruct (status_code r =? 429); [| apply Hstop].
      destruct (is_daily_limit rt r) as [[|] | e]; [apply Hstop | |];
        (destruct (attempt <? mr - 1) eqn:Hlt; [by apply Hretry | apply Hstop]).
  + destruct (attempt <? mr - 1) eqn:Hlt; [by apply Hretry | apply Hstop].
Qed.

(** X2.  When the jitter lies in [0,1), as the library draws it, the time
    slept during one call with [max_retries >= 1] is at most
    [2 ** (max_retries - 1) + max_retries - 2] seconds, whatever the server
    does: five seconds for the default of three attempts. *)
Theorem call_sleep_bounded E role prompt provider mt mr w :
  (forall i, 0 <= jitter E i /\ jitter E i < 1)%Q ->
  1 <= mr ->
  exists evs,
    log (snd (call_llm_api rt E role prompt provider mt mr w))
      = (log w ++ evs)%list /\
    (0 <= total_sleep evs)%Q /\
    (total_sleep evs <= inject_Z (2 ^ (mr - 1) + mr - 2))%Q.
Proof.
  intros Hj Hmr.
  assert (exists evs : list event,
    log w = (log w ++ evs)%list /\ (0 <= total_sleep evs)%Q /\
    (total_sleep evs <= inject_Z (2 ^ (mr - 1) + mr - 2))%Q) as Hnone.
  { exists []. rewrite List.app_nil_r. split; [done |].
    change (total_sleep []) with (inject_Z 0).
    split; [apply Qle_refl |]. rewrite <- Zle_Qle.
    assert (0 < 2 ^ (mr - 1)) by (apply Z.pow_pos_nonneg; lia).
    lia. }
  unfold call_llm_api.
  destruct (llm_cache w !! (role, prompt, provider, mt)); [exact Hnone |].
  destruct (String.eqb provider "openrouter"); [| exact Hnone].
  destruct (attempts_sleep_bound E role prompt provider mt mr (Z.to_nat mr) 0 w)
    as (evs & Hlog & Hpos & Hle); [done | lia | lia | lia |].
  exists evs. split; [done |]. split; [done |].
  replace (2 ^ (mr - 1) + mr - 2) with (2 ^ (mr - 1) - 2 ^ 0 + (mr - 1 - 0))
    by (change (2 ^ 0) with 1; lia).
  exact Hle.
Qed.

(** Without a response of status 200 the loop ends in a sentinel and
    leaves the cache alone. *)
Lemma attempts_no_200 E role prompt provider mt mr n attempt w :
  (forall i r, server E i role prompt mt = Ok r -> status_code r <> 200) ->
  exists msg w',
    attempts rt E role prompt provider mt mr n attempt w = (JStr msg, w') /\
    PyStr.startswith "❌" msg = true /\
    llm_cache w' = llm_cache w.
Proof.
  intros Hno. revert attempt w.
  induction n as [| n IH]; intros attempt w.
  - by eexists _, _.
  - cbn [attempts]. unfold post.
    destruct (server E _ role prompt mt) as [r | e] eqn:Hs.
    + apply Hno in Hs. apply Z.eqb_neq in Hs. rewrite Hs.
      destruct (status_code r =? 429); [| by eexists _, _].
      destruct (is_daily_limit rt r) as [[|] | e]; [by eexists _, _ | |];
        (destruct (attempt <? mr - 1); [| by eexists _, _]);
        edestruct IH as (msg & w' & -> & Hm & Hc); by exists msg, w'.
    + destruct (attempt <? mr - 1); [| by eexists _, _].
      edestruct IH as (msg & w' & -> & Hm & Hc). by exists msg, w'.
Qed.

(** The same for a whole call on a cache miss. *)
Lemma call_no_200 E role prompt provider mt mr w :
  llm_cache w !! (role, prompt, provider, mt) = None ->
  (forall i r, server E i role prompt mt = Ok r -> status_code r <> 200) ->
  exists msg w',
    call_llm_api rt E role prompt provider mt mr w = (JStr msg, w') /\
    PyStr.startswith "❌" msg = true /\
    llm_cache w' = llm_cache w.
Proof.
  intros Hmiss Hno. unfold call_llm_api. unfold cache_key in *. rewrite Hmiss.
  destruct (String.eqb provider "openrouter"); [| by eexists _, _].
  apply attempts_no_200, Hno.
Qed.

(** X3.  A call that never sees a response of status 200 (transport
    exceptions, rate limits, other statuses, an unsupported provider, no
    attempt allowed) returns a string that starts with the failure marker
    and stores nothing: the cache is as before, so that the same call is
    tried against the server again the next time. *)
Theorem transient_failure_not_cached E role prompt provider mt mr w :
  llm_cache w !! (role, prompt, provider, mt) = None ->
  (forall i r, server E i role prompt mt = Ok r -> status_code r <> 200) ->
  exists msg,
    fst (call_llm_api rt E role prompt provider mt mr w) = JStr msg /\
    PyStr.startswith "❌" msg = true /\
    llm_cache (snd (call_llm_api rt E role prompt provider mt mr w))
      = llm_cache w.
Proof.
  intros Hmiss Hno.
  destruct (call_no_200 E role prompt provider mt mr w Hmiss Hno)
    as (msg & w' & -> & Hm & Hc).
  by exists msg.
Qed.

(** A response of status 200 with a message content, at the first request
    or after [k] retried ones, ends the call: the content is returned and
    stored. *)
Lemma call_content E role prompt mt mr w k r data result :
  llm_cache w !! (role, prompt, "openrouter", mt) = None ->
  (k < Z.to_nat mr)%nat ->
  (forall i, (i < k)%nat ->
     retryable rt (server E (n_posts (log w) + i) role prompt mt) = true) ->
  server E (n_posts (log w) + k) role prompt mt = Ok r ->
  status_code r = 200 ->
  choose_content rt r = Ok (data, Some result) ->
  call_llm_api rt E role prompt "openrouter" mt mr w =
    (result,
     World (<[(role, prompt, "openrouter", mt) := result]> (llm_cache w))
       (log w ++ backoff_trace E role prompt mt 0 (n_sleeps (log w)) (S k))).
Proof.
  intros Hmiss Hk Hr Hs H200 Hc.
  destruct (call_after_retries rt E role prompt mt mr w k Hmiss Hk Hr) as (n & ->).
  cbn [attempts]. unfold post. cbn [log llm_cache].
  rewrite n_posts_after_retries, Hs, H200.
  change (200 =? 200) with true. cbv iota. rewrite Hc.
  unfold store_result, backoff_trace. cbn [llm_cache log].
  by rewrite <- List.app_assoc.
Qed.

(** X4.  On a cache miss, when a request, the first one or one after [k]
    retried attempts, is answered with status 200 and a body whose first
    choice has a message content, the client returns that content and
    stores it under [(role, prompt, provider, max_tokens)]; after any
    further calls of the client a call with the same key returns the same
    content without a request, whatever the server would answer then. *)
Theorem success_cached E role prompt mt mr w k r data result :
  llm_cache w !! (role, prompt, "openrouter", mt) = None ->
  (k < Z.to_nat mr)%nat ->
  (forall i, (i < k)%nat ->
     retryable rt (server E (n_posts (log w) + i) role prompt mt) = true) ->
  server E (n_posts (log w) + k) role prompt mt = Ok r ->
  status_code r = 200 ->
  choose_content rt r = Ok (data, Some result) ->
  let call := call_llm_api rt E role prompt "openrouter" mt mr w in
  fst call = result /\
  log (snd call) =
    (log w ++ backoff_trace E role prompt mt 0 (n_sleeps (log w)) (S k))%list /\
  llm_cache (snd call)
    = <[(role, prompt, "openrouter", mt) := result]> (llm_cache w) /\
  forall calls E' mr',
    let later := run_calls rt calls (snd call) in
    call_llm_api rt E' role prompt "openrouter" mt mr' later = (result, later).
Proof.
  intros Hmiss Hk Hr Hs H200 Hc call. subst call.
  rewrite (call_content E role prompt mt mr w k r data result) by done.
  cbn [fst snd llm_cache log].
  split; [done |]. split; [done |]. split; [done |].
  intros calls E' mr'. apply call_llm_api_hit.
  apply run_calls_cache_mono. simpl. apply lookup_insert_eq.
Qed.

(** X5.  With a provider other than [openrouter], or with a retry bound
    that allows no attempt, an uncached call returns its sentinel and
    leaves the world as it is: no request, no sleep, nothing cached. *)
Theorem no_attempt_no_effect E role prompt provider mt mr w :
  llm_cache w !! (role, prompt, provider, mt) = None ->
  provider <> "openrouter" \/ mr <= 0 ->
  call_llm_api rt E role prompt provider mt mr w =
    (JStr (if String.eqb provider "openrouter"
           then "❌ Max retries (" ++ str_of_Z mr ++ ") exceeded"
           else "❌ Unsupported provider: " ++ provider), w).
Proof.
  intros Hmiss H. unfold call_llm_api. unfold cache_key in *. rewrite Hmiss.
  destruct (String.eqb provider "openrouter") eqn:Ep; [| done].
  destruct H as [H | H]; [by apply String.eqb_eq in Ep |].
  replace (Z.to_nat mr) with O by lia. reflexivity.
Qed.

(** X6.  A completion whose message content is not a string (a [null]
    content, for one) makes [call_llm_api_json] raise [AttributeError] at
    the test for the failure marker, outside its handlers, instead of
    returning an error record; the content is cached, so every later call
    with the same arguments raises again without a request. *)
Theorem json_call_raises_on_non_string E role prompt mt mr w r data result :
  llm_cache w !! (role, prompt ++ json_instruction, "openrouter", mt) = None ->
  1 <= mr ->
  server E (n_posts (log w)) role (prompt ++ json_instruction) mt = Ok r ->
  status_code r = 200 ->
  choose_content rt r = Ok (data, Some result) ->
  is_str result = false ->
  let call := call_llm_api_json rt E role prompt "openrouter" mt mr w in
  fst call = raise_operand rt AttributeError result /\
  forall E' mr',
    call_llm_api_json rt E' role prompt "openrouter" mt mr' (snd call)
      = (raise_operand rt AttributeError result, snd call).
Proof.
  intros Hmiss Hmr Hs H200 Hc Hstr call. subst call.
  unfold call_llm_api_json.
  rewrite (call_content E role (prompt ++ json_instruction) mt mr w O r data result);
    [| done | lia | intros i Hi; lia | by rewrite Nat.add_0_r | done | done].
  split.
  - by destruct result.
  - intros E' mr'. cbn [snd].
    rewrite (call_llm_api_hit rt E' role (prompt ++ json_instruction)
               "openrouter" mt mr' _ result).
    + by destruct result.
    + destruct result; simpl; apply lookup_insert_eq.
Qed.

End Facts.

Import Demo.

Lemma call_sleep_bounded_witness :
  exists evs,
    log (snd (call_llm_api demo_runtime
                (env_answering (Raise (Exn RequestException "timed out")))
                "r" "p" "openrouter" 700 3 fresh_world))
      = (log fresh_world ++ evs)%list /\
    (0 <= total_sleep evs)%Q /\
    (total_sleep evs <= inject_Z (2 ^ (3 - 1) + 3 - 2))%Q.
Proof.
  apply (call_sleep_bounded demo_runtime
           (env_answering (Raise (Exn RequestException "timed out")))
           "r" "p" "openrouter" 700 3 fresh_world).
  - intros i. simpl. unfold Qle, Qlt. simpl. lia.
  - lia.
Defined.

Lemma transient_failure_not_cached_witness :
  exists msg,
    fst (call_llm_api demo_runtime
           (env_answering (Ok (Response 503 "Service Unavailable")))
           "r" "p" "openrouter" 700 3 fresh_world) = JStr msg /\
    PyStr.startswith "❌" msg = true /\
    llm_cache (snd (call_llm_api demo_runtime
           (env_answering (Ok (Response 503 "Service Unavailable")))
           "r" "p" "openrouter" 700 3 fresh_world)) = llm_cache fresh_world.
Proof.
  apply (transient_failure_not_cached demo_runtime
           (env_answering (Ok (Response 503 "Service Unavailable")))
           "r" "p" "openrouter" 700 3 fresh_world (lookup_empty _)).
  intros i r H. simpl in H. inversion H. simpl. lia.
Defined.

Lemma success_cached_witness :
  fst (call_llm_api demo_runtime (env_answering (Ok (completion (JStr "Data Analyst"))))
         "r" "p" "openrouter" 700 3 fresh_world) = JStr "Data Analyst".
Proof.
  apply (success_cached demo_runtime
           (env_answering (Ok (completion (JStr "Data Analyst"))))
           "r" "p" 700 3 fresh_world O (completion (JStr "Data Analyst"))
           (JObj [("choices",
                   JArr [JObj [("message",
                                JObj [("content", JStr "Data Analyst")])]])])
           (JStr "Data Analyst")
           (lookup_empty _) ltac:(simpl; lia) ltac:(intros i Hi; lia)
           eq_refl eq_refl ltac:(vm_compute; reflexivity)).
Defined.

Lemma no_attempt_no_effect_witness :
  call_llm_api demo_runtime (env_answering (Ok (completion (JStr "unused"))))
    "r" "p" "openai" 700 3 fresh_world
  = (JStr "❌ Unsupported provider: openai", fresh_world).
Proof.
  apply (no_attempt_no_effect demo_runtime
           (env_answering (Ok (completion (JStr "unused"))))
           "r" "p" "openai" 700 3 fresh_world (lookup_empty _)).
  left. discriminate.
Defined.

Lemma json_call_raises_on_non_string_witness :
  fst (call_llm_api_json demo_runtime (env_answering (Ok (completion JNull)))
         "r" "p" "openrouter" 400 3 fresh_world)
  = raise_operand demo_runtime AttributeError JNull.
Proof.
  apply (json_call_raises_on_non_string demo_runtime
           (env_answering (Ok (completion JNull)))
           "r" "p" 400 3 fresh_world (completion JNull)
           (JObj [("choices",
                   JArr [JObj [("message", JObj [("content", JNull)])]])])
           JNull
           (lookup_empty _) ltac:(lia) eq_refl eq_refl
           ltac:(vm_compute; reflexivity) eq_refl).
Defined.

End ClientFacts.

(** * Further properties of the vector store *)

Module StoreFacts.
Import Faiss Legacy FaissFacts.
Section Facts.

Context {vec meta dist : Type}.
Variable encode : string -> vec.
Variable index_search : list vec -> vec -> Z -> list (dist * Z).
Variable one_minus : dist -> dist.

Abbreviation store := (@Faiss.store vec meta).
Abbreviation consistent := (Faiss.consistent encode).

(** *** Restart *)

Lemma new_handler_consistent ifs (cfs : gmap string (list (@entry meta))) :
  files_aligned encode ifs cfs -> consistent (new_handler ifs cfs).
Proof.
  intros Hf. split; [exact Hf |]. intros u Hu. simpl in Hu.
  by apply not_elem_of_empty in Hu.
Qed.

(** A new handler reads back what the files of a data type hold. *)
Lemma get_corpus_new_handler (ifs : gmap string (list vec))
    (cfs : gmap string (list (@entry meta))) t :
  get_corpus t (new_handler ifs cfs)
    = Ok (file_or_empty cfs t, _ensure_loaded t (new_handler ifs cfs)) /\
  in_memory t (_ensure_loaded t (new_handler ifs cfs))
    = Some (file_or_empty ifs t, file_or_empty cfs t).
Proof.
  unfold get_corpus, _ensure_loaded, in_memory, lookup_key, file_or_empty.
  rewrite decide_False by (simpl; apply not_elem_of_empty).
  cbn [indices corpora index_files corpus_files new_handler].
  by rewrite !lookup_insert_eq.
Qed.

(** X7.  What [add] stored survives the handler: a new handler constructed
    over the files that the call left reads the corpus of the data type
    back with the new item as its last entry, holds the same index and
    corpus in memory as the old handler did, and is in an aligned state. *)
Theorem stored_item_survives_restart (s : store) t text (m : meta) r s' :
  consistent s -> is_blank text = false ->
  add encode text m t s = Ok (r, s') ->
  let h := new_handler (index_files s') (corpus_files s') in
  exists index0 corpus0 h',
    in_memory t (_ensure_loaded t s) = Some (index0, corpus0) /\
    get_corpus t h = Ok ((corpus0 ++ [(text, m)])%list, h') /\
    in_memory t h' = in_memory t s' /\
    in_memory t h'
      = Some ((index0 ++ [encode text])%list, (corpus0 ++ [(text, m)])%list) /\
    consistent h'.
Proof.
  intros Hc Hb Ha h.
  destruct (add_stored encode text m t s Hc Hb)
    as (s1 & i0 & c0 & Hm0 & E & Hc1 & Hm1 & Hd1).
  rewrite E in Ha. inversion Ha; subst r s1. clear Ha.
  destruct (get_corpus_new_handler (index_files s') (corpus_files s') t)
    as [Hg Hm].
  unfold on_disk in Hd1. unfold file_or_empty in Hg, Hm.
  destruct (index_files s' !! t) as [i |]; [| done].
  destruct (corpus_files s' !! t) as [c |]; [| done].
  inversion Hd1; subst i c.
  exists i0, c0, (_ensure_loaded t h).
  split; [done |]. split; [exact Hg |]. subst h.
  split; [by rewrite Hm, Hm1 |].
  split; [exact Hm |].
  apply ensure_loaded_consistent, new_handler_consistent. apply Hc1.
Qed.

(** *** Separation of the data types *)

Lemma ensure_loaded_other t u (s : store) :
  u <> t ->
  in_memory u (_ensure_loaded t s) = in_memory u s /\
  on_disk u (_ensure_loaded t s) = on_disk u s.
Proof.
  intros Hne. unfold _ensure_loaded. case_decide; [done |].
  unfold in_memory, on_disk. simpl. by rewrite !lookup_insert_ne.
Qed.

Lemma save_other t u (s s' : store) :
  u <> t -> save t s = Ok s' ->
  in_memory u s' = in_memory u s /\ on_disk u s' = on_disk u s.
Proof.
  intros Hne. unfold save.
  destruct (ensure_loaded_other t u s Hne) as [Hm Hd].
  destruct (lookup_key (indices _) t) as [i |]; simpl; [| done].
  destruct (lookup_key (corpora _) t) as [c |]; simpl; [| done].
  intros H. inversion H; subst s'. clear H.
  rewrite <- Hm, <- Hd. unfold in_memory, on_disk. simpl.
  by rewrite !lookup_insert_ne.
Qed.

(** X8.  The data types are kept apart: [add], [clear], [save], [search]
    and [get_corpus] on one data type leave what the handler holds in
    memory and what the files hold for every other data type as they
    were. *)
Theorem other_data_types_untouched t u (s : store) :
  u <> t ->
  (forall text m r s', add encode text m t s = Ok (r, s') ->
     in_memory u s' = in_memory u s /\ on_disk u s' = on_disk u s) /\
  (forall s', clear t s = Ok s' ->
     in_memory u s' = in_memory u s /\ on_disk u s' = on_disk u s) /\
  (forall s', save t s = Ok s' ->
     in_memory u s' = in_memory u s /\ on_disk u s' = on_disk u s) /\
  (forall q k f r s',
     search encode index_search one_minus q t k f s = Ok (r, s') ->
     in_memory u s' = in_memory u s /\ on_disk u s' = on_disk u s) /\
  (forall c s', get_corpus t s = Ok (c, s') ->
     in_memory u s' = in_memory u s /\ on_disk u s' = on_disk u s).
Proof.
  intros Hne. pose proof (ensure_loaded_other t u s Hne) as [Hm Hd].
  split; [| split; [| split; [| split]]].
  - intros text m r s'. unfold add.
    destruct (is_blank text).
    { intros H. inversion H; subst. done. }
    destruct (lookup_key (indices _) t) as [i |]; simpl; [| done].
    destruct (lookup_key _ t) as [c |]; simpl; [| done].
    destruct (save t _) as [s1 |] eqn:Hs; simpl; [| done].
    intros H. inversion H; subst r s1. clear H.
    apply (save_other t u _ _ Hne) in Hs as [Hm1 Hd1].
    rewrite Hm1, Hd1, <- Hm, <- Hd. unfold in_memory, on_disk. simpl.
    by rewrite !lookup_insert_ne.
  - intros s' Hs. unfold clear in Hs.
    apply (save_other t u _ _ Hne) in Hs as [Hm1 Hd1].
    rewrite Hm1, Hd1. unfold in_memory, on_disk. simpl.
    by rewrite !lookup_insert_ne.
  - intros s'. by apply save_other.
  - intros q k f r s' Hs.
    apply (search_state encode index_search one_minus) in Hs. by subst s'.
  - intros c s' Hs. apply get_corpus_state in Hs. by subst s'.
Qed.

(** X9.  On a data type that the handler has loaded, [clear] does what its
    name says: the index and the corpus are empty in memory and on disk,
    and from then on [get_corpus] returns the empty list and [search]
    returns no result, for every query, without consulting the index. *)
Theorem clear_loaded_empties t (s : store) :
  t ∈ loaded_types s ->
  exists s',
    clear t s = Ok s' /\
    in_memory t s' = Some ([], []) /\
    on_disk t s' = Some ([], []) /\
    get_corpus t s' = Ok ([], s') /\
    forall q k f, search encode index_search one_minus q t k f s' = Ok ([], s').
Proof.
  intros Hl. unfold clear. cbn [indices corpora loaded_types index_files corpus_files].
  set (s2 := Store _ _ _ _ _).
  assert (t ∈ loaded_types s2) as Hl2 by exact Hl.
  rewrite (save_loaded_eq t s2 [] [] Hl2) by apply lookup_insert_eq.
  eexists. split; [reflexivity |].
  set (s3 := Store _ _ _ _ _).
  assert (t ∈ loaded_types s3) as Hl3 by exact Hl.
  assert (corpora s3 !! t = Some []) as Hc3 by apply lookup_insert_eq.
  split; [unfold in_memory; simpl; by rewrite !lookup_insert_eq |].
  split; [unfold on_disk; simpl; by rewrite !lookup_insert_eq |].
  split; [by apply get_corpus_loaded |].
  intros q k f. unfold search. rewrite (ensure_loaded_idem t s3 Hl3).
  unfold lookup_key. by rewrite Hc3.
Qed.

(** [add] of a text that is not blank, on a loaded data type. *)
Lemma add_loaded_eq text (m : meta) t (s : store) index corpus :
  t ∈ loaded_types s ->
  indices s !! t = Some index -> corpora s !! t = Some corpus ->
  is_blank text = false ->
  add encode text m t s =
    Ok ("✅ Stored in FAISS.",
        Store (<[t := (index ++ [encode text])%list]> (indices s))
              (<[t := (corpus ++ [(text, m)])%list]> (corpora s))
              (loaded_types s)
              (<[t := (index ++ [encode text])%list]> (index_files s))
              (<[t := (corpus ++ [(text, m)])%list]> (corpus_files s))).
Proof.
  intros Hl Hi Hc Hb. unfold add. rewrite (ensure_loaded_idem t s Hl), Hb.
  unfold lookup_key at 1. rewrite Hi. cbn [res_bind].
  unfold lookup_key at 1. cbn [corpora]. unfold entry in *.
  rewrite Hc. cbn [res_bind].
  cbn [indices corpora loaded_types index_files corpus_files].
  set (s2 := Store _ _ _ _ _).
  rewrite (save_loaded_eq t s2 (index ++ [encode text])%list
             (corpus ++ [(text, m)])%list Hl)
    by apply lookup_insert_eq.
  reflexivity.
Qed.

End Facts.

(** *** The legacy data *)

Section LegacyFacts.

Context {vec : Type}.
Variable encode : string -> vec.

Abbreviation jstore := (@Faiss.store vec json).

Lemma migrate_corpus_loaded t lc (s : jstore) c :
  corpora s !! t = Some c ->
  migrate_corpus t lc s =
    (true, Store (indices s) (<[t := (c ++ converted lc)%list]> (corpora s))
             (loaded_types s) (index_files s) (corpus_files s)).
Proof.
  revert s c. induction lc as [| [text filename] lc IH]; intros s c Hc.
  - simpl. rewrite List.app_nil_r, (insert_id _ _ _ Hc). by destruct s.
  - cbn [migrate_corpus]. rewrite Hc.
    rewrite (IH _ (c ++ [(text, filename_meta filename)])%list)
      by apply lookup_insert_eq.
    cbn [indices corpora loaded_types index_files corpus_files].
    rewrite insert_insert_eq.
    change (converted ((text, filename) :: lc))
      with ((text, filename_meta filename) :: converted lc).
    by rewrite <- List.app_assoc.
Qed.

(** The state after a migration that found both legacy files. *)
Lemma migrate_legacy_data_eq L t (s : jstore) li lc i0 c0 :
  legacy_index L = Some li -> legacy_corpus L = Some lc ->
  in_memory t (_ensure_loaded t s) = Some (i0, c0) ->
  let s1 := _ensure_loaded t s in
  migrate_legacy_data L t s =
    (true,
     Store (<[t := (i0 ++ li)%list]> (indices s1))
           (<[t := (c0 ++ converted lc)%list]> (corpora s1))
           (loaded_types s1)
           (<[t := (i0 ++ li)%list]> (index_files s1))
           (<[t := (c0 ++ converted lc)%list]> (corpus_files s1))).
Proof.
  intros Hli Hlc Hm s1. unfold migrate_legacy_data. rewrite Hli, Hlc.
  fold s1. unfold in_memory in Hm. fold s1 in Hm.
  destruct (indices s1 !! t) as [i |] eqn:Hi; [| done].
  destruct (corpora s1 !! t) as [c |] eqn:Hc; [| done].
  inversion Hm; subst i c. clear Hm.
  rewrite (migrate_corpus_loaded t lc _ c0) by exact Hc.
  cbn [indices corpora loaded_types index_files corpus_files].
  set (s2 := Store _ _ _ _ _).
  assert (t ∈ loaded_types s2) as Hl2 by exact (ensure_loaded_loaded encode t s).
  rewrite (save_loaded_eq t s2 (i0 ++ li)%list (c0 ++ converted lc)%list Hl2)
    by apply lookup_insert_eq.
  reflexivity.
Qed.

(** X10.  [migrate_legacy_data] returns [False] and changes nothing when
    one of the two legacy files is missing.  When both are there it appends
    the legacy vectors to the index and the converted legacy entries to the
    corpus of the target data type, in memory and on disk, and returns
    [True]; it keeps no record of having done so: a second call appends
    the same vectors and entries once more. *)
Theorem migrate_legacy_appends L t (s : jstore) :
  (legacy_index L = None \/ legacy_corpus L = None ->
     migrate_legacy_data L t s = (false, s)) /\
  (forall li lc i0 c0,
     legacy_index L = Some li -> legacy_corpus L = Some lc ->
     in_memory t (_ensure_loaded t s) = Some (i0, c0) ->
     exists s' s'',
       migrate_legacy_data L t s = (true, s') /\
       in_memory t s' = Some ((i0 ++ li)%list, (c0 ++ converted lc)%list) /\
       on_disk t s' = in_memory t s' /\
       migrate_legacy_data L t s' = (true, s'') /\
       in_memory t s''
         = Some ((i0 ++ li ++ li)%list,
                 (c0 ++ converted lc ++ converted lc)%list) /\
       on_disk t s'' = in_memory t s'').
Proof.
  split.
  - unfold migrate_legacy_data. intros [-> | ->]; [done |].
    by destruct (legacy_index L).
  - intros li lc i0 c0 Hli Hlc Hm.
    rewrite (migrate_legacy_data_eq L t s li lc i0 c0 Hli Hlc Hm).
    set (s' := Store _ _ _ _ _).
    assert (in_memory t s' = Some ((i0 ++ li)%list, (c0 ++ converted lc)%list))
      as Hm'.
    { unfold in_memory. subst s'. simpl. by rewrite !lookup_insert_eq. }
    assert (on_disk t s' = in_memory t s') as Hd'.
    { rewrite Hm'. unfold on_disk. subst s'. simpl. by rewrite !lookup_insert_eq. }
    assert (t ∈ loaded_types s') as Hl' by exact (ensure_loaded_loaded encode t s).
    assert (in_memory t (_ensure_loaded t s')
            = Some ((i0 ++ li)%list, (c0 ++ converted lc)%list)) as Hm1.
    { by rewrite (ensure_loaded_idem t s' Hl'). }
    pose proof (migrate_legacy_data_eq L t s' li lc _ _ Hli Hlc Hm1) as H2.
    exists s'. eexists. split; [reflexivity |]. split; [exact Hm' |].
    split; [exact Hd' |]. split; [exact H2 |].
    unfold in_memory, on_disk. simpl. rewrite !lookup_insert_eq.
    by rewrite <- !List.app_assoc.
Qed.

Lemma aligned_app_inv (i0 li : list vec) (c0 lc : list (@entry json)) :
  aligned encode i0 c0 ->
  aligned encode (i0 ++ li)%list (c0 ++ lc)%list <-> aligned encode li lc.
Proof.
  unfold aligned. intros ->. rewrite List.map_app. split.
  - apply List.app_inv_head.
  - by intros ->.
Qed.

(** X11.  From an aligned state, a migration that finds both legacy files
    leaves the handler aligned exactly when the legacy files are: the
    legacy index must hold, position by position, the embeddings of the
    legacy texts.  The migration checks neither this nor the lengths. *)
Theorem migrate_legacy_alignment L t (s : jstore) li lc :
  consistent encode s ->
  legacy_index L = Some li -> legacy_corpus L = Some lc ->
  exists s',
    migrate_legacy_data L t s = (true, s') /\
    (consistent encode s' <-> aligned encode li (converted lc)).
Proof.
  intros Hc Hli Hlc.
  pose proof (ensure_loaded_consistent encode t s Hc) as Hc1.
  pose proof (ensure_loaded_loaded encode t s) as Hl.
  destruct (consistent_loaded encode t _ Hc1 Hl) as (i0 & c0 & Hi & Hco & Ha).
  assert (in_memory t (_ensure_loaded t s) = Some (i0, c0)) as Hm.
  { unfold in_memory. by rewrite Hi, Hco. }
  rewrite (migrate_legacy_data_eq L t s li lc i0 c0 Hli Hlc Hm).
  eexists. split; [reflexivity |].
  destruct Hc1 as [Hf1 Hm1]. set (s1 := _ensure_loaded t s) in *.
  split.
  - intros [Hf' _]. specialize (Hf' t). unfold file_or_empty in Hf'.
    simpl in Hf'. rewrite !lookup_insert_eq in Hf'.
    by apply (aligned_app_inv i0 li c0 (converted lc) Ha).
  - intros Hal.
    assert (aligned encode (i0 ++ li)%list (c0 ++ converted lc)%list) as Hal'
      by (by apply aligned_app_inv).
    split.
    + intros u. unfold file_or_empty. simpl.
      destruct (decide (u = t)) as [-> | Hne].
      * by rewrite !lookup_insert_eq.
      * rewrite !lookup_insert_ne by done. apply (Hf1 u).
    + intros u Hu. simpl in *.
      destruct (decide (u = t)) as [-> | Hne].
      * do 2 eexists. rewrite !lookup_insert_eq. by repeat split.
      * destruct (Hm1 u Hu) as (i & c & ? & ? & ?). exists i, c.
        by rewrite !lookup_insert_ne.
Qed.

Lemma migrate_legacy_missing L t (s : jstore) :
  legacy_index L = None \/ legacy_corpus L = None ->
  migrate_legacy_data L t s = (false, s).
Proof.
  unfold migrate_legacy_data. intros [-> | ->]; [done |].
  by destruct (legacy_index L).
Qed.

Lemma add_loaded_disk text (m : json) t (s : jstore) index corpus :
  t ∈ loaded_types s -> in_memory t s = Some (index, corpus) ->
  is_blank text = false ->
  exists s',
    add encode text m t s = Ok ("✅ Stored in FAISS.", s') /\
    on_disk t s'
      = Some ((index ++ [encode text])%list, (corpus ++ [(text, m)])%list).
Proof.
  intros Hl Hm Hb. unfold in_memory in Hm.
  destruct (indices s !! t) as [i |] eqn:Hi; [| done].
  destruct (corpora s !! t) as [c |] eqn:Hc; [| done].
  inversion Hm; subst i c.
  rewrite (add_loaded_eq encode text m t s index corpus Hl Hi Hc Hb).
  eexists. split; [reflexivity |].
  unfold on_disk. simpl. by rewrite !lookup_insert_eq.
Qed.

(** One call of [embed_and_store] over given files. *)
Lemma embed_and_store_disk L text filename (ifs : gmap string (list vec))
    (cfs : gmap string (list (@entry json))) :
  is_blank text = false ->
  let i0 := file_or_empty ifs "resume" in
  let c0 := file_or_empty cfs "resume" in
  exists s',
    embed_and_store encode L text filename ifs cfs
      = Ok ("✅ Stored in FAISS.", s') /\
    on_disk "resume" s'
      = Some ((i0 ++ fst (to_migrate L c0) ++ [encode text])%list,
              (c0 ++ snd (to_migrate L c0)
                  ++ [(text, filename_meta filename)])%list).
Proof.
  intros Hb i0 c0. unfold embed_and_store.
  destruct (get_corpus_new_handler ifs cfs "resume") as [Hg Hm].
  rewrite Hg. cbn [res_bind]. fold c0 i0 in Hm |- *.
  set (h1 := _ensure_loaded "resume" (new_handler ifs cfs)) in *.
  assert ("resume" ∈ loaded_types h1) as Hl1
    by exact (ensure_loaded_loaded encode "resume" _).
  unfold to_migrate.
  destruct c0 as [| e c0'] eqn:Ec0.
  - destruct (legacy_index L) as [li |] eqn:Hli;
      [destruct (legacy_corpus L) as [lc |] eqn:Hlc |].
    + assert (in_memory "resume" (_ensure_loaded "resume" h1) = Some (i0, []))
        as Hm1 by (by rewrite (ensure_loaded_idem "resume" h1 Hl1)).
      rewrite (migrate_legacy_data_eq L "resume" h1 li lc i0 [] Hli Hlc Hm1).
      cbn [snd fst]. rewrite (ensure_loaded_idem "resume" h1 Hl1).
      set (h2 := Store _ _ _ _ _).
      destruct (add_loaded_disk text (filename_meta filename) "resume" h2
                  (i0 ++ li)%list ([] ++ converted lc)%list Hl1)
        as (s' & Ha & Hd); [| done |].
      { unfold in_memory. subst h2. simpl. by rewrite !lookup_insert_eq. }
      exists s'. split; [exact Ha |]. rewrite Hd.
      by rewrite <- !List.app_assoc.
    + rewrite (migrate_legacy_missing L "resume" h1) by (by right).
      cbn [snd fst].
      destruct (add_loaded_disk text (filename_meta filename) "resume" h1
                  i0 [] Hl1 Hm Hb) as (s' & Ha & Hd).
      by exists s'.
    + rewrite (migrate_legacy_missing L "resume" h1) by (by left).
      cbn [snd fst].
      destruct (add_loaded_disk text (filename_meta filename) "resume" h1
                  i0 [] Hl1 Hm Hb) as (s' & Ha & Hd).
      by exists s'.
  - cbn [snd fst].
    destruct (add_loaded_disk text (filename_meta filename) "resume" h1
                i0 (e :: c0') Hl1 Hm Hb) as (s' & Ha & Hd).
    by exists s'.
Qed.

(** X12.  [embed_and_store], which constructs a handler of its own at
    every call, appends the new resume to the resume files; before that it
    appends the legacy data when both legacy files exist and the resume
    corpus is empty.  As the corpus is not empty after a stored resume, the
    next call migrates nothing: the legacy entries are there once. *)
Theorem embed_and_store_migrates_once L text filename text2 filename2
    (ifs : gmap string (list vec)) (cfs : gmap string (list (@entry json))) :
  is_blank text = false -> is_blank text2 = false ->
  let i0 := file_or_empty ifs "resume" in
  let c0 := file_or_empty cfs "resume" in
  let i1 := (i0 ++ fst (to_migrate L c0) ++ [encode text])%list in
  let c1 := (c0 ++ snd (to_migrate L c0)
                ++ [(text, filename_meta filename)])%list in
  exists s' s'',
    embed_and_store encode L text filename ifs cfs
      = Ok ("✅ Stored in FAISS.", s') /\
    on_disk "resume" s' = Some (i1, c1) /\
    embed_and_store encode L text2 filename2 (index_files s') (corpus_files s')
      = Ok ("✅ Stored in FAISS.", s'') /\
    on_disk "resume" s''
      = Some ((i1 ++ [encode text2])%list,
              (c1 ++ [(text2, filename_meta filename2)])%list).
Proof.
  intros Hb Hb2 i0 c0 i1 c1.
  destruct (embed_and_store_disk L text filename ifs cfs Hb) as (s' & Ha & Hd).
  destruct (embed_and_store_disk L text2 filename2 (index_files s')
              (corpus_files s') Hb2) as (s'' & Ha2 & Hd2).
  exists s', s''. split; [exact Ha |]. split; [exact Hd |].
  split; [exact Ha2 |]. rewrite Hd2. clear Ha2 Hd2.
  assert (file_or_empty (index_files s') "resume" = i1 /\
          file_or_empty (corpus_files s') "resume" = c1) as [-> ->].
  { unfold on_disk in Hd. unfold file_or_empty at 1 2.
    destruct (index_files s' !! "resume") as [i |]; [| done].
    destruct (corpus_files s' !! "resume") as [c |]; [| done].
    by inversion Hd. }
  assert (to_migrate L c1 = ([], [])) as ->; [| done].
  unfold to_migrate at 1.
  destruct c1 as [| e c1'] eqn:Ec1; [| done].
  subst c1. apply List.app_eq_nil in Ec1 as [_ Ec1].
  by apply List.app_eq_nil in Ec1 as [_ Ec1].
Qed.

End LegacyFacts.

Import Demo.

Lemma demo_store_consistent : Faiss.consistent demo_encode demo_store.
Proof.
  apply new_handler_consistent. intros t. unfold file_or_empty.
  destruct (decide (t = "course")) as [-> | Hne].
  - by rewrite !lookup_singleton_eq.
  - by rewrite !lookup_singleton_ne.
Qed.

Lemma empty_files_aligned :
  files_aligned (meta:=json) demo_encode ∅ ∅.
Proof. intros t. unfold file_or_empty. by rewrite !lookup_empty. Qed.

Lemma stored_item_survives_restart_witness :
  exists r s' h',
    add demo_encode "algebra" "basic" "course" demo_store = Ok (r, s') /\
    get_corpus "course" (new_handler (index_files s') (corpus_files s'))
      = Ok ([("abc", "intro"); ("hello", "advanced"); ("algebra", "basic")], h').
Proof.
  destruct (add demo_encode "algebra" "basic" "course" demo_store)
    as [[r s'] |] eqn:Ha; [| vm_compute in Ha; discriminate Ha].
  destruct (stored_item_survives_restart demo_encode demo_store "course"
              "algebra" "basic" r s' demo_store_consistent eq_refl Ha)
    as (i0 & c0 & h' & Hm & Hg & _).
  exists r, s', h'. split; [reflexivity |].
  vm_compute in Hm. inversion Hm; subst i0 c0. exact Hg.
Defined.

Lemma other_data_types_untouched_witness :
  exists s',
    clear "resume" demo_store = Ok s' /\
    in_memory "course" s' = in_memory "course" demo_store /\
    on_disk "course" s' = on_disk "course" demo_store.
Proof.
  pose proof (other_data_types_untouched demo_encode flat_l2_search
                (fun d => 1 - d) "resume" "course" demo_store)
    as (_ & Hclear & _); [discriminate |].
  destruct (clear "resume" demo_store) as [s' | e] eqn:E;
    [| vm_compute in E; discriminate E].
  exists s'. split; [reflexivity |]. by apply Hclear.
Defined.

Lemma clear_loaded_empties_witness :
  exists s',
    clear "course" (_ensure_loaded "course" demo_store) = Ok s' /\
    in_memory "course" s' = Some ([], []) /\
    on_disk "course" s' = Some ([], []).
Proof.
  destruct (clear_loaded_empties demo_encode flat_l2_search (fun d => 1 - d)
              "course" (_ensure_loaded "course" demo_store)
              (ensure_loaded_loaded demo_encode "course" demo_store))
    as (s' & Hc & Hm & Hd & _).
  by exists s'.
Defined.

Lemma migrate_legacy_appends_witness :
  exists s' s'',
    migrate_legacy_data demo_legacy "resume" demo_resumes = (true, s') /\
    in_memory "resume" s'
      = Some ([3], converted [("old", "1_old.pdf")]) /\
    migrate_legacy_data demo_legacy "resume" s' = (true, s'') /\
    in_memory "resume" s''
      = Some ([3; 3],
              converted [("old", "1_old.pdf"); ("old", "1_old.pdf")]).
Proof.
  destruct (migrate_legacy_appends demo_encode demo_legacy "resume" demo_resumes)
    as [_ H].
  destruct (H [3] [("old", "1_old.pdf")] [] [] eq_refl eq_refl eq_refl)
    as (s' & s'' & H1 & H2 & _ & H3 & H4 & _).
  by exists s', s''.
Defined.

Lemma migrate_legacy_alignment_witness :
  exists s',
    migrate_legacy_data demo_legacy "resume" demo_resumes = (true, s') /\
    Faiss.consistent demo_encode s'.
Proof.
  destruct (migrate_legacy_alignment demo_encode demo_legacy "resume"
              demo_resumes [3] [("old", "1_old.pdf")]
              (new_handler_consistent demo_encode ∅ ∅ empty_files_aligned)
              eq_refl eq_refl) as (s' & Hm & Hiff).
  exists s'. split; [exact Hm |]. apply Hiff. reflexivity.
Defined.

Lemma embed_and_store_migrates_once_witness :
  exists s' s'',
    embed_and_store demo_encode demo_legacy "new" "2_new.pdf" ∅ ∅
      = Ok ("✅ Stored in FAISS.", s') /\
    embed_and_store demo_encode demo_legacy "newer" "3_newer.pdf"
        (index_files s') (corpus_files s')
      = Ok ("✅ Stored in FAISS.", s'') /\
    on_disk "resume" s''
      = Some ([3; 3; 5],
              converted [("old", "1_old.pdf"); ("new", "2_new.pdf");
                         ("newer", "3_newer.pdf")]).
Proof.
  destruct (embed_and_store_migrates_once demo_encode demo_legacy
              "new" "2_new.pdf" "newer" "3_newer.pdf" ∅ ∅ eq_refl eq_refl)
    as (s' & s'' & H1 & _ & H2 & H3).
  exists s', s''. split; [exact H1 |]. split; [exact H2 |]. exact H3.
Defined.

End StoreFacts.

(** * Properties of texts *)

Module StrFacts.
Import PyStr Notions.

(** *** Bytes *)

Lemma of_bytes_bytes s : of_bytes (bytes s) = s.
Proof.
  unfold of_bytes, bytes. rewrite List.map_map.
  rewrite (List.map_ext _ id) by (intros a; apply ascii_N_embedding).
  rewrite List.map_id. apply string_of_list_ascii_of_string.
Qed.

Lemma bytes_is_byte s : Forall is_byte (bytes s).
Proof.
  unfold bytes. apply Forall_forall. intros n Hn.
  apply list_elem_of_In, List.in_map_iff in Hn as (a & <- & _).
  apply N_ascii_bounded.
Qed.

Lemma bytes_of_bytes l : Forall is_byte l -> bytes (of_bytes l) = l.
Proof.
  intros H. unfold of_bytes, bytes.
  rewrite list_ascii_of_string_of_list_ascii, List.map_map.
  induction H as [| n l Hn _ IH]; [done |].
  simpl. rewrite IH. f_equal. by apply N_ascii_embedding.
Qed.

Lemma of_bytes_app l1 l2 : of_bytes (l1 ++ l2) = of_bytes l1 ++ of_bytes l2.
Proof.
  unfold of_bytes. rewrite List.map_app.
  induction (List.map ascii_of_N l1) as [| a l IH]; [done |].
  simpl. by rewrite IH.
Qed.

Lemma bytes_app s1 s2 : bytes (s1 ++ s2) = (bytes s1 ++ bytes s2)%list.
Proof.
  unfold bytes. induction s1 as [| a s1 IH]; [done |].
  simpl. by rewrite IH.
Qed.

(** *** One step of stripping *)

Lemma ws_prefix_split l r :
  ws_prefix l = Some r -> exists u, l = (u ++ r)%list /\ u <> [].
Proof.
  unfold ws_prefix. intros H.
  destruct l as [| b [| c [| d r3]]];
    repeat match type of H with
    | (if ?c then _ else _) = _ => destruct c
    | None = Some _ => discriminate H
    | Some _ = Some _ => inversion H; subst; clear H
    end;
    first [ by exists [b] | by exists [b; c] | by exists [b; c; d] ].
Qed.

Lemma ws_prefix_app l r t :
  ws_prefix l = Some r -> ws_prefix (l ++ t) = Some (r ++ t)%list.
Proof.
  unfold ws_prefix. intros H.
  destruct l as [| b [| c [| d r3]]]; simpl;
    repeat match type of H with
    | (if ?c then _ else _) = _ => destruct c
    | None = Some _ => discriminate H
    | Some _ = Some _ => inversion H; subst; clear H
    end; try reflexivity.
Qed.

Lemma ws_suffix_rev_split l r :
  ws_suffix_rev l = Some r -> exists u, l = (u ++ r)%list /\ u <> [].
Proof.
  unfold ws_suffix_rev. intros H.
  destruct l as [| b [| c [| d r3]]];
    repeat match type of H with
    | (if ?c then _ else _) = _ => destruct c
    | match ?x with Some _ => _ | None => _ end = _ => destruct x as [[| ? ?] |]
    | None = Some _ => discriminate H
    | Some _ = Some _ => inversion H; subst; clear H
    end;
    first [ by exists [b] | by exists [b; c] | by exists [b; c; d] ].
Qed.

(** *** The stripping loops *)

Lemma drop_while_ws_spec step :
  (forall l r, step l = Some r -> exists u, l = (u ++ r)%list /\ u <> []) ->
  forall fuel l, (List.length l <= fuel)%nat ->
    exists u, l = (u ++ drop_while_ws step fuel l)%list /\
      step (drop_while_ws step fuel l) = None.
Proof.
  intros Hstep fuel. induction fuel as [| fuel IH]; intros l Hl.
  - destruct l; [| simpl in Hl; lia]. exists []. split; [done |]. simpl.
    destruct (step []) as [r |] eqn:E; [| done].
    destruct (Hstep _ _ E) as (u & Hu & Hne). symmetry in Hu.
    apply List.app_eq_nil in Hu as [-> _]. done.
  - simpl. destruct (step l) as [r |] eqn:E; [| by exists []].
    destruct (Hstep _ _ E) as (u & -> & Hne).
    destruct (IH r) as (u' & Hu' & Hn).
    { rewrite List.length_app in Hl. destruct u; [done |]. simpl in Hl. lia. }
    exists (u ++ u')%list. split; [| done].
    rewrite <- List.app_assoc. by rewrite <- Hu'.
Qed.

Lemma drop_while_ws_none step fuel l :
  step l = None -> drop_while_ws step fuel l = l.
Proof. intros H. destruct fuel; [done |]. simpl. by rewrite H. Qed.

Lemma lstrip_bytes_spec l :
  exists u, l = (u ++ lstrip_bytes l)%list /\ ws_prefix (lstrip_bytes l) = None.
Proof. by apply (drop_while_ws_spec ws_prefix ws_prefix_split). Qed.

Lemma rstrip_bytes_spec l :
  exists u, l = (rstrip_bytes l ++ u)%list /\
    ws_suffix_rev (List.rev (rstrip_bytes l)) = None.
Proof.
  unfold rstrip_bytes.
  destruct (drop_while_ws_spec ws_suffix_rev ws_suffix_rev_split
              (List.length l) (List.rev l)) as (u & Hu & Hn).
  { by rewrite List.length_rev. }
  exists (List.rev u). rewrite List.rev_involutive. split; [| done].
  rewrite <- List.rev_app_distr, <- Hu. by rewrite List.rev_involutive.
Qed.

Lemma ws_prefix_none_prefix l t :
  ws_prefix (l ++ t) = None -> ws_prefix l = None.
Proof.
  intros H. destruct (ws_prefix l) as [r |] eqn:E; [| done].
  by rewrite (ws_prefix_app l r t E) in H.
Qed.

Lemma strip_bytes_trimmed l : trimmed (rstrip_bytes (lstrip_bytes l)).
Proof.
  destruct (lstrip_bytes_spec l) as (u & _ & Hl).
  destruct (rstrip_bytes_spec (lstrip_bytes l)) as (v & Hv & Hr).
  split; [| done]. rewrite Hv in Hl. by apply ws_prefix_none_prefix in Hl.
Qed.

Lemma trimmed_fixed l : trimmed l -> rstrip_bytes (lstrip_bytes l) = l.
Proof.
  intros [Hl Hr]. unfold lstrip_bytes. rewrite (drop_while_ws_none _ _ _ Hl).
  unfold rstrip_bytes. rewrite (drop_while_ws_none _ _ _ Hr).
  apply List.rev_involutive.
Qed.

Lemma strip_bytes_is_byte l :
  Forall is_byte l -> Forall is_byte (rstrip_bytes (lstrip_bytes l)).
Proof.
  intros H.
  destruct (lstrip_bytes_spec l) as (u & Hu & _).
  destruct (rstrip_bytes_spec (lstrip_bytes l)) as (v & Hv & _).
  rewrite Hu in H. apply Forall_app in H as [_ H].
  rewrite Hv in H. by apply Forall_app in H as [H _].
Qed.

Lemma bytes_strip s : bytes (strip s) = rstrip_bytes (lstrip_bytes (bytes s)).
Proof.
  unfold strip. apply bytes_of_bytes, strip_bytes_is_byte, bytes_is_byte.
Qed.

(** [strip] is idempotent. *)
Lemma strip_strip s : strip (strip s) = strip s.
Proof.
  unfold strip at 1. rewrite bytes_strip.
  rewrite trimmed_fixed by apply strip_bytes_trimmed. reflexivity.
Qed.

(** [strip] cuts a prefix and a suffix off. *)
Lemma strip_substring s : exists a b, s = a ++ strip s ++ b.
Proof.
  destruct (lstrip_bytes_spec (bytes s)) as (u & Hu & _).
  destruct (rstrip_bytes_spec (lstrip_bytes (bytes s))) as (v & Hv & _).
  exists (of_bytes u), (of_bytes v). unfold strip.
  rewrite <- !of_bytes_app, <- Hv, <- Hu. symmetry. apply of_bytes_bytes.
Qed.

(** *** Occurrences *)

Lemma str_app_assoc (a b c : string) : (a ++ b) ++ c = a ++ b ++ c.
Proof.
  induction a as [| x a IH]; [done |].
  change (String x ((a ++ b) ++ c) = String x (a ++ b ++ c)). by rewrite IH.
Qed.

Lemma str_app_nil_r (a : string) : a ++ "" = a.
Proof.
  induction a as [| x a IH]; [done |].
  change (String x (a ++ "") = String x a). by rewrite IH.
Qed.

Lemma startswith_app p b : startswith p (p ++ b) = true.
Proof.
  induction p as [| a p IH]; [done |]. simpl.
  by rewrite Ascii.eqb_refl, IH.
Qed.

Lemma startswith_inv p s : startswith p s = true -> exists b, s = p ++ b.
Proof.
  revert s. induction p as [| a p IH]; intros s H; [by exists s |].
  destruct s as [| c s]; [done |]. simpl in H.
  apply andb_prop in H as [Ha Hp]. apply Ascii.eqb_eq in Ha as ->.
  destruct (IH _ Hp) as (b & ->). by exists b.
Qed.

Lemma find_cons p a s :
  find p (String a s) =
    if startswith p (String a s) then Some O else option_map S (find p s).
Proof. reflexivity. Qed.

Lemma find_startswith p s : startswith p s = true -> find p s = Some O.
Proof. intros H. destruct s; simpl; by rewrite H. Qed.

Lemma contains_occurs p s :
  contains p s = true <-> exists a b, s = a ++ p ++ b.
Proof.
  unfold contains. split.
  - induction s as [| c s IH].
    + simpl. destruct (startswith p "") eqn:E; [| done]. intros _.
      apply startswith_inv in E as (b & ->). by exists "", b.
    + rewrite find_cons. destruct (startswith p (String c s)) eqn:E.
      * intros _. apply startswith_inv in E as (b & ->). by exists "", b.
      * destruct (find p s); [| done]. intros _.
        destruct IH as (a & b & ->); [done |]. by exists (String c a), b.
  - intros (a & b & ->). induction a as [| c a IH].
    + change ("" ++ p ++ b) with (p ++ b).
      by rewrite (find_startswith _ _ (startswith_app p b)).
    + change (String c a ++ p ++ b) with (String c (a ++ p ++ b)).
      rewrite find_cons.
      destruct (startswith p _); [done |].
      by destruct (find p (a ++ p ++ b)).
Qed.

Lemma not_contains_substring p a m b :
  contains p (a ++ m ++ b) = false -> contains p m = false.
Proof.
  intros H. destruct (contains p m) eqn:E; [| done].
  apply contains_occurs in E as (a' & b' & ->).
  assert (contains p (a ++ (a' ++ p ++ b') ++ b) = true) as H'; [| congruence].
  apply contains_occurs. exists (a ++ a'), (b' ++ b).
  by rewrite !str_app_assoc.
Qed.

Lemma not_contains_strip p s :
  contains p s = false -> contains p (strip s) = false.
Proof.
  intros H. destruct (strip_substring s) as (a & b & Hs).
  rewrite Hs in H. by apply not_contains_substring in H.
Qed.

Lemma contains_cons p a s :
  contains p (String a s) = startswith p (String a s) || contains p s.
Proof.
  unfold contains. rewrite find_cons.
  destruct (startswith p (String a s)); [done |]. by destruct (find p s).
Qed.

Lemma startswith_cons a p b s :
  startswith (String a p) (String b s) = Ascii.eqb a b && startswith p s.
Proof. reflexivity. Qed.

Lemma drop_app_length a b : drop (String.length a) (a ++ b) = b.
Proof. induction a as [| x a IH]; [by destruct b |]. exact IH. Qed.

(** *** What [strip] leaves of a text that begins with a visible character *)

Lemma ws_suffix_rev_unit l r :
  ws_suffix_rev l = Some r ->
  exists w, l = (List.rev w ++ r)%list /\ forall t, ws_prefix (w ++ t)%list = Some t.
Proof.
  unfold ws_suffix_rev. intros H.
  destruct l as [| b [| c [| d r3]]]; try discriminate H.
  - destruct (_ || _)%N eqn:E1 in H; [| discriminate H].
    inversion H; subst. exists [b]. split; [done |]. intros t. simpl.
    by rewrite E1.
  - destruct (_ || _)%N eqn:E1 in H.
    { inversion H; subst. exists [b]. split; [done |]. intros t. simpl.
      by rewrite E1. }
    destruct (_ && _)%N eqn:E2 in H; [| discriminate H].
    inversion H; subst. exists [c; b]. split; [done |]. intros t. simpl.
    apply andb_prop in E2 as [Ec Eb]. apply N.eqb_eq in Ec as ->.
    simpl. by rewrite Eb.
  - destruct (_ || _)%N eqn:E1 in H.
    { inversion H; subst. exists [b]. split; [done |]. intros t. simpl.
      by rewrite E1. }
    destruct (_ && _)%N eqn:E2 in H.
    { inversion H; subst. exists [c; b]. split; [done |]. intros t. simpl.
      apply andb_prop in E2 as [Ec Eb]. apply N.eqb_eq in Ec as ->.
      simpl. by rewrite Eb. }
    destruct (ws_prefix [d; c; b]) as [[| ? ?] |] eqn:E3; try discriminate H.
    inversion H; subst. exists [d; c; b]. split; [done |]. intros t.
    apply (ws_prefix_app [d; c; b] [] t E3).
Qed.

Lemma drop_all_ws fuel m :
  drop_while_ws ws_suffix_rev fuel m = [] ->
  m = [] \/
  exists w x, m = (x ++ List.rev w)%list /\
    forall t, ws_prefix (w ++ t)%list = Some t.
Proof.
  revert m. induction fuel as [| fuel IH]; intros m H; [by left |].
  simpl in H. destruct (ws_suffix_rev m) as [r |] eqn:E; [| by left].
  destruct (ws_suffix_rev_unit _ _ E) as (w & -> & Hw). right.
  destruct (IH _ H) as [-> | (w' & x & -> & Hw')].
  - exists w, []. by rewrite List.app_nil_r.
  - exists w', (List.rev w ++ x)%list. by rewrite List.app_assoc.
Qed.

Lemma rstrip_bytes_nonempty l :
  l <> [] -> ws_prefix l = None -> rstrip_bytes l <> [].
Proof.
  intros Hne Hp Hr. unfold rstrip_bytes in Hr.
  assert (drop_while_ws ws_suffix_rev (List.length l) (List.rev l) = []) as H.
  { destruct (drop_while_ws _ _ _); [done |]. simpl in Hr.
    by apply List.app_eq_nil in Hr as [_ Hr]. }
  apply drop_all_ws in H as [H | (w & x & H & Hw)].
  - apply (f_equal (@List.rev N)) in H. rewrite List.rev_involutive in H. done.
  - apply (f_equal (@List.rev N)) in H.
    rewrite List.rev_involutive, List.rev_app_distr, List.rev_involutive in H.
    rewrite H, Hw in Hp. done.
Qed.

Lemma strip_keeps_head a s :
  ws_prefix (bytes (String a s)) = None ->
  exists r, strip (String a s) = String a r.
Proof.
  intros Hp. unfold strip, lstrip_bytes.
  rewrite (drop_while_ws_none _ _ _ Hp).
  destruct (rstrip_bytes_spec (bytes (String a s))) as (u & Hu & _).
  pose proof (rstrip_bytes_nonempty (bytes (String a s)) ltac:(done) Hp) as Hne.
  destruct (rstrip_bytes (bytes (String a s))) as [| n r]; [done |].
  change (bytes (String a s)) with (N_of_ascii a :: bytes s) in Hu.
  inversion Hu; subst n. exists (of_bytes r).
  unfold of_bytes. simpl. by rewrite ascii_N_embedding.
Qed.

End StrFacts.

(** * The cleaning of model output *)

Module CleanFacts.
Import PyStr PyVal Pipeline Notions StrFacts.

#[local] Arguments Ascii.eqb : simpl never.

(** *** Runs of spaces *)

Lemma collapse_spaces_no_run in_run s :
  contains "  " (collapse_spaces in_run s) = false /\
  (in_run = true -> startswith " " (collapse_spaces in_run s) = false).
Proof.
  revert in_run. induction s as [| a s IH]; intros in_run; [by destruct in_run |].
  cbn [collapse_spaces]. destruct (Ascii.eqb a " ") eqn:Ea.
  - destruct (IH true) as [Hc Hs]. destruct in_run; [by split |].
    split; [| done]. rewrite contains_cons, Hc.
    change "  " with (String " " " "). rewrite startswith_cons.
    rewrite (Hs eq_refl). by destruct (Ascii.eqb " " a).
  - destruct (IH false) as [Hc _]. split.
    + rewrite contains_cons, Hc.
      change "  " with (String " " " "). rewrite startswith_cons.
      by rewrite Ascii.eqb_sym, Ea.
    + intros _. change " " with (String " " ""). rewrite startswith_cons.
      by rewrite Ascii.eqb_sym, Ea.
Qed.

(** *** Runs of newlines *)

Lemma runs_ok_mono k k' s : (k' <= k)%nat -> runs_ok k s = true -> runs_ok k' s = true.
Proof.
  intros Hk. destruct s as [| a s]; [done |]. simpl.
  destruct (Ascii.eqb a "010"); [| done]. intros H.
  apply andb_prop in H as [H1 H2]. apply Nat.ltb_lt in H1.
  apply andb_true_intro. split; [apply Nat.ltb_lt; lia |].
  revert H2. clear H1. revert k k' Hk.
  induction s as [| b s IH]; intros k k' Hk; [done |]. simpl.
  destruct (Ascii.eqb b "010"); [| done]. intros H.
  apply andb_prop in H as [H1 H2]. apply Nat.ltb_lt in H1.
  apply andb_true_intro. split; [apply Nat.ltb_lt; lia |].
  apply (IH (S k) (S k')); [lia | done].
Qed.

Lemma runs_ok_drop n k s : runs_ok k s = true -> runs_ok O (drop n s) = true.
Proof.
  revert k s. induction n as [| n IH]; intros k s H.
  - destruct s as [| a s]; [done |].
    change (drop 0 (String a s)) with (String a s).
    by apply (runs_ok_mono k O); [lia |].
  - destruct s as [| a s]; [done |]. simpl in *.
    destruct (Ascii.eqb a "010").
    + apply andb_prop in H as [_ H]. by apply (IH (S k)).
    + by apply (IH O).
Qed.

Lemma runs_ok_app_l k a b : runs_ok k (a ++ b) = true -> runs_ok k a = true.
Proof.
  revert k. induction a as [| x a IH]; intros k; [done |].
  change (String x a ++ b) with (String x (a ++ b)). simpl.
  destruct (Ascii.eqb x "010").
  - intros H. apply andb_prop in H as [H1 H2]. rewrite H1. by apply IH.
  - apply IH.
Qed.

Lemma runs_ok_substring a m b :
  runs_ok O (a ++ m ++ b) = true -> runs_ok O m = true.
Proof.
  intros H. apply (runs_ok_drop (String.length a)) in H.
  rewrite drop_app_length in H. by apply runs_ok_app_l in H.
Qed.

Lemma collapse_newlines_runs run s :
  runs_ok O (collapse_newlines run s) = true.
Proof.
  revert run. induction s as [| a s IH]; intros run.
  - simpl. by destruct run as [| [| run]].
  - cbn [collapse_newlines]. destruct (Ascii.eqb a "010") eqn:Ea; [apply IH |].
    assert (runs_ok O (String a (collapse_newlines 0 s)) = true) as H.
    { simpl. rewrite Ea. apply IH. }
    destruct run as [| [| run]]; [exact H | |].
    + change (nl ++ ?r) with (String "010" r). simpl.
      simpl in H. rewrite Ea in *. exact H.
    + change (nl ++ nl ++ ?r) with (String "010" (String "010" r)). simpl.
      simpl in H. rewrite Ea in *. exact H.
Qed.

Lemma replace_fuel_runs fuel old k s :
  runs_ok k s = true -> runs_ok k (replace_fuel fuel old " " s) = true.
Proof.
  revert k s. induction fuel as [| fuel IH]; intros k s H; [done |].
  cbn [replace_fuel]. destruct (startswith old s).
  - change (" " ++ ?r) with (String " " r). simpl.
    apply (IH O). by apply (runs_ok_drop _ k).
  - destruct s as [| a s]; [done |]. simpl in *.
    destruct (Ascii.eqb a "010").
    + apply andb_prop in H as [H1 H2]. rewrite H1. by apply IH.
    + by apply IH.
Qed.

Lemma collapse_spaces_runs in_run k s :
  (in_run = true -> k = O) ->
  runs_ok k s = true -> runs_ok k (collapse_spaces in_run s) = true.
Proof.
  revert in_run k. induction s as [| a s IH]; intros in_run k Hk H; [done |].
  cbn [collapse_spaces]. destruct (Ascii.eqb a " ") eqn:Ea.
  - apply Ascii.eqb_eq in Ea as ->. simpl in H.
    destruct in_run.
    + rewrite (Hk eq_refl). by apply IH.
    + simpl. by apply IH.
  - simpl in *. destruct (Ascii.eqb a "010").
    + apply andb_prop in H as [H1 H2]. rewrite H1. by apply IH.
    + by apply IH.
Qed.

Lemma runs_ok_no_triple k s :
  runs_ok k s = true ->
  contains (String "010" (String "010" (String "010" ""))) s = false /\
  ((1 <= k)%nat -> startswith (String "010" (String "010" "")) s = false) /\
  ((2 <= k)%nat -> startswith (String "010" "") s = false).
Proof.
  revert k. induction s as [| a s IH]; intros k H; [done |].
  rewrite contains_cons, !startswith_cons. simpl in H.
  rewrite (Ascii.eqb_sym "010" a).
  destruct (Ascii.eqb a "010").
  - apply andb_prop in H as [H1 H2]. apply Nat.ltb_lt in H1.
    destruct (IH _ H2) as (Hc & Hs2 & Hs1).
    rewrite Hc, (Hs2 ltac:(lia)). split; [done |]. split.
    + intros Hk. rewrite Hs1; [done | lia].
    + intros Hk. lia.
  - destruct (IH _ H) as (Hc & _). by rewrite Hc.
Qed.

(** The three properties of a cleaned text. *)
Lemma clean_text_normal_form text :
  strip (clean_text text) = clean_text text /\
  contains "  " (clean_text text) = false /\
  contains (nl ++ nl ++ nl) (clean_text text) = false.
Proof.
  unfold clean_text. split; [apply strip_strip |]. split.
  - apply not_contains_strip, collapse_spaces_no_run.
  - set (t := collapse_spaces _ _).
    assert (runs_ok O t = true) as H.
    { apply collapse_spaces_runs; [done |]. unfold replace.
      do 2 apply replace_fuel_runs. apply collapse_newlines_runs. }
    destruct (strip_substring t) as (a & b & Ht). rewrite Ht in H.
    apply runs_ok_substring in H. by apply runs_ok_no_triple in H as [H _].
Qed.

Section Facts.
Variable rt : runtime.

(** X13.  [clean_llm_output] returns an empty string as it is, and for
    every other string a text in normal form: no whitespace at its ends,
    no two spaces in a row, and no three newlines in a row. *)
Theorem clean_llm_output_normal_form s :
  exists t,
    clean_llm_output rt (JStr s) = Ok (JStr t) /\
    strip t = t /\
    contains "  " t = false /\
    contains (nl ++ nl ++ nl) t = false.
Proof.
  unfold clean_llm_output. destruct s as [| a s].
  - exists "". by vm_compute.
  - exists (clean_text (String a s)). split; [done |].
    apply clean_text_normal_form.
Qed.

End Facts.
End CleanFacts.

(** * The URL of an endpoint *)

Module ConfigFacts.
Import Config.

#[local] Arguments Ascii.eqb : simpl never.

Lemma lstrip_char_slashes n s : lstrip_char "/" (slashes n ++ s) = lstrip_char "/" s.
Proof. induction n as [| n IH]; [done |]. exact IH. Qed.

Lemma rstrip_char_slashes_only n : rstrip_char "/" (slashes n) = "".
Proof. induction n as [| n IH]; [done |]. simpl. by rewrite IH. Qed.

Lemma rstrip_char_slashes n s : rstrip_char "/" (s ++ slashes n) = rstrip_char "/" s.
Proof.
  induction s as [| a s IH].
  - apply rstrip_char_slashes_only.
  - change (String a s ++ slashes n) with (String a (s ++ slashes n)).
    simpl. by rewrite IH.
Qed.

Lemma lstrip_char_fixed s :
  PyStr.startswith "/" (lstrip_char "/" s) = false.
Proof.
  induction s as [| a s IH]; [done |]. cbn [lstrip_char].
  destruct (Ascii.eqb a "/") eqn:E; [exact IH |].
  change "/" with (String "/" ""). rewrite StrFacts.startswith_cons.
  by rewrite Ascii.eqb_sym, E.
Qed.

(** X14.  The URL of an endpoint does not depend on how many slashes end
    the base URL or begin the endpoint: exactly one slash joins the two,
    and what follows it does not begin with a slash. *)
Theorem get_api_url_slashes base endpoint n m :
  get_api_url (base ++ slashes n) (slashes m ++ endpoint)
    = get_api_url base endpoint /\
  exists rest,
    get_api_url base endpoint = rstrip_char "/" base ++ "/" ++ rest /\
    PyStr.startswith "/" rest = false /\
    rstrip_char "/" (rstrip_char "/" base) = rstrip_char "/" base.
Proof.
  unfold get_api_url. rewrite rstrip_char_slashes, lstrip_char_slashes.
  split; [done |]. exists (lstrip_char "/" endpoint).
  split; [done |]. split; [apply lstrip_char_fixed |].
  induction base as [| a s IH]; [done |]. simpl.
  destruct (rstrip_char "/" s) as [| b r] eqn:E.
  - destruct (Ascii.eqb a "/") eqn:Ea; [done |]. simpl. by rewrite Ea.
  - simpl in *. rewrite IH. done.
Qed.

End ConfigFacts.

(** * The experience section *)

Module ResumeParserFacts.
Import PyStr ResumeParser StrFacts.

Lemma mentions_app k1 k2 line :
  mentions (k1 ++ k2) line = mentions k1 line || mentions k2 line.
Proof. unfold mentions. apply existsb_app. Qed.

Lemma scan_lines lines in_section acc line :
  In line (scan lines in_section acc) ->
  In line acc \/
  exists raw, In raw lines /\ line = strip raw /\ line <> "" /\
    mentions (opening ++ closing) raw = false.
Proof.
  revert in_section acc. induction lines as [| raw rest IH]; intros in_section acc H.
  - by left.
  - cbn [scan] in H.
    assert (forall b acc', In line (scan rest b acc') ->
              (In line acc' -> In line acc \/
                 exists raw0, In raw0 (raw :: rest) /\ line = strip raw0 /\
                   line <> "" /\ mentions (opening ++ closing) raw0 = false) ->
              In line acc \/
              exists raw0, In raw0 (raw :: rest) /\ line = strip raw0 /\
                line <> "" /\ mentions (opening ++ closing) raw0 = false) as Hstep.
    { intros b acc' Hin Hacc. destruct (IH _ _ Hin) as [Ha | (r & Hr & ?)].
      - by apply Hacc.
      - right. exists r. split; [by right | done]. }
    destruct (mentions opening raw) eqn:Eo; [by apply (Hstep _ _ H); left |].
    destruct (mentions closing raw) eqn:Ec; [by apply (Hstep _ _ H); left |].
    destruct (in_section && negb (String.eqb (strip raw) "")) eqn:Ei;
      [| by apply (Hstep _ _ H); left].
    apply (Hstep _ _ H). intros Hin.
    apply List.in_app_or in Hin as [Hin | [<- | []]]; [by left |].
    right. exists raw. split; [by left |]. split; [done |].
    apply andb_prop in Ei as [_ Ei]. apply negb_true_iff, String.eqb_neq in Ei.
    split; [done |]. by rewrite mentions_app, Eo, Ec.
Qed.

(** X15.  Every line that [extract_experience] returns is a line of the
    text with the whitespace at its ends removed, is not empty, and
    mentions none of the six section keywords, in any letter case: a line
    of the section that mentions one of them is a header and is left out. *)
Theorem extract_experience_lines text line :
  In line (extract_experience text) ->
  exists raw,
    In raw (split_on "010" text) /\
    line = strip raw /\ strip line = line /\ line <> "" /\
    mentions opening raw = false /\ mentions closing raw = false.
Proof.
  intros H. apply scan_lines in H as [[] | (raw & Hr & -> & Hne & Hm)].
  exists raw. split; [done |]. split; [done |]. split; [apply strip_strip |].
  split; [done |]. rewrite mentions_app in Hm. by apply orb_false_elim in Hm.
Qed.

Lemma scan_closed lines acc :
  Forall (fun raw => mentions opening raw = false) lines ->
  scan lines false acc = acc.
Proof.
  intros H. induction H as [| raw rest Hr _ IH]; [done |].
  cbn [scan]. rewrite Hr. by destruct (mentions closing raw).
Qed.

(** X16.  Without a line that mentions [experience], [employment] or
    [work history] the section is never entered and the result is empty,
    whatever else the text holds. *)
Theorem extract_experience_needs_header text :
  Forall (fun raw => mentions opening raw = false) (split_on "010" text) ->
  extract_experience text = [].
Proof. apply scan_closed. Qed.

Lemma extract_experience_lines_witness :
  exists raw,
    In raw (split_on "010" ("Work Experience" ++ nl ++ "  Built APIs  " ++ nl ++ "Skills")) /\
    "Built APIs" = strip raw.
Proof.
  destruct (extract_experience_lines
              ("Work Experience" ++ nl ++ "  Built APIs  " ++ nl ++ "Skills")
              "Built APIs") as (raw & Hr & Hs & _).
  - vm_compute. by left.
  - by exists raw.
Defined.

Lemma extract_experience_needs_header_witness :
  extract_experience ("John Doe" ++ nl ++ "Built APIs" ++ nl ++ "Skills: Go") = [].
Proof.
  apply extract_experience_needs_header.
  assert (split_on "010" ("John Doe" ++ nl ++ "Built APIs" ++ nl ++ "Skills: Go")
          = ["John Doe"; "Built APIs"; "Skills: Go"]) as ->
    by (vm_compute; reflexivity).
  repeat (constructor; [vm_compute; reflexivity |]). constructor.
Defined.

End ResumeParserFacts.

(** * The core info of a resume *)

Module CoreInfoFacts.
Import PyStr PyVal LLM Pipeline Notions StrFacts.

#[local] Arguments Ascii.eqb : simpl never.

Lemma get_set_ne k k' v d :
  k <> k' -> PyDict.get k (PyDict.set k' v d) = PyDict.get k d.
Proof.
  intros Hne. induction d as [| [k0 v0] d IH]; simpl.
  - by apply String.eqb_neq in Hne as ->.
  - destruct (String.eqb k' k0) eqn:E; simpl.
    + apply String.eqb_eq in E as ->.
      by apply String.eqb_neq in Hne as ->.
    + destruct (String.eqb k k0); [done | exact IH].
Qed.

Lemma mem_set k k' v d :
  PyDict.mem k d = true -> PyDict.mem k (PyDict.set k' v d) = true.
Proof.
  unfold PyDict.mem. destruct (String.eqb_spec k k') as [-> | Hne].
  - by rewrite CoursesFacts.get_set_eq.
  - by rewrite get_set_ne.
Qed.

Section Facts.

Variable rt : runtime.
Variable E : env.

Lemma fill_key_present key data data' :
  fill_key rt key data = Ok data' -> py_contains rt key data' = Ok true.
Proof.
  unfold fill_key. destruct (py_contains rt key data) as [[|] |] eqn:Ec; simpl.
  - by intros [= <-].
  - destruct data; try done. intros [= <-]. simpl.
    unfold PyDict.mem. by rewrite CoursesFacts.get_set_eq.
  - done.
Qed.

Lemma fill_key_keeps key k data data' :
  py_contains rt k data = Ok true ->
  fill_key rt key data = Ok data' -> py_contains rt k data' = Ok true.
Proof.
  intros Hk. unfold fill_key.
  destruct (py_contains rt key data) as [[|] |] eqn:Ec; simpl.
  - by intros [= <-].
  - destruct data; try done. intros [= <-]. simpl in *.
    inversion Hk as [Hm]. by rewrite Hm, (mem_set _ _ _ _ Hm).
  - done.
Qed.

Lemma fill_key_dict key data data' :
  fill_key rt key data = Ok data' -> is_dict data' = is_dict data.
Proof.
  unfold fill_key. destruct (py_contains rt key data) as [[|] |]; simpl.
  - by intros [= <-].
  - destruct data; try done. by intros [= <-].
  - done.
Qed.

(** X17.  Whatever the model answers, the value that
    [extract_resume_core_info] returns contains each of [skills],
    [job_title], [headline] and [summary]; when it is a dict, which it is
    in particular after every failure, subscripting it with one of them
    returns a value and does not raise. *)
Theorem core_info_has_fields resume w key :
  In key core_fields ->
  let info := fst (extract_resume_core_info rt E resume w) in
  py_contains rt key info = Ok true /\
  (is_dict info = true -> exists v, py_subscript rt info (JStr key) = Ok v).
Proof.
  intros Hkey info.
  assert (py_contains rt key info = Ok true) as Hc.
  { subst info. unfold extract_resume_core_info.
    destruct (call_llm_api _ _ _ _ _ _ _ _) as [response w'].
    assert (py_contains rt key empty_core_info = Ok true) as Hdef.
    { simpl in Hkey. destruct Hkey as [<- | [<- | [<- | [<- | []]]]]; reflexivity. }
    destruct response; try exact Hdef.
    destruct (Json.loads _) as [data |]; [| exact Hdef].
    destruct (fill_key rt "skills" data) as [d1 |] eqn:E1; [| exact Hdef].
    cbn [res_bind].
    destruct (fill_key rt "job_title" d1) as [d2 |] eqn:E2; [| exact Hdef].
    cbn [res_bind].
    destruct (fill_key rt "headline" d2) as [d3 |] eqn:E3; [| exact Hdef].
    cbn [res_bind].
    destruct (fill_key rt "summary" d3) as [d4 |] eqn:E4; [| exact Hdef].
    cbn [fst].
    pose proof (fill_key_present _ _ _ E1) as H1.
    pose proof (fill_key_present _ _ _ E2) as H2.
    pose proof (fill_key_present _ _ _ E3) as H3.
    pose proof (fill_key_present _ _ _ E4) as H4.
    simpl in Hkey. destruct Hkey as [<- | [<- | [<- | [<- | []]]]].
    - eapply fill_key_keeps; [| exact E4].
      eapply fill_key_keeps; [| exact E3].
      eapply fill_key_keeps; [| exact E2]. exact H1.
    - eapply fill_key_keeps; [| exact E4].
      eapply fill_key_keeps; [| exact E3]. exact H2.
    - eapply fill_key_keeps; [| exact E4]. exact H3.
    - exact H4. }
  split; [exact Hc |]. intros Hd. clearbody info.
  destruct info as [| | | | | | d]; try done.
  simpl in Hc. inversion Hc as [Hm]. unfold PyDict.mem in Hm. simpl.
  destruct (PyDict.get key d) as [v |]; [by exists v | done].
Qed.

(** *** A failed call *)

Lemma skip_json_tag_suffix s : exists pre, s = pre ++ skip_json_tag s.
Proof.
  assert (forall t, exists pre, t = pre ++ t) as Hsame by (by exists "").
  unfold skip_json_tag. destruct s as [| j r1]; [apply Hsame |].
  destruct (Ascii.eqb (lower_ascii j) "j"); [| apply Hsame].
  destruct r1 as [| c r2]; [apply Hsame |].
  destruct (Ascii.eqb (lower_ascii c) "s").
  - destruct r2 as [| o [| n rest]]; try apply Hsame.
    destruct (_ && _); [| apply Hsame].
    by exists (String j (String c (String o (String n "")))).
  - destruct r2 as [| c' r3]; [apply Hsame |].
    destruct (_ && _); [| apply Hsame].
    destruct r3 as [| o [| n rest]]; try apply Hsame.
    destruct (_ && _); [| apply Hsame].
    by exists (String j (String c (String c' (String o (String n ""))))).
Qed.

Lemma lstrip_suffix s : exists pre, s = pre ++ Pipeline.lstrip s.
Proof.
  destruct (lstrip_bytes_spec (bytes s)) as (u & Hu & _).
  exists (of_bytes u). unfold Pipeline.lstrip.
  rewrite <- of_bytes_app, <- Hu. symmetry. apply of_bytes_bytes.
Qed.

Lemma match_fenced_brace s g :
  match_fenced s = Some g -> contains "{" s = true.
Proof.
  unfold match_fenced, Json.strip_prefix.
  destruct (startswith "```" s) eqn:Ef; [| done].
  apply startswith_inv in Ef as (r1 & ->). rewrite drop_app_length.
  destruct (skip_json_tag_suffix r1) as (p1 & H1).
  destruct (lstrip_suffix (skip_json_tag r1)) as (p2 & H2).
  destruct (Pipeline.lstrip (skip_json_tag r1)) as [| c body] eqn:El; [done |].
  destruct (Ascii.eqb_spec c "{") as [-> | Hne].
  2:{ destruct c as [[] [] [] [] [] [] [] []]; try done. }
  intros _. apply contains_occurs. exists ("```" ++ p1 ++ p2), body.
  rewrite H1, H2 at 1. by rewrite !str_app_assoc.
Qed.

Lemma search_fenced_brace s g :
  search_fenced s = Some g -> contains "{" s = true.
Proof.
  induction s as [| c s IH]; cbn [search_fenced].
  - destruct (match_fenced "") eqn:Em; [| done]. intros _.
    by apply match_fenced_brace in Em.
  - destruct (match_fenced (String c s)) eqn:Em.
    + intros _. by apply match_fenced_brace in Em.
    + intros H. rewrite contains_cons, (IH H). apply orb_true_r.
Qed.

Lemma extract_json_no_brace s :
  contains "{" s = false -> extract_json_from_llm_output s = strip s.
Proof.
  intros H. unfold extract_json_from_llm_output.
  destruct (search_fenced s) as [g |] eqn:Es.
  - apply search_fenced_brace in Es. congruence.
  - unfold contains in H. by destruct (find "{" s).
Qed.

(** No JSON document begins with a byte of a code point outside ASCII. *)
Lemma loads_marker r : Json.loads (String "226" r) = None.
Proof. reflexivity. Qed.

(** X18.  When the client reports a failure and its message holds no
    opening brace, [extract_resume_core_info] returns the empty core info:
    an empty skill list and empty strings. *)
Theorem failed_call_empty_core_info resume w msg :
  fst (call_llm_api rt E core_info_role (core_info_prompt resume)
         "openrouter" 500 3 w) = JStr msg ->
  startswith "❌" msg = true ->
  contains "{" msg = false ->
  fst (extract_resume_core_info rt E resume w) = empty_core_info.
Proof.
  intros Hcall Hmark Hbrace. unfold extract_resume_core_info.
  destruct (call_llm_api _ _ _ _ _ _ _ _) as [response w'].
  simpl in Hcall. subst response.
  rewrite (extract_json_no_brace _ Hbrace).
  apply startswith_inv in Hmark as (rest & ->).
  destruct (strip_keeps_head "226" (String "157" (String "140" rest)) eq_refl)
    as (r & Hr).
  change ("❌" ++ rest) with (String "226" (String "157" (String "140" rest))).
  by rewrite Hr, loads_marker.
Qed.






End Facts.

Import Demo.

Lemma core_info_has_fields_witness :
  py_contains demo_runtime "skills"
    (fst (extract_resume_core_info demo_runtime
            (env_answering (Ok (completion (JStr (PyStr.dq "{'job_title': 'Analyst'}")))))
            "John Doe, analyst" fresh_world)) = Ok true.
Proof.
  apply (core_info_has_fields demo_runtime
           (env_answering (Ok (completion (JStr (PyStr.dq "{'job_title': 'Analyst'}")))))
           "John Doe, analyst" fresh_world "skills").
  simpl. by left.
Defined.

Lemma failed_call_empty_core_info_witness :
  fst (extract_resume_core_info demo_runtime
         (env_answering (Raise (Exn RequestException "timed out")))
         "John Doe, analyst" fresh_world) = empty_core_info.
Proof.
  apply (failed_call_empty_core_info demo_runtime
           (env_answering (Raise (Exn RequestException "timed out")))
           "John Doe, analyst" fresh_world
           "❌ Request failed after 3 attempts: timed out").
  - vm_compute. reflexivity.
  - vm_compute. reflexivity.
  - vm_compute. reflexivity.
Defined.


End CoreInfoFacts.

(** * The local fallback and the cost of an enhancement *)

Module FallbackFacts.
Import PyStr PyVal LLM Pipeline LLMFacts PipelineFacts ClientFacts.
Section Facts.

Variable rt : runtime.
Variable E : env.

(** X20.  [handle_llm_fallback] calls the local model once and always
    returns a string that does not start with the failure marker of the
    client: the answer of the local model, or, when that answer is itself
    marked as a failure, is not a string, or the call raised, a notice
    that starts with a warning sign. *)
Theorem fallback_never_marked role prompt mt w :
  exists s,
    handle_llm_fallback E role prompt mt w
      = (JStr s, World (llm_cache w) (log w ++ [EvLocal role prompt mt])) /\
    startswith "❌" s = false /\
    (local_llm E (n_local (log w)) role prompt mt = Ok (JStr s) \/
     startswith "⚠️ Service temporarily unavailable." s = true).
Proof.
  unfold handle_llm_fallback, call_local_llm_api.
  destruct (local_llm E _ role prompt mt) as [[| | | | s | |] | e];
    try (exists unavailable; split; [reflexivity |]; split; [reflexivity |];
         right; reflexivity).
  destruct (startswith "❌" s) eqn:Es; simpl.
  - eexists. split; [reflexivity |]. split; [reflexivity |]. right. reflexivity.
  - exists s. split; [reflexivity |]. split; [exact Es |]. by left.
Qed.

Lemma fallback_events role prompt mt w :
  exists s,
    handle_llm_fallback E role prompt mt w
      = (JStr s, World (llm_cache w) (log w ++ [EvLocal role prompt mt])).
Proof.
  unfold handle_llm_fallback, call_local_llm_api.
  destruct (local_llm E _ role prompt mt) as [[| | | | s | |] | e];
    try by eexists.
  destruct (negb (startswith "❌" s)); by eexists.
Qed.

(** The events of the two stages of [enhance_resume]. *)
Lemma extract_resume_core_info_events resume w :
  exists evs,
    log (snd (extract_resume_core_info rt E resume w)) = (log w ++ evs)%list /\
    (n_posts evs <= 3)%nat /\ (n_sleeps evs <= 2)%nat /\ n_local evs = O.
Proof.
  unfold extract_resume_core_info.
  destruct (call_events rt E core_info_role (core_info_prompt resume)
              "openrouter" 500 3 w) as (evs & Hlog & Hp & Hs & Hl & _).
  destruct (call_llm_api _ _ _ _ _ _ _ _) as [response w1]. simpl in Hlog.
  exists evs.
  assert (log w1 = (log w ++ evs)%list /\ (n_posts evs <= 3)%nat /\
          (n_sleeps evs <= 2)%nat /\ n_local evs = O) as H.
  { split; [done |]. split; [simpl in Hp; lia |]. split; [| done].
    destruct Hs as [-> | Hs]; [unfold n_sleeps; simpl; lia |].
    simpl in Hp. lia. }
  by match goal with |- context [match ?a with Ok _ => _ | Raise _ => _ end] =>
       destruct a end.
Qed.

Lemma enhance_resume_events resume role w :
  exists evs,
    log (snd (enhance_resume rt E resume role w)) = (log w ++ evs)%list /\
    (n_posts evs <= 6)%nat /\ (n_sleeps evs <= 4)%nat /\ n_local evs = O.
Proof.
  unfold enhance_resume.
  destruct (extract_resume_core_info_events resume w)
    as (evs1 & Hlog1 & Hp1 & Hs1 & Hl1).
  destruct (extract_resume_core_info rt E resume w) as [core w0].
  simpl in Hlog1.
  match goal with |- context [match ?a with Ok _ => _ | Raise _ => _ end] =>
    destruct a as [prompt | e] end.
  - destruct (call_events rt E enhancement_role prompt "openrouter" 1500 3 w0)
      as (evs2 & Hlog2 & Hp2 & Hs2 & Hl2 & _).
    destruct (call_llm_api _ _ _ _ _ _ _ _) as [result w2]. simpl in Hlog2 |- *.
    exists (evs1 ++ evs2)%list. rewrite Hlog2, Hlog1, List.app_assoc.
    split; [done |]. rewrite n_posts_app, n_sleeps_app, n_local_app.
    split; [simpl in Hp2; lia |]. split; [| lia].
    destruct Hs2 as [-> | Hs2]; [unfold n_sleeps at 2; simpl; lia |].
    simpl in Hp2. lia.
  - exists evs1. simpl. split; [done |]. split; [lia |]. split; [lia | done].
Qed.

(** X21.  One call of [clean_enhance_resume] makes at most six requests,
    sleeps at most four times and calls the local model at most once,
    whatever the server and the local model do. *)
Theorem enhancement_cost resume role w :
  exists evs,
    log (snd (clean_enhance_resume rt E resume role w)) = (log w ++ evs)%list /\
    (n_posts evs <= 6)%nat /\ (n_sleeps evs <= 4)%nat /\ (n_local evs <= 1)%nat.
Proof.
  unfold clean_enhance_resume.
  destruct (enhance_resume_events resume role w) as (evs & Hlog & Hp & Hs & Hl).
  destruct (enhance_resume rt E resume role w) as [result w1]. simpl in Hlog.
  destruct (res_bind result (clean_llm_output rt)) as [cleaned | e].
  - exists evs. simpl. split; [done |]. split; [done |]. split; [done | lia].
  - destruct (fallback_events enhancement_role (fallback_prompt rt role resume)
                1200 w1) as (s & ->).
    exists (evs ++ [EvLocal enhancement_role (fallback_prompt rt role resume) 1200])%list.
    cbn [snd log]. rewrite Hlog, List.app_assoc. split; [done |].
    rewrite n_posts_app, n_sleeps_app, n_local_app.
    unfold n_posts at 2, n_sleeps at 2, n_local at 2. simpl. lia.
Qed.

End Facts.
End FallbackFacts.

(** * Matching resumes *)

Module MarkerFacts.
Import PyStr Notions StrFacts.

(** What [rstrip] removes begins with a whitespace code point. *)
Lemma drop_while_ws_removed fuel m :
  exists u, m = (u ++ drop_while_ws ws_suffix_rev fuel m)%list /\
    (u = [] \/ exists w x, u = (x ++ List.rev w)%list /\
       forall t, ws_prefix (w ++ t)%list = Some t).
Proof.
  revert m. induction fuel as [| fuel IH]; intros m.
  - exists []. split; [done | by left].
  - simpl. destruct (ws_suffix_rev m) as [r |] eqn:E.
    2:{ exists []. split; [done | by left]. }
    destruct (ws_suffix_rev_unit _ _ E) as (w & -> & Hw).
    destruct (IH r) as (u & Hu & Hcase).
    exists (List.rev w ++ u)%list. split.
    { rewrite <- List.app_assoc. by rewrite <- Hu. }
    right. destruct Hcase as [-> | (w' & x & -> & Hw')].
    + exists w, []. by rewrite List.app_nil_r.
    + exists w', (List.rev w ++ x)%list. by rewrite List.app_assoc.
Qed.

Lemma rstrip_bytes_removed l :
  exists u, l = (rstrip_bytes l ++ u)%list /\
    (u = [] \/ exists t, ws_prefix u = Some t).
Proof.
  unfold rstrip_bytes.
  destruct (drop_while_ws_removed (List.length l) (List.rev l))
    as (u & Hu & Hcase).
  exists (List.rev u). split.
  { rewrite <- List.rev_app_distr, <- Hu. by rewrite List.rev_involutive. }
  destruct Hcase as [-> | (w & x & -> & Hw)]; [by left |]. right.
  rewrite List.rev_app_distr, List.rev_involutive. eexists. apply Hw.
Qed.

(** A text that begins with the failure marker still does so when
    stripped. *)
Lemma strip_keeps_marker s :
  startswith "❌" s = true -> startswith "❌" (strip s) = true.
Proof.
  intros H. apply startswith_inv in H as (rest & ->).
  unfold strip, lstrip_bytes.
  change (bytes ("❌" ++ rest)) with (226 :: 157 :: 140 :: bytes rest)%N.
  rewrite (drop_while_ws_none ws_prefix _ (226 :: 157 :: 140 :: bytes rest)%N)
    by reflexivity.
  destruct (rstrip_bytes_removed (226 :: 157 :: 140 :: bytes rest)%N)
    as (u & Hu & Hcase).
  pose proof (rstrip_bytes_nonempty (226 :: 157 :: 140 :: bytes rest)%N
                ltac:(done) eq_refl) as Hne.
  destruct (rstrip_bytes _) as [| a [| b [| c r]]]; [done | | |].
  - simpl in Hu. inversion Hu; subst. exfalso.
    destruct Hcase as [Hc | (t & Hc)]; [done |].
    simpl in Hc. by destruct (bytes rest) as [| ? ?].
  - simpl in Hu. inversion Hu; subst. exfalso.
    destruct Hcase as [Hc | (t & Hc)]; [done |].
    simpl in Hc. destruct (bytes rest) as [| x [| y ?]]; simpl in Hc; try done.
  - simpl in Hu. inversion Hu; subst. reflexivity.
Qed.

End MarkerFacts.

Module MatchingFacts.
Import PyStr PyVal LLM Pipeline Faiss Matching StrFacts MarkerFacts ClientFacts.

Section Facts.

Context {vec dist : Type}.
Variable encode : string -> vec.
Variable index_search : list vec -> vec -> Z -> list (dist * Z).
Variable one_minus : dist -> dist.
Variable rt : runtime.
Variable E : env.

Abbreviation result := (@search_result json dist).

Lemma keep_others_spec filename (matches kept : list result) :
  keep_others rt filename matches = Ok kept ->
  Forall (fun m => exists v,
            py_get rt (sr_meta m) "filename" JNull = Ok v /\
            v <> JStr filename) kept /\
  (forall m, In m kept -> In m matches) /\
  (List.length kept <= List.length matches)%nat.
Proof.
  revert kept. induction matches as [| m rest IH]; intros kept H.
  - inversion H; subst. split; [constructor |]. by split.
  - cbn [keep_others] in H.
    destruct (py_get rt (sr_meta m) "filename" JNull) as [v |] eqn:Ev; [| done].
    cbn [res_bind] in H.
    destruct (keep_others rt filename rest) as [kept0 |]; [| done].
    cbn [res_bind] in H. destruct (IH kept0 eq_refl) as (Hall & Hin & Hlen).
    destruct (differs v filename) eqn:Ed; inversion H; subst kept.
    + split; [| split].
      * constructor; [| exact Hall]. exists v. split; [done |].
        intros ->. simpl in Ed. by rewrite String.eqb_refl in Ed.
      * intros m' [<- | Hm]; [by left | right; by apply Hin].
      * simpl. lia.
    + split; [exact Hall |]. split; [| simpl; lia].
      intros m' Hm. right. by apply Hin.
Qed.

(** X22.  No resume is reported as its own match: every match that
    [match_similar_resumes] works with comes from the search results, has a
    [filename] other than the one of the uploaded resume, and for
    [top_k >= 0] there are at most [top_k] of them. *)
Theorem never_own_match ifs cfs query_text filename top_k filtered :
  select_matches encode index_search one_minus rt ifs cfs query_text filename
    top_k = Ok filtered ->
  Forall (fun m => exists v,
            py_get rt (sr_meta m) "filename" JNull = Ok v /\
            v <> JStr filename) filtered /\
  (0 <= top_k -> (List.length filtered <= Z.to_nat top_k)%nat) /\
  exists matches h,
    search encode index_search one_minus query_text "resume" (top_k + 1) None
      (new_handler ifs cfs) = Ok (matches, h) /\
    forall m, In m filtered -> In m matches.
Proof.
  unfold select_matches.
  destruct (search _ _ _ _ _ _ _ _) as [[matches h] |]; [| done].
  cbn [res_bind].
  destruct (keep_others rt filename matches) as [kept |] eqn:Ek; [| done].
  cbn [res_bind]. intros H. inversion H; subst filtered. clear H.
  destruct (keep_others_spec _ _ _ Ek) as (Hall & Hin & _).
  split; [| split].
  - destruct (CoursesFacts.py_slice_to_prefix top_k kept) as (n & ->).
    by apply Forall_take.
  - intros Hk. by apply CoursesFacts.py_slice_to_length.
  - exists matches, h. split; [done |]. intros m Hm. apply Hin.
    destruct (CoursesFacts.py_slice_to_prefix top_k kept) as (n & Hn).
    rewrite Hn in Hm. rewrite <- (take_drop n kept).
    apply List.in_or_app. by left.
Qed.

Lemma accepted_marked msg :
  startswith "❌" msg = true -> accepted (JStr msg) = false.
Proof.
  intros H. unfold accepted. rewrite (strip_keeps_marker _ H).
  apply andb_false_r.
Qed.

(** When the entries of the prompt could be built, the list of links can
    be built as well. *)
Lemma link_lines_ok i (filtered : list result) entries :
  resume_entries rt i filtered = Ok entries ->
  forall j out, exists out', link_lines rt j filtered out = Ok out'.
Proof.
  revert i entries. induction filtered as [| m rest IH]; intros i entries H j out.
  - by exists out.
  - cbn [resume_entries] in H. unfold resume_entry in H.
    destruct (sr_meta m) as [| | | | | | d] eqn:Em; try done.
    cbn [py_get res_bind] in H.
    destruct (resume_entries rt (i + 1) rest) as [entries' |] eqn:Er.
    2:{ by destruct (quote_value _ _). }
    cbn [link_lines]. rewrite Em. cbn [py_get res_bind].
    unfold PyDict.get_default in *.
    destruct (PyDict.get "filename" d) as [[| | | | name | |] |]; try done;
      cbn [quote_value res_bind]; eapply IH; exact Er.
Qed.

(** X23.  When the client fails (none of its requests is answered with
    status 200), [match_similar_resumes] does not pass the failure message
    on: it returns the plain numbered list of links to the matches that
    the search found, built without the model.  Nothing is cached and the
    local model is not called. *)
Theorem match_degrades_to_links ifs cfs query_text filename top_k w m rest entries :
  select_matches encode index_search one_minus rt ifs cfs query_text filename
    top_k = Ok (m :: rest) ->
  resume_entries rt 0 (m :: rest) = Ok entries ->
  let prompt := match_prompt top_k query_text (join nl entries) in
  llm_cache w !! (match_role, prompt, "openrouter", 3000) = None ->
  (forall i r, server E i match_role prompt 3000 = Ok r -> status_code r <> 200) ->
  exists out w',
    match_similar_resumes encode index_search one_minus rt E ifs cfs
      query_text filename top_k w = (Ok (JStr out), w') /\
    basic_links rt (m :: rest) = Ok (JStr out) /\
    llm_cache w' = llm_cache w /\
    n_local (log w') = n_local (log w).
Proof.
  intros Hsel Hent prompt Hmiss Hno.
  unfold match_similar_resumes. rewrite Hsel, Hent. fold prompt.
  pose proof (PipelineFacts.call_llm_api_n_local rt E match_role prompt
                "openrouter" 3000 3 w) as Hloc.
  destruct (call_no_200 rt E match_role prompt "openrouter" 3000 3 w Hmiss Hno)
    as (msg & w' & Hcall & Hmark & Hcache).
  rewrite Hcall in Hloc |- *. simpl in Hloc.
  rewrite (accepted_marked _ Hmark).
  destruct (link_lines_ok 0 (m :: rest) entries Hent 1 links_header)
    as (out & Hout).
  exists (strip out), w'. unfold basic_links. rewrite Hout. by cbn [res_bind].
Qed.

End Facts.

Import Demo.

Lemma never_own_match_witness :
  exists filtered,
    select_matches demo_encode flat_l2_search (fun d => 1 - d) demo_runtime
      two_vectors two_resumes "python" "9a_me.pdf" 3 = Ok filtered /\
    Forall (fun m => exists v,
              py_get demo_runtime (sr_meta m) "filename" JNull = Ok v /\
              v <> JStr "9a_me.pdf") filtered.
Proof.
  eexists. split; [vm_compute; reflexivity |].
  apply (never_own_match demo_encode flat_l2_search (fun d => 1 - d)
           demo_runtime two_vectors two_resumes "python" "9a_me.pdf" 3).
  vm_compute. reflexivity.
Defined.

Lemma match_degrades_to_links_witness :
  exists out w',
    match_similar_resumes demo_encode flat_l2_search (fun d => 1 - d)
      demo_runtime (env_answering (Raise (Exn RequestException "timed out")))
      two_vectors two_resumes "python" "9a_me.pdf" 3 fresh_world
      = (Ok (JStr out), w') /\
    llm_cache w' = llm_cache fresh_world.
Proof.
  destruct (match_degrades_to_links demo_encode flat_l2_search (fun d => 1 - d)
              demo_runtime (env_answering (Raise (Exn RequestException "timed out")))
              two_vectors two_resumes "python" "9a_me.pdf" 3 fresh_world
              (SearchResult "python sql"
                 (JObj [("filename", JStr "7f_Jane Doe.pdf")]) (-15)) []
              ["Resume 1: [7f_Jane Doe.pdf](http://192.168.1.10:8000/static/resumes/7f_Jane%20Doe.pdf)"
                 ++ nl ++ "python sql"])
    as (out & w' & Hm & _ & Hc & _).
  - vm_compute. reflexivity.
  - vm_compute. reflexivity.
  - apply lookup_empty.
  - intros i r H. simpl in H. discriminate H.
  - by exists out, w'.
Defined.

End MatchingFacts.
(** * Filling the course store *)

Module CourseraFacts.
Import PyVal PyStr Faiss FaissFacts StoreFacts StrFacts Coursera.

Lemma ws_prefix_space_after l x :
  l <> [] -> ws_prefix l = None -> ws_prefix (l ++ 32%N :: x)%list = None.
Proof.
  intros Hne H. destruct l as [| b [| c [| d r]]]; [done | | |].
  - cbn [ws_prefix app] in *.
    destruct (_ || _)%N; [done |].
    change (32 =? 133)%N with false. change (32 =? 160)%N with false.
    rewrite andb_false_r. destruct x as [| d r3]; [done |].
    change (32 =? 154)%N with false. change (32 =? 128)%N with false.
    change (32 =? 129)%N with false.
    by rewrite !andb_false_r.
  - cbn [ws_prefix app] in *.
    destruct (_ || _)%N; [done |].
    destruct (_ && _)%N; [done |].
    change (32 =? 128)%N with false. change (32 =? 159)%N with false.
    change (32 =? 168)%N with false. change (32 =? 169)%N with false.
    change (32 =? 175)%N with false.
    change (128 <=? 32)%N with false.
    by rewrite !andb_false_r.
  - cbn [ws_prefix app] in *.
    repeat match type of H with
    | (if ?c then _ else _) = _ => destruct c; [discriminate H |]
    end. reflexivity.
Qed.

(** A stripped string has no whitespace in front. *)
Lemma strip_no_ws_prefix s : ws_prefix (bytes (strip s)) = None.
Proof. rewrite bytes_strip. apply strip_bytes_trimmed. Qed.

(** The text of a course with a title is not blank. *)
Lemma course_text_not_blank s institution description :
  strip s <> "" ->
  is_blank (course_text (strip s) institution description) = false.
Proof.
  intros Hne. unfold is_blank, course_text. rewrite strip_strip.
  pose proof (strip_no_ws_prefix s) as Hp.
  destruct (strip s) as [| a t]; [done |].
  set (rest := institution ++ " " ++ description).
  assert (ws_prefix (bytes (String a t ++ " " ++ rest)) = None) as H.
  { rewrite bytes_app. change (bytes (" " ++ rest)) with (32%N :: bytes rest).
    by apply ws_prefix_space_after. }
  change (String a t ++ " " ++ rest) with (String a (t ++ " " ++ rest)) in *.
  by destruct (strip_keeps_head _ _ H) as (r & ->).
Qed.

Section Facts.

Context {vec : Type}.
Variable encode : string -> vec.
Variable rt : runtime.
Variable store_fault : nat -> option exn.

Abbreviation disk := (@Coursera.disk vec).

Lemma appended_nil (d : disk) : appended encode d [] d.
Proof.
  split; [| done]. unfold courses_on. simpl. by rewrite !List.app_nil_r.
Qed.

Lemma appended_trans (d1 d2 d3 : disk) fs gs :
  appended encode d1 fs d2 -> appended encode d2 gs d3 ->
  appended encode d1 (fs ++ gs) d3.
Proof.
  intros [H1 O1] [H2 O2]. split.
  - rewrite H2, H1. simpl. by rewrite !List.map_app, !List.app_assoc.
  - intros t Ht. destruct (O1 t Ht) as [<- <-]. by apply O2.
Qed.

(** What [read_course] accepts has a title, and the title is stripped. *)
Lemma read_course_title course f :
  read_course rt course = Ok (Some f) ->
  exists s, cf_title f = strip s /\ strip s <> "".
Proof.
  unfold read_course. destruct (negb (is_dict course)); [done |].
  destruct (py_get rt course "title" _) as [v1 |]; [| done]. cbn [res_bind].
  destruct v1 as [| | | | s1 | |]; try done. cbn [py_strip res_bind].
  destruct (py_get rt course "url" _) as [v2 |]; [| done]. cbn [res_bind].
  destruct (py_strip rt v2) as [url |]; [| done]. cbn [res_bind].
  destruct (py_get rt course "instructor" _) as [v3 |]; [| done]. cbn [res_bind].
  destruct (py_strip rt v3) as [instructor |]; [| done]. cbn [res_bind].
  destruct (if negb _ then _ else _) as [institution |]; [| done].
  cbn [res_bind].
  destruct (py_get rt course "rating" _) as [v4 |]; [| done]. cbn [res_bind].
  destruct (py_get rt course "description" _) as [v5 |]; [| done].
  cbn [res_bind].
  destruct (py_strip rt v5) as [description |]; [| done]. cbn [res_bind].
  destruct (String.eqb (strip s1) "") eqn:E; [done |].
  destruct (String.eqb url ""); [done |]. cbn [orb].
  intros H. inversion H; subst f. exists s1. split; [done |].
  by apply String.eqb_neq.
Qed.

(** One accepted course whose call does not fail: a new entry at the end
    of the files. *)
Lemma add_course_stored f (d : disk) s i :
  store_fault i = None ->
  cf_title f = strip s -> strip s <> "" ->
  exists d',
    add_coursera_course_to_faiss encode store_fault (cf_title f) (cf_url f)
      (cf_institution f) (cf_rating f) (cf_description f) i d
      = ("✅ Stored in FAISS.", d') /\
    appended encode d [f] d'.
Proof.
  intros Hi0 Ht Hne. unfold add_coursera_course_to_faiss. rewrite Hi0.
  set (text := course_text _ _ _). set (m := course_meta _ _ _ _).
  assert (is_blank text = false) as Hb.
  { subst text. rewrite Ht. by apply course_text_not_blank. }
  set (h := new_handler (fst d) (snd d)).
  assert (add encode text m "coursera" h
          = add encode text m "coursera" (_ensure_loaded "coursera" h)) as ->.
  { unfold add.
    by rewrite (ensure_loaded_idem "coursera" (_ensure_loaded "coursera" h))
      by exact (ensure_loaded_loaded encode "coursera" h). }
  destruct (get_corpus_new_handler (fst d) (snd d) "coursera") as [_ Hm].
  fold h in Hm. unfold in_memory in Hm.
  destruct (indices _ !! "coursera") as [ix |] eqn:Hi; [| done].
  destruct (corpora _ !! "coursera") as [c |] eqn:Hc; [| done].
  inversion Hm; subst ix c. clear Hm.
  rewrite (add_loaded_eq encode text m "coursera" _ _ _
             (ensure_loaded_loaded encode "coursera" h) Hi Hc Hb).
  eexists. split; [reflexivity |]. split.
  - unfold courses_on, file_or_empty. cbn [fst snd index_files corpus_files].
    by rewrite !lookup_insert_eq.
  - intros t Hne'. cbn [fst snd index_files corpus_files].
    assert (index_files (_ensure_loaded "coursera" h) = fst d /\
            corpus_files (_ensure_loaded "coursera" h) = snd d) as [-> ->].
    { unfold _ensure_loaded. by case_decide. }
    by rewrite !lookup_insert_ne.
Qed.

(** A call that fails reports the failure and leaves the files. *)
Lemma add_course_failed f (d : disk) i e :
  store_fault i = Some e ->
  add_coursera_course_to_faiss encode store_fault (cf_title f) (cf_url f)
    (cf_institution f) (cf_rating f) (cf_description f) i d
    = ("❌ Failed to add course: " ++ exn_msg e, d).
Proof. intros H. unfold add_coursera_course_to_faiss. by rewrite H. Qed.

(** A run over entries that can all be read: the counter goes up by one
    per accepted entry, the files gain the entries whose call did not
    fail. *)
Lemma add_courses_read items : forall added (d : disk),
  Forall (fun course => exists o, read_course rt course = Ok o) items ->
  exists d',
    add_courses encode rt store_fault items added d
      = (Ok (added + length (accepted_courses rt items))%nat, d') /\
    appended encode d (stored_from store_fault added (accepted_courses rt items)) d'.
Proof.
  induction items as [| course rest IH]; intros added d Hall.
  - exists d. split; [| apply appended_nil].
    unfold accepted_courses. simpl. by rewrite Nat.add_0_r.
  - apply Forall_cons in Hall as [[o Ho] Hrest].
    assert (accepted_courses rt (course :: rest)
            = match o with
              | Some f => f :: accepted_courses rt rest
              | None => accepted_courses rt rest
              end) as ->
      by (unfold accepted_courses; simpl; rewrite Ho; by destruct o).
    cbn [add_courses]. rewrite Ho.
    destruct o as [f |].
    + destruct (read_course_title _ _ Ho) as (s & Ht & Hne).
      cbn [stored_from].
      destruct (store_fault added) as [e |] eqn:Hf.
      * rewrite (add_course_failed f d added e Hf).
        destruct (IH (S added) d Hrest) as (d' & -> & H2).
        exists d'. split; [cbn [length]; do 2 f_equal; lia | done].
      * destruct (add_course_stored f d s added Hf Ht Hne) as (d1 & -> & H1).
        destruct (IH (S added) d1 Hrest) as (d' & -> & H2).
        exists d'. split; [cbn [length]; do 2 f_equal; lia |].
        exact (appended_trans _ _ _ [f] _ H1 H2).
    + destruct (IH added d Hrest) as (d' & -> & H2). by exists d'.
Qed.

Lemma add_courses_app pre rest : forall added (d : disk),
  add_courses encode rt store_fault (pre ++ rest) added d
    = match add_courses encode rt store_fault pre added d with
      | (Ok n, d1) => add_courses encode rt store_fault rest n d1
      | (Raise e, d1) => (Raise e, d1)
      end.
Proof.
  induction pre as [| course pre IH]; intros added d; [done |].
  cbn [add_courses app].
  destruct (read_course rt course) as [[f |] | e]; [| apply IH | done].
  destruct (add_coursera_course_to_faiss _ _ _ _ _ _ _ _ _) as [r d1]. apply IH.
Qed.

Lemma add_courses_ok_read items : forall added (d : disk) n d',
  add_courses encode rt store_fault items added d = (Ok n, d') ->
  Forall (fun course => exists o, read_course rt course = Ok o) items.
Proof.
  induction items as [| course rest IH]; intros added d n d' H; [done |].
  cbn [add_courses] in H.
  destruct (read_course rt course) as [[f |] | e] eqn:E; [| | done].
  - destruct (add_coursera_course_to_faiss _ _ _ _ _ _ _ _ _) as [r d1].
    constructor; [by eexists | by eapply IH].
  - constructor; [by eexists | by eapply IH].
Qed.

(** Stored and failed calls add up to the calls. *)
Lemma stored_failed_length fs : forall i,
  (length (stored_from store_fault i fs)
     + failed_from store_fault i (length fs))%nat = length fs.
Proof.
  induction fs as [| f fs IH]; intros i; [done |].
  cbn [stored_from failed_from length].
  specialize (IH (S i)). destruct (store_fault i); cbn [length]; lia.
Qed.

Lemma stored_from_no_fault fs : forall i,
  (forall j, (i <= j < i + length fs)%nat -> store_fault j = None) ->
  stored_from store_fault i fs = fs.
Proof.
  induction fs as [| f fs IH]; intros i H; [done |]. cbn [stored_from].
  rewrite (H i) by (cbn [length]; lia). f_equal. apply IH.
  intros j Hj. apply H. cbn [length]. lia.
Qed.

(** X24.  The number that [add_all_coursera_courses_from_json] reports
    counts the calls of [add_coursera_course_to_faiss], not the courses
    stored: the counter is incremented after every call, whatever the call
    returns.  When the run ends without an exception, the number is the
    number of accepted entries; the files of the courses hold what they
    held before followed by the entries of the accepted courses whose call
    did not fail, in the order of the file, the index holds the embeddings
    of their texts, and the files of the other data types are as they
    were.  The number reported is the number stored plus the number of
    failed calls: it is what was stored exactly when no call failed.  An
    entry that reaches the call has a title that is not empty after
    stripping, so that its text is never blank and [add] does not turn it
    away. *)
Theorem added_counts_calls (courses : json) (d d' : disk) n :
  add_all_coursera_courses_from_json encode rt store_fault courses d
    = (Ok n, d') ->
  exists items,
    py_iter rt courses = Ok items /\
    n = length (accepted_courses rt items) /\
    appended encode d
      (stored_from store_fault O (accepted_courses rt items)) d' /\
    n = (length (stored_from store_fault O (accepted_courses rt items))
           + failed_from store_fault O n)%nat /\
    ((forall i, (i < n)%nat -> store_fault i = None) ->
       appended encode d (accepted_courses rt items) d').
Proof.
  unfold add_all_coursera_courses_from_json.
  destruct (py_iter rt courses) as [items | e]; [| done].
  intros H. exists items. split; [done |].
  pose proof (add_courses_ok_read _ _ _ _ _ H) as Hall.
  destruct (add_courses_read items O d Hall) as (d1 & E & Ha).
  rewrite E in H. inversion H; subst. cbn [Nat.add].
  split; [done |]. split; [done |]. split.
  { symmetry. apply stored_failed_length. }
  intros Hno. rewrite stored_from_no_fault in Ha; [done |].
  intros j Hj. apply Hno. lia.
Qed.

(** X25.  An entry that cannot be read ends the run where it stands: when
    the entries before it can be read and reading it raises, the run
    raises the same exception, and the courses stored before it, which are
    the accepted ones whose call did not fail, all of them when no call
    fails, stay in the files. *)
Theorem bad_entry_stops_run pre bad post e (d : disk) :
  Forall (fun course => exists o, read_course rt course = Ok o) pre ->
  read_course rt bad = Raise e ->
  exists d',
    add_all_coursera_courses_from_json encode rt store_fault
      (JArr (pre ++ bad :: post)) d
      = (Raise e, d') /\
    appended encode d (stored_from store_fault O (accepted_courses rt pre)) d' /\
    ((forall i, store_fault i = None) ->
       appended encode d (accepted_courses rt pre) d').
Proof.
  intros Hall Hbad. unfold add_all_coursera_courses_from_json.
  cbn [py_iter]. rewrite add_courses_app.
  destruct (add_courses_read pre O d Hall) as (d1 & -> & Ha).
  exists d1. split; [cbn [add_courses]; by rewrite Hbad |].
  split; [done |].
  intros Hno. rewrite stored_from_no_fault in Ha; [done |].
  intros j _. apply Hno.
Qed.

End Facts.

Import Demo.

Lemma added_counts_calls_witness :
  exists items,
    py_iter demo_runtime (JArr course_file) = Ok items /\
    2%nat = length (accepted_courses demo_runtime items) /\
    appended demo_encode no_files
      (stored_from second_call_fails O (accepted_courses demo_runtime items))
      (snd (add_all_coursera_courses_from_json demo_encode demo_runtime
              second_call_fails (JArr course_file) no_files)) /\
    2%nat = (length (stored_from second_call_fails O
                       (accepted_courses demo_runtime items))
               + failed_from second_call_fails O 2)%nat.
Proof.
  destruct (added_counts_calls demo_encode demo_runtime second_call_fails
              (JArr course_file) no_files
              (snd (add_all_coursera_courses_from_json demo_encode
                      demo_runtime second_call_fails (JArr course_file)
                      no_files))
              2%nat ltac:(vm_compute; reflexivity))
    as (items & H1 & H2 & H3 & H4 & _).
  by exists items.
Defined.

Lemma bad_entry_stops_run_witness :
  exists d',
    add_all_coursera_courses_from_json demo_encode demo_runtime no_fault
      (JArr (course_file ++ course_untitled :: course_file)) no_files
      = (Raise (Exn AttributeError "<operand>"), d') /\
    appended demo_encode no_files (accepted_courses demo_runtime course_file) d'.
Proof.
  destruct (bad_entry_stops_run demo_encode demo_runtime no_fault course_file
              course_untitled course_file (Exn AttributeError "<operand>")
              no_files) as (d' & H1 & _ & H3).
  - repeat (constructor; [eexists; vm_compute; reflexivity |]). constructor.
  - vm_compute. reflexivity.
  - exists d'. split; [exact H1 |]. by apply H3.
Defined.

End CourseraFacts.
